(** * Face identification: the resolver of the MCP server

    A shallow embedding of [PythonFaceRecognitionService]
    (mcp-server/src/python-face-recognition.ts), of the [faces] table
    (mcp-server/database-schema.sql) and of the [match_faces] query
    (mcp-server/supabase-functions.sql), followed by the properties the
    specification states about face resolution.

    The database is PostgreSQL with the vector extension. What the
    repository does not hold is taken from the outside world of a call:
    the distance operator [<=>] of the extension, and the rows the plan
    of a query reads, which are all the rows or, through the index
    [faces_embedding_idx], some of them. *)

From Stdlib Require Import Ascii String DecimalString.
From Stdlib Require Import List NArith ZArith QArith Qround Bool Lia.
From Stdlib Require Import Sorted Permutation SpecFloat.
Import ListNotations.

(** ** JavaScript strings

    A JavaScript string is a sequence of UTF-16 code units. *)

Module Js.

Definition jsstring := list N.

(** A literal of the source text. *)
Definition str (s : string) : jsstring :=
  map N_of_ascii (list_ascii_of_string s).

Definition eqb (a b : jsstring) : bool :=
  if list_eq_dec N.eq_dec a b then true else false.

(** [!s] on a string: only the empty string is falsy. *)
Definition falsy (s : jsstring) : bool :=
  match s with [] => true | _ :: _ => false end.

(** [x && y] in a condition, for optional string arguments:
    [undefined] and the empty string are falsy. *)
Definition truthy (o : option jsstring) : bool :=
  match o with
  | Some s => negb (falsy s)
  | None => false
  end.

(** WhiteSpace and LineTerminator code points of ECMAScript, the ones
    [String.prototype.trim] strips. All of them lie in the basic plane. *)
Definition is_white_space (c : N) : bool :=
  ((c =? 0x09) || (c =? 0x0A) || (c =? 0x0B) || (c =? 0x0C) || (c =? 0x0D)
   || (c =? 0x20) || (c =? 0xA0) || (c =? 0x1680)
   || ((0x2000 <=? c) && (c <=? 0x200A))
   || (c =? 0x2028) || (c =? 0x2029) || (c =? 0x202F) || (c =? 0x205F)
   || (c =? 0x3000) || (c =? 0xFEFF))%N.

Fixpoint trimStart (s : jsstring) : jsstring :=
  match s with
  | [] => []
  | c :: t => if is_white_space c then trimStart t else s
  end.

Definition trimEnd (s : jsstring) : jsstring :=
  rev (trimStart (rev s)).

Definition trim (s : jsstring) : jsstring :=
  trimEnd (trimStart s).

(** [p] is a prefix of [s]. *)
Fixpoint startsWith (p s : jsstring) : bool :=
  match p, s with
  | [], _ => true
  | _ :: _, [] => false
  | a :: p', b :: s' => (a =? b)%N && startsWith p' s'
  end.

(** [s.includes(p)] *)
Fixpoint includes (s p : jsstring) : bool :=
  startsWith p s ||
  match s with
  | [] => false
  | _ :: t => includes t p
  end.

(** Decimal text of a number, as a template literal prints an integer. *)
Definition of_N (n : N) : jsstring :=
  str (NilZero.string_of_uint (N.to_uint n)).

End Js.

Import Js.

(** ** Floating point numbers of the database

    [float], that is [float8], is IEEE binary64. The operations are
    those of the specification of floating point arithmetic of the
    standard library, which round to nearest, ties to even. *)

Module Float8.

Definition t : Type := spec_float.

Definition prec : Z := 53.
Definition emax : Z := 1024.

(** The [float8] nearest to a rational number: the value a decimal
    number of a request is read as. *)
Definition of_Q (q : Q) : t :=
  match Qnum q with
  | Z0 => S754_zero false
  | Zpos n => SFdiv prec emax (S754_finite false n 0) (S754_finite false (Qden q) 0)
  | Zneg n => SFdiv prec emax (S754_finite true n 0) (S754_finite false (Qden q) 0)
  end.

Definition one : t := of_Q 1.

Definition sub : t -> t -> t := SFsub prec emax.
Definition mul : t -> t -> t := SFmul prec emax.
Definition div : t -> t -> t := SFdiv prec emax.
Definition sqrt : t -> t := SFsqrt prec emax.

(** The order of PostgreSQL on [float8]: the order of the numbers, with
    NaN equal to itself and above every other value. The operators [<]
    and [>] and [ORDER BY] all follow it. *)
Definition compare (a b : t) : comparison :=
  match SFcompare a b with
  | Some c => c
  | None =>
      match a, b with
      | S754_nan, S754_nan => Eq
      | S754_nan, _ => Gt
      | _, _ => Lt
      end
  end.

Definition gt (a b : t) : bool :=
  match compare a b with Gt => true | _ => false end.

Definition lt (a b : t) : bool :=
  match compare a b with Lt => true | _ => false end.

End Float8.

(** ** Embedding vectors

    [number[]] on the TypeScript side, [vector(512)] in the database. *)

Module Vec.

Definition embedding := list Q.

End Vec.

Import Vec.

(** ** The [faces] table *)

Module FaceRecord.
Record t : Type := mk {
  id : jsstring;
  name : jsstring;
  relationship : jsstring;
  color : jsstring;
  face_embedding : option embedding;
  image_url : option jsstring;
  created_at : jsstring;
  updated_at : jsstring;
  user_id : option jsstring
}.
End FaceRecord.

Module FaceInsert.
Record t : Type := mk {
  name : jsstring;
  relationship : jsstring;
  color : option jsstring;
  face_embedding : option embedding;
  image_url : option jsstring;
  user_id : option jsstring
}.
End FaceInsert.

(** A row of the table [match_faces] returns. *)
Module MatchedFace.
Record t : Type := mk {
  id : jsstring;
  name : jsstring;
  relationship : jsstring;
  color : jsstring;
  face_embedding : embedding;
  similarity : Float8.t
}.
End MatchedFace.

Module Db.

Definition table := list FaceRecord.t.

(** [VECTOR(512)] *)
Definition dimensions : nat := 512.

Definition is_high_surrogate (c : N) : bool := ((0xD800 <=? c) && (c <=? 0xDBFF))%N.
Definition is_low_surrogate (c : N) : bool := ((0xDC00 <=? c) && (c <=? 0xDFFF))%N.

(** Number of characters of a string: a surrogate pair is one character. *)
Fixpoint char_length (s : jsstring) : nat :=
  match s with
  | [] => 0
  | h :: t =>
      match t with
      | l :: rest =>
          if is_high_surrogate h && is_low_surrogate l
          then S (char_length rest)
          else S (char_length t)
      | [] => 1
      end
  end.

(** A value of a character type cannot hold the character U+0000. *)
Definition text (s : jsstring) : bool :=
  forallb (fun c => negb (c =? 0)%N) s.

Definition text_fits (o : option jsstring) : bool :=
  match o with
  | Some s => text s
  | None => true
  end.

(** Storing into a [VARCHAR(n)] column: a longer string is an error,
    unless the excess characters are all spaces, which are cut off. *)
Definition varchar (n : nat) (s : jsstring) : option jsstring :=
  let excess := (char_length s - n)%nat in
  let kept := firstn (length s - excess)%nat s in
  if text s && forallb (N.eqb 0x20) (skipn (length s - excess)%nat s)
  then Some kept else None.

Definition option_eqb (a b : option jsstring) : bool :=
  match a, b with
  | Some x, Some y => Js.eqb x y
  | _, _ => false
  end.

(** [CONSTRAINT unique_name_per_user UNIQUE (name, user_id)]: two rows
    conflict when both columns are equal; a NULL is equal to nothing. *)
Definition unique_name_per_user (nm : jsstring) (uid : option jsstring) (tbl : table) : bool :=
  negb (existsb (fun r => Js.eqb (FaceRecord.name r) nm
                          && option_eqb (FaceRecord.user_id r) uid) tbl).

(** [id ... PRIMARY KEY] *)
Definition primary_key (i : jsstring) (tbl : table) : bool :=
  negb (existsb (fun r => Js.eqb (FaceRecord.id r) i) tbl).

Definition vector_fits (e : option embedding) : bool :=
  match e with
  | Some v => Nat.eqb (length v) dimensions
  | None => true
  end.

(** [INSERT INTO faces ... RETURNING *] of one row. [new_id] is what
    [gen_random_uuid()] yields and [now] what [NOW()] yields; the colour
    defaults to ['blue']. [None] is a constraint violation. *)
Definition insert (new_id now : jsstring) (d : FaceInsert.t) (tbl : table)
  : option (FaceRecord.t * table) :=
  match varchar 255 (FaceInsert.name d),
        varchar 255 (FaceInsert.relationship d),
        varchar 50 (match FaceInsert.color d with Some c => c | None => str "blue" end) with
  | Some nm, Some rel, Some col =>
      if vector_fits (FaceInsert.face_embedding d)
         && text_fits (FaceInsert.image_url d)
         && primary_key new_id tbl
         && unique_name_per_user nm (FaceInsert.user_id d) tbl
      then
        let row := FaceRecord.mk new_id nm rel col
                     (FaceInsert.face_embedding d) (FaceInsert.image_url d)
                     now now (FaceInsert.user_id d) in
        Some (row, tbl ++ [row])
      else None
  | _, _, _ => None
  end.

(** A row the query reads, with its vector and the distance
    [face_embedding <=> query_embedding] the database computes for it. *)
Record Candidate : Type := mkCandidate {
  row : FaceRecord.t;
  vector : embedding;
  distance : Float8.t
}.

(** The rows of [faces] the query reads, each with its distance to the
    query. [distance] is the operator [<=>] of the vector extension, and
    [reaches] tells which rows the plan of the query reads: every row in
    a sequential scan, the rows of the lists it probes in a scan of the
    index [faces_embedding_idx]. [NULL <=> q] is NULL, and such a row
    passes no [WHERE]. *)
Fixpoint scored (distance : embedding -> embedding -> Float8.t)
    (reaches : FaceRecord.t -> bool) (tbl : table) (query_embedding : embedding)
  : list Candidate :=
  match tbl with
  | [] => []
  | r :: rest =>
      match FaceRecord.face_embedding r with
      | Some e =>
          if reaches r
          then mkCandidate r e (distance e query_embedding)
               :: scored distance reaches rest query_embedding
          else scored distance reaches rest query_embedding
      | None => scored distance reaches rest query_embedding
      end
  end.

(** [1 - (faces.face_embedding <=> query_embedding)] *)
Definition similarity (c : Candidate) : Float8.t :=
  Float8.sub Float8.one (distance c).

(** The columns of the [SELECT]. *)
Definition selected (c : Candidate) : MatchedFace.t :=
  MatchedFace.mk (FaceRecord.id (row c)) (FaceRecord.name (row c))
    (FaceRecord.relationship (row c)) (FaceRecord.color (row c))
    (vector c) (similarity c).

(** [ORDER BY faces.face_embedding <=> query_embedding]: rows at the
    same distance keep the order in which they were read. *)
Fixpoint insert_sorted (x : Candidate) (l : list Candidate) : list Candidate :=
  match l with
  | [] => [x]
  | y :: l' =>
      if Float8.lt (distance y) (distance x)
      then y :: insert_sorted x l'
      else x :: l
  end.

Definition order_by_distance (l : list Candidate) : list Candidate :=
  fold_right insert_sorted [] l.

(** pgvector refuses to compare vectors of different dimensions, and a
    vector has at least one dimension. *)
Definition dimensions_agree (tbl : table) (q : embedding) : bool :=
  negb (Nat.eqb (length q) 0)
  && forallb (fun r => match FaceRecord.face_embedding r with
                       | Some e => Nat.eqb (length e) (length q)
                       | None => true
                       end) tbl.

(** [match_faces(query_embedding, match_threshold, match_count)];
    [None] when the query raises an error. *)
Definition match_faces (distance : embedding -> embedding -> Float8.t)
    (reaches : FaceRecord.t -> bool) (tbl : table) (query_embedding : embedding)
    (match_threshold : Float8.t) (match_count : nat) : option (list MatchedFace.t) :=
  if dimensions_agree tbl query_embedding then
    Some (map selected
            (firstn match_count
               (order_by_distance
                  (filter (fun c => Float8.gt (similarity c) match_threshold)
                     (scored distance reaches tbl query_embedding)))))
  else None.

End Db.

(** ** Values exchanged with the detection service *)

Module Location.
Record t : Type := mk { top : Q; right : Q; bottom : Q; left : Q }.
End Location.

(** An element of [faces] in [PythonFaceDetectionResponse]. *)
Module PyFace.
Record t : Type := mk {
  face_id : jsstring;
  encoding : embedding;
  location : Location.t;
  confidence : Q;
  name : jsstring;
  relationship : jsstring;
  color : jsstring
}.
End PyFace.

Module PythonFaceDetectionResponse.
Record t : Type := mk {
  success : bool;
  faces : list PyFace.t;
  message : jsstring;
  error : option jsstring
}.
End PythonFaceDetectionResponse.

Module FaceDetection.
Record t : Type := mk {
  name : jsstring;
  relationship : jsstring;
  color : jsstring;
  embedding : Vec.embedding;
  confidence : Q
}.
End FaceDetection.

Module FaceRecognitionResult.
Record t : Type := mk {
  success : bool;
  person : option jsstring;
  relationship : option jsstring;
  confidence : option Q;
  color : option jsstring;
  message : jsstring;
  error : option jsstring
}.
End FaceRecognitionResult.

(** ** The world around one call *)

(** A value a [catch] clause receives: an [Error] object with its [name]
    and [message], or anything else. *)
Inductive Thrown : Type :=
| ErrorObject (name message : jsstring)
| OtherValue.

(** [new Error(message)] *)
Definition new_Error (message : jsstring) : Thrown :=
  ErrorObject (str "Error") message.

(** What [fetch(`${pythonServiceUrl}/health`)] does: it resolves to a
    response, or rejects (network failure, or the abort after 5 seconds,
    an error named [AbortError]). *)
Inductive HealthOutcome : Type :=
| HealthResponse (status : N) (statusText : jsstring)
| HealthRejected (e : Thrown).

(** What the POST to [/detect] does: it rejects, or resolves to a
    response whose body parses ([Some]) or not ([None]). *)
Inductive DetectOutcome : Type :=
| DetectRejected (e : Thrown)
| DetectResponse (status : N) (body : option PythonFaceDetectionResponse.t).

(** The answers of the outside world during one call of the service. *)
Record Env : Type := mkEnv {
  health : HealthOutcome;
  detect : DetectOutcome;
  (** the datastore answers the [match_faces] call / the insert; when it
      does not, the client reports an error or throws *)
  rpc_answers : bool;
  insert_answers : bool;
  (** [a <=> b], the cosine distance of the vector extension as the
      database computes it in the query, [a] the stored vector; and the
      rows the plan of the query reads *)
  cosine_distance : embedding -> embedding -> Float8.t;
  reaches : FaceRecord.t -> bool;
  (** [Math.random()] *)
  random : Q;
  (** [gen_random_uuid()] and [NOW()] of the database *)
  new_id : jsstring;
  now : jsstring
}.

(** [Buffer.from(s, 'base64')], kept symbolic. *)
Inductive Buffer : Type :=
| Buffer_from_base64 (s : jsstring).

(** Calls that leave the process. *)
Inductive Call : Type :=
| FetchHealth
| FetchDetect (image : Buffer)
| RpcMatchFaces (query_embedding : embedding) (match_threshold : Q) (match_count : nat)
| InsertFaces (faceData : FaceInsert.t).

(** The state a call reads and writes: the flag of the service object,
    the [faces] table, and the calls made so far, oldest first. *)
Record World : Type := mkWorld {
  modelsLoaded : bool;
  faces : Db.table;
  calls : list Call
}.

(** ** Asynchronous functions

    An [async] function runs on the world and either returns or throws;
    one whose body is a [try] with a [catch] that returns cannot throw. *)

Inductive Completion (A : Type) : Type :=
| Return (a : A)
| Throw (e : Thrown).

Arguments Return {A} a.
Arguments Throw {A} e.

Definition Async (A : Type) : Type := World -> Completion A * World.
Definition Total (A : Type) : Type := World -> A * World.

Definition ret {A} (a : A) : Async A := fun w => (Return a, w).

Definition throw {A} (e : Thrown) : Async A := fun w => (Throw e, w).

Definition bind {A B} (c : Async A) (k : A -> Async B) : Async B :=
  fun w =>
    match c w with
    | (Return a, w') => k a w'
    | (Throw e, w') => (Throw e, w')
    end.

Definition await {A} (c : Total A) : Async A :=
  fun w => let (a, w') := c w in (Return a, w').

(** [try { body } catch (error) { return handler(error) }] *)
Definition try_catch_return {A} (body : Async A) (handler : Thrown -> A) : Total A :=
  fun w =>
    match body w with
    | (Return a, w') => (a, w')
    | (Throw e, w') => (handler e, w')
    end.

(** [try { body } catch (error) { throw handler(error) }] *)
Definition try_catch_throw {A} (body : Async A) (handler : Thrown -> Thrown) : Async A :=
  fun w =>
    match body w with
    | (Return a, w') => (Return a, w')
    | (Throw e, w') => (Throw (handler e), w')
    end.

Declare Scope async_scope.
Delimit Scope async_scope with async.
Notation "x <- c ;; k" := (bind c (fun x => k))
  (at level 61, c at next level, right associativity) : async_scope.
Notation "c ;;; k" := (bind c (fun _ => k))
  (at level 61, right associativity) : async_scope.

Definition get_modelsLoaded : Async bool :=
  fun w => (Return (modelsLoaded w), w).

Definition set_modelsLoaded (b : bool) : Async unit :=
  fun w => (Return tt, mkWorld b (faces w) (calls w)).

Definition get_faces : Async Db.table :=
  fun w => (Return (faces w), w).

Definition set_faces (t : Db.table) : Async unit :=
  fun w => (Return tt, mkWorld (modelsLoaded w) t (calls w)).

Definition call (c : Call) : Async unit :=
  fun w => (Return tt, mkWorld (modelsLoaded w) (faces w) (calls w ++ [c])).

(** ** [PythonFaceRecognitionService] *)

Module Service.

Local Open Scope async_scope.

(** [response.ok]: a status in the range 200-299. *)
Definition response_ok (status : N) : bool :=
  ((200 <=? status) && (status <=? 299))%N.

(** [error instanceof Error && error.name === 'AbortError'] *)
Definition is_AbortError (error : Thrown) : bool :=
  match error with
  | ErrorObject name _ => Js.eqb name (str "AbortError")
  | OtherValue => false
  end.

(** [error instanceof Error ? error.message : 'Unknown error'] *)
Definition message_or_unknown (error : Thrown) : jsstring :=
  match error with
  | ErrorObject _ message => message
  | OtherValue => str "Unknown error"
  end.

Definition fetch_health (env : Env) : Async (N * jsstring) :=
  call FetchHealth ;;;
  match health env with
  | HealthResponse status statusText => ret (status, statusText)
  | HealthRejected e => throw e
  end.

Definition initialize (env : Env) : Async unit :=
  loaded <- get_modelsLoaded ;;
  if loaded then ret tt
  else
    try_catch_throw
      (response <- fetch_health env ;;
       let (status, statusText) := response in
       if negb (response_ok status)
       then throw (new_Error (str "Python service not available: "
                                ++ of_N status ++ str " " ++ statusText))
       else set_modelsLoaded true)
      (fun error =>
         if is_AbortError error
         then new_Error (str "Python face recognition service connection timeout - is the service running?")
         else new_Error (str "Python face recognition service could not be initialized: "
                           ++ message_or_unknown error)).

Definition fetch_detect (env : Env) (imageBuffer : Buffer)
  : Async (N * option PythonFaceDetectionResponse.t) :=
  call (FetchDetect imageBuffer) ;;;
  match detect env with
  | DetectResponse status body => ret (status, body)
  | DetectRejected e => throw e
  end.

(** The conversion of one face of the response: [encoding] becomes
    [embedding]. *)
Definition to_FaceDetection (face : PyFace.t) : FaceDetection.t :=
  FaceDetection.mk (PyFace.name face) (PyFace.relationship face)
    (PyFace.color face) (PyFace.encoding face) (PyFace.confidence face).

Definition detectFaces (env : Env) (imageBuffer : Buffer) : Total (list FaceDetection.t) :=
  try_catch_return
    (loaded <- get_modelsLoaded ;;
     (if negb loaded then initialize env else ret tt) ;;;
     response <- fetch_detect env imageBuffer ;;
     let (status, body) := response in
     if negb (response_ok status)
     then throw (new_Error (str "Python service error: " ++ of_N status))
     else
       match body with
       | None => throw OtherValue
       | Some result =>
           if negb (PythonFaceDetectionResponse.success result) then ret []
           else ret (map to_FaceDetection (PythonFaceDetectionResponse.faces result))
       end)
    (fun _ => []).

(** [supabase.rpc('match_faces', ...)]: [None] stands for the [error]
    of the client, [Some data] for its [data]. *)
Definition rpc_match_faces (env : Env) (query_embedding : embedding)
    (match_threshold : Q) (match_count : nat) : Async (option (list MatchedFace.t)) :=
  call (RpcMatchFaces query_embedding match_threshold match_count) ;;;
  tbl <- get_faces ;;
  if rpc_answers env
  then ret (Db.match_faces (cosine_distance env) (reaches env) tbl
              query_embedding (Float8.of_Q match_threshold) match_count)
  else ret None.

Definition identifyFace (env : Env) (embedding : Vec.embedding) : Total (option MatchedFace.t) :=
  try_catch_return
    (answer <- rpc_match_faces env embedding (7 # 10) 1 ;;
     match answer with
     | None => ret None
     | Some data =>
         match data with
         | first :: _ => ret (Some first)
         | [] => ret None
         end
     end)
    (fun _ => None).

(** [supabase.from('faces').insert([faceData]).select().single()] *)
Definition insert_faces (env : Env) (faceData : FaceInsert.t) : Async (option FaceRecord.t) :=
  call (InsertFaces faceData) ;;;
  tbl <- get_faces ;;
  if insert_answers env
  then
    match Db.insert (new_id env) (now env) faceData tbl with
    | Some (row, tbl') => set_faces tbl' ;;; ret (Some row)
    | None => ret None
    end
  else ret None.

Definition addFace (env : Env) (faceData : FaceInsert.t) : Total (option FaceRecord.t) :=
  try_catch_return
    (answer <- insert_faces env faceData ;;
     match answer with
     | None => ret None
     | Some data => ret (Some data)
     end)
    (fun _ => None).

Definition hexColors : list jsstring :=
  [ str "#FF6B6B"; str "#4ECDC4"; str "#45B7D1"; str "#96CEB4";
    str "#FFEAA7"; str "#DDA0DD"; str "#FFB6C1"; str "#98D8C8";
    str "#F7DC6F"; str "#BB8FCE"; str "#85C1E9"; str "#F8C471" ].

(** [hexColors[Math.floor(Math.random() * hexColors.length)]]; an index
    outside the array reads [undefined]. The random number is taken as
    the rational it is, and the product is the product of rationals. *)
Definition getRandomColor (env : Env) : option jsstring :=
  let i := Qfloor (random env * inject_Z (Z.of_nat (length hexColors))) in
  if (i <? 0)%Z then None else nth_error hexColors (Z.to_nat i).

(** The [catch] clause of [recognizeFace]. *)
Definition recognition_failed (error : Thrown) : FaceRecognitionResult.t :=
  let errorMessage :=
    match error with
    | ErrorObject _ message =>
        if includes message (str "fetch")
        then str "Cannot connect to Python face recognition service - is it running?"
        else message
    | OtherValue => str "Face recognition failed"
    end in
  FaceRecognitionResult.mk false None None None None
    errorMessage (Some (message_or_unknown error)).

(** The object literals [recognizeFace] returns. *)
Definition no_image_data : FaceRecognitionResult.t :=
  FaceRecognitionResult.mk false None None None None
    (str "No image data provided") (Some (str "Empty image data")).

Definition no_faces : FaceRecognitionResult.t :=
  FaceRecognitionResult.mk false None None None None
    (str "No faces detected in the image") (Some (str "No faces found")).

Definition found (existingPerson : MatchedFace.t) : FaceRecognitionResult.t :=
  FaceRecognitionResult.mk true
    (Some (MatchedFace.name existingPerson))
    (Some (MatchedFace.relationship existingPerson))
    (Some (8 # 10))
    (Some (MatchedFace.color existingPerson))
    (str "Found existing person: " ++ MatchedFace.name existingPerson
       ++ str " (" ++ MatchedFace.relationship existingPerson ++ str ")")
    None.

Definition added_new (newFace : FaceRecord.t) : FaceRecognitionResult.t :=
  FaceRecognitionResult.mk true
    (Some (FaceRecord.name newFace))
    (Some (FaceRecord.relationship newFace))
    (Some 1)
    (Some (FaceRecord.color newFace))
    (str "Added new person: " ++ FaceRecord.name newFace
       ++ str " (" ++ FaceRecord.relationship newFace ++ str ")")
    None.

Definition unmatched (face : FaceDetection.t) : FaceRecognitionResult.t :=
  FaceRecognitionResult.mk false
    (Some (str "Unknown")) (Some (str "Unknown"))
    (Some (FaceDetection.confidence face)) None
    (str "Face detected but not recognized. Provide name and relationship to add new person.")
    None.

(** Step 3 of [recognizeFace], on the first detected face: search for
    the person, and add a new one when nobody is found and
    [personName && personRelationship] holds. *)
Definition resolve (env : Env) (face : FaceDetection.t)
    (personName personRelationship : option jsstring) : Async FaceRecognitionResult.t :=
  existingPerson <- await (identifyFace env (FaceDetection.embedding face)) ;;
  match existingPerson with
  | Some existingPerson => ret (found existingPerson)
  | None =>
      match personName, personRelationship with
      | Some name, Some relationship =>
          if negb (falsy name) && negb (falsy relationship)
          then
            newFace <- await (addFace env
                         (FaceInsert.mk name relationship (getRandomColor env)
                            (Some (FaceDetection.embedding face)) None None)) ;;
            match newFace with
            | Some newFace => ret (added_new newFace)
            | None => ret (unmatched face)
            end
          else ret (unmatched face)
      | _, _ => ret (unmatched face)
      end
  end.

(** The [try] block of [recognizeFace]. *)
Definition recognize (env : Env) (base64Image : jsstring)
    (personName personRelationship : option jsstring) : Async FaceRecognitionResult.t :=
  loaded <- get_modelsLoaded ;;
  (if negb loaded then initialize env else ret tt) ;;;
  if falsy base64Image || Nat.eqb (length (trim base64Image)) 0
  then ret no_image_data
  else
    faceDetections <- await (detectFaces env (Buffer_from_base64 base64Image)) ;;
    match faceDetections with
    | [] => ret no_faces
    | face :: _ => resolve env face personName personRelationship
    end.

Definition recognizeFace (env : Env) (base64Image : jsstring)
    (personName personRelationship : option jsstring) : Total FaceRecognitionResult.t :=
  try_catch_return
    (recognize env base64Image personName personRelationship)
    recognition_failed.

End Service.

(** ** The tool handler of the MCP server *)

Module Json.

Inductive value : Type :=
| Boolean (b : bool)
| Number (q : Q)
| String (s : jsstring).

(** An object: its members in order. *)
Definition object : Type := list (jsstring * value).

(** A member whose value is [undefined] is left out. *)
Definition optional {A} (key : string) (inj : A -> value) (o : option A)
  : object :=
  match o with
  | Some a => [(str key, inj a)]
  | None => []
  end.

(** [JSON.stringify] of a [FaceRecognitionResult], as the value the
    text denotes; members come in the order the object literals list
    them. *)
Definition stringify (r : FaceRecognitionResult.t) : object :=
  [(str "success", Boolean (FaceRecognitionResult.success r))]
  ++ optional "person" String (FaceRecognitionResult.person r)
  ++ optional "relationship" String (FaceRecognitionResult.relationship r)
  ++ optional "confidence" Number (FaceRecognitionResult.confidence r)
  ++ optional "color" String (FaceRecognitionResult.color r)
  ++ [(str "message", String (FaceRecognitionResult.message r))]
  ++ optional "error" String (FaceRecognitionResult.error r).

Fixpoint lookup (key : jsstring) (members : object) : option value :=
  match members with
  | [] => None
  | (k, v) :: rest => if Js.eqb k key then Some v else lookup key rest
  end.

(** [response[key]]; [None] is [undefined]. *)
Definition member (key : string) (response : object) : option value :=
  lookup (str key) response.

End Json.

Module Args.
Record t : Type := mk {
  image_data : jsstring;
  person_name : option jsstring;
  person_relationship : option jsstring
}.
End Args.

(** [handleFaceRecognition]: the text of the tool result is the
    recognition result, serialised. *)
Definition handleFaceRecognition (env : Env) (args : Args.t) : Total Json.object :=
  fun w =>
    let (recognitionResult, w') :=
      Service.recognizeFace env (Args.image_data args)
        (Args.person_name args) (Args.person_relationship args) w in
    (Json.stringify recognitionResult, w').

(** ** Vocabulary of the properties *)

(** The service object is initialised once the call has dealt with the
    health check: the flag is set already, or the check answers 2xx. *)
Definition initializes (env : Env) (w : World) : bool :=
  modelsLoaded w ||
  match health env with
  | HealthResponse status _ => Service.response_ok status
  | HealthRejected _ => false
  end.

(** The faces the detection service reports for the image, when it
    answers the request with success. *)
Definition detected (env : Env) : option (list PyFace.t) :=
  match detect env with
  | DetectResponse status (Some body) =>
      if Service.response_ok status && PythonFaceDetectionResponse.success body
      then Some (PythonFaceDetectionResponse.faces body)
      else None
  | _ => None
  end.

(** Empty, or white space only. *)
Definition blank (s : jsstring) : bool := forallb is_white_space s.

(** [1 - (e <=> d)], the similarity of a stored vector and a descriptor
    as the database computes it during the call. *)
Definition similarity (env : Env) (e d : embedding) : Float8.t :=
  Float8.sub Float8.one (cosine_distance env e d).

(** That similarity against a threshold of the request, in the order of
    PostgreSQL on [float8]: a NaN is above every threshold. *)
Definition similarity_cmp (env : Env) (e d : embedding) (t : Q) : comparison :=
  Float8.compare (similarity env e d) (Float8.of_Q t).

Definition similarity_above (env : Env) (e d : embedding) (t : Q) : Prop :=
  similarity_cmp env e d t = Gt.

Definition similarity_equal (env : Env) (e d : embedding) (t : Q) : Prop :=
  similarity_cmp env e d t = Eq.

Definition similarity_at_least (env : Env) (e d : embedding) (t : Q) : Prop :=
  similarity_above env e d t \/ similarity_equal env e d t.

Definition similarity_below (env : Env) (e d : embedding) (t : Q) : Prop :=
  similarity_cmp env e d t = Lt.

(** Every stored record is below the threshold for the descriptor. *)
Definition all_below (env : Env) (tbl : Db.table) (d : embedding) (t : Q) : Prop :=
  forall r e, In r tbl -> FaceRecord.face_embedding r = Some e ->
              similarity_below env e d t.

(** What the database answers to [match_faces] during the call. *)
Definition answer (env : Env) (tbl : Db.table) (d : embedding) (t : Q) (k : nat)
  : option (list MatchedFace.t) :=
  Db.match_faces (cosine_distance env) (reaches env) tbl d (Float8.of_Q t) k.

(** ** Vocabulary of the runs *)

(** The world once the service object is initialised: a health check is
    made unless the flag is set. *)
Definition initialized (w : World) : World :=
  if modelsLoaded w then w
  else mkWorld true (faces w) (calls w ++ [FetchHealth]).

(** The error [initialize] throws on a health check that fails. *)
Definition failure_of_initialize (h : HealthOutcome) : Thrown :=
  match h with
  | HealthResponse status statusText =>
      new_Error (str "Python face recognition service could not be initialized: "
                   ++ str "Python service not available: "
                   ++ of_N status ++ str " " ++ statusText)
  | HealthRejected e =>
      if Service.is_AbortError e
      then new_Error (str "Python face recognition service connection timeout - is the service running?")
      else new_Error (str "Python face recognition service could not be initialized: "
                        ++ Service.message_or_unknown e)
  end.

(** What [detectFaces] returns on an initialised service. *)
Definition detections (env : Env) : list FaceDetection.t :=
  match detected env with
  | Some fs => map Service.to_FaceDetection fs
  | None => []
  end.

(** The row [identifyFace] yields. *)
Definition identified (env : Env) (tbl : Db.table) (e : embedding) : option MatchedFace.t :=
  if rpc_answers env then
    match answer env tbl e (7 # 10) 1 with
    | Some (first :: _) => Some first
    | _ => None
    end
  else None.

(** The row [addFace] yields, and the table it leaves. *)
Definition added (env : Env) (tbl : Db.table) (d : FaceInsert.t)
  : option FaceRecord.t * Db.table :=
  if insert_answers env then
    match Db.insert (new_id env) (now env) d tbl with
    | Some (row, tbl') => (Some row, tbl')
    | None => (None, tbl)
    end
  else (None, tbl).

(** The world after detection. *)
Definition detected_world (img : jsstring) (w : World) : World :=
  mkWorld true (faces w)
    (calls (initialized w) ++ [FetchDetect (Buffer_from_base64 img)]).

(** The world after the query for the nearest record. *)
Definition queried (e : embedding) (w : World) : World :=
  mkWorld (modelsLoaded w) (faces w) (calls w ++ [RpcMatchFaces e (7 # 10) 1]).

(** The row [recognizeFace] asks the store to insert. *)
Definition new_person (env : Env) (face : FaceDetection.t)
    (name relationship : jsstring) : FaceInsert.t :=
  FaceInsert.mk name relationship (Service.getRandomColor env)
    (Some (FaceDetection.embedding face)) None None.

(** The world after the insert. *)
Definition inserted (env : Env) (face : FaceDetection.t)
    (name relationship : jsstring) (w : World) : World :=
  mkWorld (modelsLoaded w)
    (snd (added env (faces w) (new_person env face name relationship)))
    (calls w ++ [RpcMatchFaces (FaceDetection.embedding face) (7 # 10) 1;
                 InsertFaces (new_person env face name relationship)]).

(** The row [match_faces] builds from a record with embedding [e]. *)
Definition matched_row (env : Env) (r : FaceRecord.t) (e q : embedding) : MatchedFace.t :=
  MatchedFace.mk (FaceRecord.id r) (FaceRecord.name r)
    (FaceRecord.relationship r) (FaceRecord.color r) e (similarity env e q).

(** A stored vector is strictly nearer to the descriptor than another
    one: its distance sorts strictly before. *)
Definition strictly_nearer (env : Env) (e e' d : embedding) : Prop :=
  Float8.lt (cosine_distance env e d) (cosine_distance env e' d) = true.

(** The environment [env], with a detection service that reports the
    faces [fs]. *)
Definition reporting (env : Env) (fs : list PyFace.t) : Env :=
  mkEnv (health env)
    (DetectResponse 200
       (Some (PythonFaceDetectionResponse.mk true fs (str "") None)))
    (rpc_answers env) (insert_answers env) (cosine_distance env) (reaches env)
    (random env) (new_id env) (now env).

(** A call to the datastore carries the descriptor [d] and no other. *)
Definition carries (d : embedding) (c : Call) : Prop :=
  match c with
  | RpcMatchFaces q _ _ => q = d
  | InsertFaces row => FaceInsert.face_embedding row = Some d
  | FetchHealth | FetchDetect _ => True
  end.

(** Every call of [recognizeFace] takes one of six paths. *)
Inductive Path (env : Env) (img : jsstring) (n r : option jsstring) (w : World)
  : FaceRecognitionResult.t * World -> Prop :=
| PathFailed :
    initializes env w = false ->
    Path env img n r w
      (Service.recognition_failed (failure_of_initialize (health env)),
       mkWorld false (faces w) (calls w ++ [FetchHealth]))
| PathBlank :
    initializes env w = true -> blank img = true ->
    Path env img n r w (Service.no_image_data, initialized w)
| PathNoFaces :
    initializes env w = true -> blank img = false ->
    detections env = [] ->
    Path env img n r w (Service.no_faces, detected_world img w)
| PathFound face others p :
    initializes env w = true -> blank img = false ->
    detections env = face :: others ->
    identified env (faces w) (FaceDetection.embedding face) = Some p ->
    Path env img n r w
      (Service.found p, queried (FaceDetection.embedding face) (detected_world img w))
| PathUnmatched face others :
    initializes env w = true -> blank img = false ->
    detections env = face :: others ->
    identified env (faces w) (FaceDetection.embedding face) = None ->
    truthy n && truthy r = false ->
    Path env img n r w
      (Service.unmatched face,
       queried (FaceDetection.embedding face) (detected_world img w))
| PathCreate face others name relationship :
    initializes env w = true -> blank img = false ->
    detections env = face :: others ->
    identified env (faces w) (FaceDetection.embedding face) = None ->
    n = Some name -> r = Some relationship ->
    falsy name = false -> falsy relationship = false ->
    Path env img n r w
      (match fst (added env (faces w) (new_person env face name relationship)) with
       | Some newFace => Service.added_new newFace
       | None => Service.unmatched face
       end,
       inserted env face name relationship (detected_world img w)).

(** ** Sample data *)

(** The vector extension of the examples. The operator [<=>] is not
    part of the repository; the examples take the loop of pgvector's
    [cosine_distance]: the components are [float4], the three sums are
    accumulated in [float4], the quotient is taken in [float8] and kept
    within [-1, 1]. *)
Module Pgvector.

Definition float4 : Type := spec_float.

Definition prec : Z := 24.
Definition emax : Z := 128.

(** The [float4] nearest to a rational number: a component of a
    vector as the extension reads it. *)
Definition float4_in (q : Q) : float4 :=
  match Qnum q with
  | Z0 => S754_zero false
  | Zpos n => SFdiv prec emax (S754_finite false n 0) (S754_finite false (Qden q) 0)
  | Zneg n => SFdiv prec emax (S754_finite true n 0) (S754_finite false (Qden q) 0)
  end.

(** [(double) x] *)
Definition to_float8 (x : float4) : Float8.t :=
  match x with
  | S754_finite s m e =>
      binary_normalize Float8.prec Float8.emax (cond_Zopp s (Zpos m)) e false
  | _ => x
  end.

Fixpoint sums (a b : list float4) (acc : float4 * float4 * float4)
  : float4 * float4 * float4 :=
  match a, b with
  | x :: a', y :: b' =>
      let '(similarity, norma, normb) := acc in
      sums a' b'
        (SFadd prec emax similarity (SFmul prec emax x y),
         SFadd prec emax norma (SFmul prec emax x x),
         SFadd prec emax normb (SFmul prec emax y y))
  | _, _ => acc
  end.

Definition cosine_distance (a b : embedding) : Float8.t :=
  let zero := S754_zero false in
  let '(similarity, norma, normb) :=
    sums (map float4_in a) (map float4_in b) (zero, zero, zero) in
  let similarity :=
    Float8.div (to_float8 similarity)
      (Float8.sqrt (Float8.mul (to_float8 norma) (to_float8 normb))) in
  let similarity :=
    if SFltb Float8.one similarity then Float8.one
    else if SFltb similarity (SFopp Float8.one) then SFopp Float8.one
    else similarity in
  Float8.sub Float8.one similarity.

(** A sequential scan reads every row. *)
Definition sequential_scan (r : FaceRecord.t) : bool := true.

End Pgvector.

Module Sample.

(** A vector of 512 components from its first ones. *)
Definition pad (v : embedding) : embedding :=
  v ++ repeat 0 (Db.dimensions - length v).

(** Descriptors, and stored vectors whose similarity to [d1] the
    extension computes as 0.7 ([at_07]), 0.8 ([at_08]) and 0.6
    ([at_06]); [d1] itself is at 1. *)
Definition d1 : embedding := pad [1].
Definition d2 : embedding := pad [0; 1].
Definition d3 : embedding := pad [3 # 10].
Definition at_07 : embedding := pad [7; 1; 5; 5].
Definition at_08 : embedding := pad [4; 3].
Definition at_06 : embedding := pad [3; 4].

Definition record (id name relationship : string) (e : embedding) : FaceRecord.t :=
  FaceRecord.mk (str id) (str name) (str relationship) (str "#4ECDC4")
    (Some e) None (str "2025-09-13T10:00:00Z") (str "2025-09-13T10:00:00Z") None.

Definition ana : FaceRecord.t := record "id-ana" "Ana" "Daughter" at_08.
Definition ben : FaceRecord.t := record "id-ben" "Ben" "Son" at_07.
Definition eva : FaceRecord.t := record "id-eva" "Eva" "Caregiver" at_06.
Definition zoe : FaceRecord.t := record "id-zoe" "Zoe" "Friend" at_08.

Definition face (e : embedding) : PyFace.t :=
  PyFace.mk (str "face_0") e (Location.mk 10 90 90 10) (95 # 100)
    (str "Unknown") (str "Unknown") (str "#FF6B6B").

Definition image : jsstring := str "/9j/4AAQSkZJRgABAQAAAQ==".

(** Both services up; the detector reports [fs]. *)
Definition env (fs : list PyFace.t) : Env :=
  mkEnv (HealthResponse 200 (str "OK"))
    (DetectResponse 200
       (Some (PythonFaceDetectionResponse.mk true fs (str "ok") None)))
    true true Pgvector.cosine_distance Pgvector.sequential_scan
    (1 # 2) (str "id-new") (str "2025-09-13T12:00:00Z").

(** The same, a call later: the database generates another id. *)
Definition env_later (fs : list PyFace.t) : Env :=
  mkEnv (HealthResponse 200 (str "OK"))
    (DetectResponse 200
       (Some (PythonFaceDetectionResponse.mk true fs (str "ok") None)))
    true true Pgvector.cosine_distance Pgvector.sequential_scan
    (3 # 4) (str "id-later") (str "2025-09-13T12:05:00Z").

(** The row the first registration of Ana creates. *)
Definition ana_registered : FaceRecord.t :=
  FaceRecord.mk (str "id-new") (str "Ana") (str "Daughter") (str "#FFB6C1")
    (Some d1) None (str "2025-09-13T12:00:00Z") (str "2025-09-13T12:00:00Z") None.

(** The detection service is down. *)
Definition env_service_down : Env :=
  mkEnv (HealthRejected (ErrorObject (str "TypeError") (str "fetch failed")))
    (DetectRejected (ErrorObject (str "TypeError") (str "fetch failed")))
    true true Pgvector.cosine_distance Pgvector.sequential_scan
    (1 # 2) (str "id-new") (str "2025-09-13T12:00:00Z").


(** The datastore fails on the query and answers the insert. *)
Definition env_query_down (fs : list PyFace.t) : Env :=
  mkEnv (HealthResponse 200 (str "OK"))
    (DetectResponse 200
       (Some (PythonFaceDetectionResponse.mk true fs (str "ok") None)))
    false true Pgvector.cosine_distance Pgvector.sequential_scan
    (1 # 2) (str "id-new") (str "2025-09-13T12:00:00Z").


(** The plan of the query scans the index and does not come to the rows
    of Ana. *)
Definition env_index_scan (fs : list PyFace.t) : Env :=
  mkEnv (HealthResponse 200 (str "OK"))
    (DetectResponse 200
       (Some (PythonFaceDetectionResponse.mk true fs (str "ok") None)))
    true true Pgvector.cosine_distance
    (fun r => negb (Js.eqb (FaceRecord.name r) (str "Ana")))
    (1 # 2) (str "id-new") (str "2025-09-13T12:00:00Z").

Definition world (tbl : Db.table) : World := mkWorld false tbl [].

Definition args (name relationship : option jsstring) : Args.t :=
  Args.mk image name relationship.

End Sample.

(** ** The rest of the table's operations *)

Module FaceUpdate.
Record t : Type := mk {
  name : option jsstring;
  relationship : option jsstring;
  color : option jsstring;
  face_embedding : option embedding;
  image_url : option jsstring
}.
End FaceUpdate.

(** A row of the table [update_face_info] returns. *)
Module UpdatedFace.
Record t : Type := mk {
  id : jsstring;
  name : jsstring;
  relationship : jsstring;
  color : jsstring;
  updated_at : jsstring
}.
End UpdatedFace.

Module Sql.

(** The constraints of the schema, on a whole table: the primary key,
    [unique_name_per_user], and the sizes of the columns. *)
Fixpoint ids_unique (tbl : Db.table) : bool :=
  match tbl with
  | [] => true
  | r :: rest => Db.primary_key (FaceRecord.id r) rest && ids_unique rest
  end.

Fixpoint names_unique (tbl : Db.table) : bool :=
  match tbl with
  | [] => true
  | r :: rest =>
      Db.unique_name_per_user (FaceRecord.name r) (FaceRecord.user_id r) rest
      && names_unique rest
  end.

Definition row_fits (r : FaceRecord.t) : bool :=
  (Db.char_length (FaceRecord.name r) <=? 255)%nat
  && (Db.char_length (FaceRecord.relationship r) <=? 255)%nat
  && (Db.char_length (FaceRecord.color r) <=? 50)%nat
  && Db.vector_fits (FaceRecord.face_embedding r).

Definition well_formed (tbl : Db.table) : bool :=
  ids_unique tbl && names_unique tbl && forallb row_fits tbl.

(** The update has no column to set. *)
Definition no_column (u : FaceUpdate.t) : bool :=
  match FaceUpdate.name u, FaceUpdate.relationship u, FaceUpdate.color u,
        FaceUpdate.face_embedding u, FaceUpdate.image_url u with
  | None, None, None, None, None => true
  | _, _, _, _, _ => false
  end.

(** A column of an [UPDATE]: the new value when one is given, stored
    into [VARCHAR(n)], the old one otherwise. *)
Definition set_varchar (n : nat) (new : option jsstring) (old : jsstring)
  : option jsstring :=
  match new with
  | Some s => Db.varchar n s
  | None => Some old
  end.

(** [UPDATE faces SET ...] on one row; the trigger
    [update_faces_updated_at] sets [updated_at] to [NOW()]. [None] is a
    value that does not fit its column. *)
Definition assign (now : jsstring) (u : FaceUpdate.t) (r : FaceRecord.t)
  : option FaceRecord.t :=
  match set_varchar 255 (FaceUpdate.name u) (FaceRecord.name r),
        set_varchar 255 (FaceUpdate.relationship u) (FaceRecord.relationship r),
        set_varchar 50 (FaceUpdate.color u) (FaceRecord.color r) with
  | Some nm, Some rel, Some col =>
      if Db.vector_fits (FaceUpdate.face_embedding u)
         && Db.text_fits (FaceUpdate.image_url u)
      then Some (FaceRecord.mk (FaceRecord.id r) nm rel col
                   (match FaceUpdate.face_embedding u with
                    | Some e => Some e
                    | None => FaceRecord.face_embedding r
                    end)
                   (match FaceUpdate.image_url u with
                    | Some i => Some i
                    | None => FaceRecord.image_url r
                    end)
                   (FaceRecord.created_at r) now (FaceRecord.user_id r))
      else None
  | _, _, _ => None
  end.

(** The rows with the id [i]. *)
Definition has_id (i : jsstring) (r : FaceRecord.t) : bool :=
  Js.eqb (FaceRecord.id r) i.

(** The new versions of the rows an [UPDATE] changes. *)
Fixpoint assign_all (now : jsstring) (u : FaceUpdate.t) (rows : list FaceRecord.t)
  : option (list FaceRecord.t) :=
  match rows with
  | [] => Some []
  | r :: rest =>
      match assign now u r, assign_all now u rest with
      | Some r', Some rest' => Some (r' :: rest')
      | _, _ => None
      end
  end.

(** The rows of the table after [UPDATE ... WHERE id = i], with the
    rows that were updated. The database writes an updated row as a new
    version of the row, which a scan of the table reads after the rows
    that were left as they are. *)
Definition update_rows (i now : jsstring) (u : FaceUpdate.t) (tbl : Db.table)
  : option (list FaceRecord.t * Db.table) :=
  match assign_all now u (filter (has_id i) tbl) with
  | Some updated =>
      Some (updated, filter (fun r => negb (has_id i r)) tbl ++ updated)
  | None => None
  end.

(** [UPDATE faces SET ... WHERE id = i RETURNING *]; [None] is an error
    of the statement, which changes nothing. The table the statement
    leaves has to keep [unique_name_per_user]. *)
Definition update (i now : jsstring) (u : FaceUpdate.t) (tbl : Db.table)
  : option (list FaceRecord.t * Db.table) :=
  match update_rows i now u tbl with
  | Some (updated, tbl') =>
      if names_unique tbl' then Some (updated, tbl') else None
  | None => None
  end.

(** [DELETE FROM faces WHERE id = i] *)
Definition delete (i : jsstring) (tbl : Db.table) : Db.table :=
  filter (fun r => negb (has_id i r)) tbl.

(** [SELECT * FROM faces WHERE user_id = u] *)
Definition select_user (u : jsstring) (tbl : Db.table) : list FaceRecord.t :=
  filter (fun r => Db.option_eqb (FaceRecord.user_id r) (Some u)) tbl.

(** [update_face_info(face_id, new_name, ...)]: [COALESCE] keeps the
    column of a NULL argument; the rows with the id are returned as they
    are after the update. [None] is an error. *)
Definition update_face_info (now : jsstring) (face_id : jsstring)
    (new_name new_relationship new_color : option jsstring)
    (new_embedding : option embedding) (new_image_url : option jsstring)
    (tbl : Db.table) : option (list UpdatedFace.t * Db.table) :=
  match update face_id now
          (FaceUpdate.mk new_name new_relationship new_color
             new_embedding new_image_url) tbl with
  | Some (_, tbl') =>
      Some (map (fun r => UpdatedFace.mk (FaceRecord.id r) (FaceRecord.name r)
                            (FaceRecord.relationship r) (FaceRecord.color r)
                            (FaceRecord.updated_at r))
              (filter (has_id face_id) tbl'),
            tbl')
  | None => None
  end.

End Sql.

(** ** The methods [recognizeFace] does not use

    They are given on the table alone. A filter on a [uuid] column
    compares uuids, not texts: [uuid_in] is what the database reads in
    the text of a filter, the uuid in the form the database prints it,
    or nothing when the text is no uuid. [answers] tells whether the
    datastore answers the call. *)

Module Maintenance.

Section Filters.

Variable uuid_in : jsstring -> option jsstring.

(** [supabase.from('faces').update(updates).eq('id', id).select().single()]:
    the row, or [None] for the [error] of the client. An update without
    a column is not sent to the table and yields no row; [single()]
    wants exactly one row. *)
Definition update_faces (answers : bool) (now : jsstring) (id : jsstring)
    (updates : FaceUpdate.t) (tbl : Db.table) : option FaceRecord.t * Db.table :=
  if answers then
    match uuid_in id with
    | Some i =>
        if Sql.no_column updates then (None, tbl)
        else
          match Sql.update i now updates tbl with
          | Some ([row], tbl') => (Some row, tbl')
          | _ => (None, tbl)
          end
    | None => (None, tbl)
    end
  else (None, tbl).

Definition updateFace (answers : bool) (now : jsstring) (id : jsstring)
    (updates : FaceUpdate.t) (tbl : Db.table) : option FaceRecord.t * Db.table :=
  match update_faces answers now id updates tbl with
  | (Some data, tbl') => (Some data, tbl')
  | (None, tbl') => (None, tbl')
  end.

(** [getAllFaces(userId?)]: the filter is added for a [userId] that is
    given and not empty; an error of the client gives the empty list. *)
Definition getAllFaces (answers : bool) (userId : option jsstring) (tbl : Db.table)
  : list FaceRecord.t :=
  if answers then
    if truthy userId then
      match userId with
      | Some text =>
          match uuid_in text with
          | Some u => Sql.select_user u tbl
          | None => []
          end
      | None => tbl
      end
    else tbl
  else [].

End Filters.

Definition is_lower (c : N) : bool := ((0x61 <=? c) && (c <=? 0x7A))%N.

(** The longest run of [[a-z]] at the head of the string, dropped. *)
Fixpoint skip_lower (s : jsstring) : jsstring :=
  match s with
  | [] => []
  | c :: t => if is_lower c then skip_lower t else s
  end.

(** [s.replace(/^data:image\/[a-z]+;base64,/, '')]: the character after
    the run of letters has to be the [;], so the run is the longest
    one. *)
Definition strip_data_url (s : jsstring) : jsstring :=
  if startsWith (str "data:image/") s then
    let rest := skipn 11 s in
    let after := skip_lower rest in
    if negb (Nat.eqb (length after) (length rest))
       && startsWith (str ";base64,") after
    then skipn 8 after
    else s
  else s.

(** [processImage]: neither [replace] nor [Buffer.from] throws on a
    string, so the [catch] clause is never entered. *)
Definition processImage (base64Image : jsstring) : Buffer :=
  Buffer_from_base64 (strip_data_url base64Image).

End Maintenance.

(** ** The demo service: the hash of an image

    [SimpleFaceRecognitionService.simpleHash]. A [Buffer] is its bytes. *)

Module Simple.

(** ToInt32 of ECMAScript, which every bitwise operator applies to its
    operands. *)
Definition ToInt32 (z : Z) : Z := ((z + 2 ^ 31) mod 2 ^ 32 - 2 ^ 31)%Z.

(** One turn of the loop:
    [hash = ((hash << 5) - hash + buffer[i]) & 0xffffffff]. The mask is
    ToInt32 of both sides, and [0xffffffff] is -1 as an int32. *)
Definition step (hash byte : Z) : Z :=
  Z.land (ToInt32 (ToInt32 (Z.shiftl (ToInt32 hash) 5) - hash + byte))
         (ToInt32 0xffffffff).

Definition simpleHash (buffer : list Z) : Z :=
  Z.abs (fold_left step (firstn 1000 buffer) 0%Z).

(** The polynomial in 31 with the bytes as coefficients. *)
Fixpoint poly31 (acc : Z) (bytes : list Z) : Z :=
  match bytes with
  | [] => acc
  | b :: rest => poly31 (31 * acc + b)%Z rest
  end.

End Simple.

(** ** The tool handler with operations

    The [handleFaceRecognition] of the earlier [index.ts], which takes
    an [operation]; its arguments are typed as the tool's schema has
    them. *)

Module OperationArgs.
Record t : Type := mk {
  image_data : jsstring;
  operation : jsstring;
  name : option jsstring;
  relationship : option jsstring;
  color : option jsstring
}.
End OperationArgs.

(** An element of [faces] in the reply of [list_faces]. *)
Module FaceSummary.
Record t : Type := mk {
  id : jsstring;
  name : jsstring;
  relationship : jsstring;
  color : jsstring;
  created_at : jsstring
}.
End FaceSummary.

Module Operations.

(** The objects the handler serialises into the text of its reply. *)
Inductive Reply : Type :=
| Recognition (recognitionResult : FaceRecognitionResult.t)
| Refused (message : jsstring)
| AddedFace (message person relationship color id : jsstring)
| FaceList (message : jsstring) (faces : list FaceSummary.t)
| Failed (message error : jsstring).

Local Open Scope async_scope.

Definition summary (face : FaceRecord.t) : FaceSummary.t :=
  FaceSummary.mk (FaceRecord.id face) (FaceRecord.name face)
    (FaceRecord.relationship face) (FaceRecord.color face)
    (FaceRecord.created_at face).

(** [x || "blue"] *)
Definition or_blue (color : option jsstring) : jsstring :=
  match color with
  | Some c => if falsy c then str "blue" else c
  | None => str "blue"
  end.

Section Filters.

Variable uuid_in : jsstring -> option jsstring.

(** [select_answers]: the datastore answers the select of
    [getAllFaces]. A select is not among the calls the world records. *)
Variable select_answers : bool.

Definition getAllFaces : Async (list FaceRecord.t) :=
  tbl <- get_faces ;;
  ret (Maintenance.getAllFaces uuid_in select_answers None tbl).

(** The case [add_face], after the check of name and relationship. *)
Definition add_face (env : Env) (image_data name relationship : jsstring)
    (color : option jsstring) : Async Reply :=
  let imageBuffer := Maintenance.processImage image_data in
  faceDetections <- await (Service.detectFaces env imageBuffer) ;;
  match faceDetections with
  | [] =>
      ret (Refused (str "No face detected in the image. Please provide a clear image with a face."))
  | first :: _ =>
      newFace <- await (Service.addFace env
                   (FaceInsert.mk name relationship (Some (or_blue color))
                      (Some (FaceDetection.embedding first)) None None)) ;;
      match newFace with
      | Some newFace =>
          ret (AddedFace
                 (str "Successfully added " ++ name ++ str " (" ++ relationship
                    ++ str ") to the database")
                 (FaceRecord.name newFace) (FaceRecord.relationship newFace)
                 (FaceRecord.color newFace) (FaceRecord.id newFace))
      | None => ret (Refused (str "Failed to add face to database"))
      end
  end.

Definition handleFaceRecognition (env : Env) (args : OperationArgs.t) : Total Reply :=
  let operation := OperationArgs.operation args in
  try_catch_return
    (if Js.eqb operation (str "identify") then
       recognitionResult <-
         await (Service.recognizeFace env (OperationArgs.image_data args) None None) ;;
       ret (Recognition recognitionResult)
     else if Js.eqb operation (str "add_face") then
       match OperationArgs.name args, OperationArgs.relationship args with
       | Some name, Some relationship =>
           if falsy name || falsy relationship
           then ret (Refused (str "Name and relationship are required for add_face operation"))
           else add_face env (OperationArgs.image_data args) name relationship
                  (OperationArgs.color args)
       | _, _ =>
           ret (Refused (str "Name and relationship are required for add_face operation"))
       end
     else if Js.eqb operation (str "list_faces") then
       allFaces <- getAllFaces ;;
       ret (FaceList
              (str "Found " ++ of_N (N.of_nat (length allFaces)) ++ str " known faces")
              (map summary allFaces))
     else
       ret (Refused (str "Unknown operation: " ++ operation
                       ++ str ". Supported operations: identify, add_face, list_faces")))
    (fun error =>
       Failed (str "Face recognition failed") (Service.message_or_unknown error)).

End Filters.

End Operations.

(** The order of two rows the query reads: the second does not sort
    strictly before the first. *)
Definition not_closer (a b : Db.Candidate) : Prop :=
  Float8.lt (Db.distance b) (Db.distance a) = false.

(** * Properties *)

(** ** Strings *)

Example str_abc : str "abc" = [97; 98; 99]%N.
Proof. reflexivity. Qed.

Example trim_blank : trim (str "  	 ") = [].
Proof. reflexivity. Qed.

Example trim_inner : trim (str "  a b ") = str "a b".
Proof. reflexivity. Qed.

Example includes_fetch :
  includes (str "TypeError: fetch failed") (str "fetch") = true.
Proof. reflexivity. Qed.

Example of_N_503 : of_N 503 = str "503".
Proof. reflexivity. Qed.

Lemma trimStart_nil_iff (s : jsstring) :
  trimStart s = [] <-> blank s = true.
Proof.
  unfold blank. induction s as [|c t IH]; simpl.
  - tauto.
  - destruct (is_white_space c); simpl.
    + exact IH.
    + split; discriminate.
Qed.

Lemma trimStart_head (s : jsstring) (c : N) (t : jsstring) :
  trimStart s = c :: t -> is_white_space c = false.
Proof.
  induction s as [|a s' IH]; simpl.
  - discriminate.
  - destruct (is_white_space a) eqn:E.
    + exact IH.
    + intros H. injection H as <- _. exact E.
Qed.

Lemma blank_rev (s : jsstring) : blank (rev s) = blank s.
Proof.
  unfold blank. induction s as [|c t IH]; simpl.
  - reflexivity.
  - rewrite forallb_app, IH. simpl. rewrite andb_true_r. apply andb_comm.
Qed.

(** Trimming leaves nothing exactly when the string is blank. *)
Lemma trim_nil_iff (s : jsstring) : trim s = [] <-> blank s = true.
Proof.
  unfold trim, trimEnd. split.
  - intros H.
    assert (H1 : trimStart (rev (trimStart s)) = []).
    { destruct (trimStart (rev (trimStart s))) as [|a l]; [reflexivity|].
      simpl in H. destruct (rev l); discriminate. }
    apply trimStart_nil_iff in H1. rewrite blank_rev in H1.
    destruct (trimStart s) as [|c t] eqn:E.
    + apply trimStart_nil_iff. exact E.
    + apply trimStart_head in E. simpl in H1. rewrite E in H1. discriminate.
  - intros H. apply trimStart_nil_iff in H. rewrite H. reflexivity.
Qed.

(** The validation of [recognizeFace] rejects exactly the blank strings. *)
Lemma validation_blank (s : jsstring) :
  falsy s || Nat.eqb (length (trim s)) 0 = blank s.
Proof.
  destruct (blank s) eqn:B.
  - apply trim_nil_iff in B. rewrite B. simpl. apply orb_true_r.
  - destruct s as [|c t]; [discriminate|]. simpl falsy. simpl orb.
    destruct (trim (c :: t)) eqn:T.
    + apply trim_nil_iff in T. congruence.
    + reflexivity.
Qed.

(** ** The order of [float8] *)

Ltac float8_cases :=
  repeat match goal with
         | H : context [Z.compare ?x ?y] |- _ => destruct (Z.compare_spec x y)
         | |- context [Z.compare ?x ?y] => destruct (Z.compare_spec x y)
         | H : context [Pos.compare_cont Eq ?x ?y] |- _ =>
             change (Pos.compare_cont Eq x y) with (Pos.compare x y) in H
         | |- context [Pos.compare_cont Eq ?x ?y] =>
             change (Pos.compare_cont Eq x y) with (Pos.compare x y)
         | H : context [Pos.compare ?x ?y] |- _ => destruct (Pos.compare_spec x y)
         | |- context [Pos.compare ?x ?y] => destruct (Pos.compare_spec x y)
         end;
  simpl in *; subst; try reflexivity; try discriminate; try lia.

Lemma compare_refl (a : Float8.t) : Float8.compare a a = Eq.
Proof.
  destruct a as [s|s| |s m e]; try (destruct s); simpl; try reflexivity;
    unfold Float8.compare; simpl; rewrite Z.compare_refl;
    change (Pos.compare_cont Eq m m) with (Pos.compare m m);
    rewrite Pos.compare_refl; reflexivity.
Qed.

Lemma compare_antisym (a b : Float8.t) :
  Float8.compare b a = CompOpp (Float8.compare a b).
Proof.
  destruct a as [sa|sa| |sa ma ea], b as [sb|sb| |sb mb eb];
    try (destruct sa); try (destruct sb); try reflexivity;
    unfold Float8.compare; simpl; float8_cases.
Qed.

(** [a <= b] and [b <= c] give [a <= c]. *)
Lemma compare_le_trans (a b c : Float8.t) :
  Float8.compare a b <> Gt -> Float8.compare b c <> Gt -> Float8.compare a c <> Gt.
Proof.
  destruct a as [sa|sa| |sa ma ea], b as [sb|sb| |sb mb eb], c as [sc|sc| |sc mc ec];
    try (destruct sa); try (destruct sb); try (destruct sc);
    unfold Float8.compare; simpl; intros H1 H2; try discriminate; try congruence;
    float8_cases; congruence.
Qed.

Lemma lt_irrefl (a : Float8.t) : Float8.lt a a = false.
Proof. unfold Float8.lt. rewrite compare_refl. reflexivity. Qed.

Lemma lt_asym (a b : Float8.t) : Float8.lt a b = true -> Float8.lt b a = false.
Proof.
  unfold Float8.lt. rewrite (compare_antisym a b).
  destruct (Float8.compare a b); simpl; congruence.
Qed.

Lemma lt_false_trans (a b c : Float8.t) :
  Float8.lt b a = false -> Float8.lt c b = false -> Float8.lt c a = false.
Proof.
  unfold Float8.lt. intros H1 H2.
  assert (A : Float8.compare a b <> Gt).
  { rewrite (compare_antisym b a). destruct (Float8.compare b a); simpl; congruence. }
  assert (B : Float8.compare b c <> Gt).
  { rewrite (compare_antisym c b). destruct (Float8.compare c b); simpl; congruence. }
  pose proof (compare_le_trans a b c A B) as C.
  rewrite (compare_antisym a c). destruct (Float8.compare a c); simpl; congruence.
Qed.

(** The threshold of [identifyFace]: the [float8] nearest to 7/10, a
    little below it. *)
Example threshold_float8 :
  Float8.of_Q (7 # 10) = S754_finite false 6305039478318694 (-53)
  /\ (inject_Z 6305039478318694 / inject_Z (2 ^ 53) < 7 # 10)%Q
  /\ (7 # 10 < inject_Z 6305039478318695 / inject_Z (2 ^ 53))%Q.
Proof. split; [reflexivity|]. split; reflexivity. Qed.

(** ** Running the service *)

Lemma initialize_run (env : Env) (w : World) :
  initializes env w = true ->
  Service.initialize env w = (Return tt, initialized w).
Proof.
  unfold initializes, initialized, Service.initialize, bind, get_modelsLoaded.
  destruct w as [loaded tbl log]; simpl.
  destruct loaded; simpl; [reflexivity|].
  unfold try_catch_throw, Service.fetch_health, bind, call; simpl.
  destruct (health env) as [status text|e]; simpl; [|discriminate].
  intros ->. reflexivity.
Qed.

Lemma initialize_fails (env : Env) (w : World) :
  initializes env w = false ->
  Service.initialize env w
  = (Throw (failure_of_initialize (health env)),
     mkWorld false (faces w) (calls w ++ [FetchHealth])).
Proof.
  unfold initializes, Service.initialize, bind, get_modelsLoaded.
  destruct w as [loaded tbl log]; simpl.
  destruct loaded; simpl; [discriminate|].
  unfold try_catch_throw, Service.fetch_health, bind, call; simpl.
  destruct (health env) as [status text|e]; simpl.
  - intros ->. simpl. reflexivity.
  - intros _. unfold throw. destruct (Service.is_AbortError e); reflexivity.
Qed.

Lemma detectFaces_run (env : Env) (buffer : Buffer) (w : World) :
  modelsLoaded w = true ->
  Service.detectFaces env buffer w
  = (detections env, mkWorld true (faces w) (calls w ++ [FetchDetect buffer])).
Proof.
  intros L. destruct w as [loaded tbl log]; simpl in L; subst loaded.
  unfold Service.detectFaces, detections, detected, try_catch_return, bind,
    get_modelsLoaded, Service.fetch_detect, call, ret, throw; simpl.
  destruct (detect env) as [e|status body]; simpl; [reflexivity|].
  destruct body as [result|]; simpl;
    [|destruct (Service.response_ok status); reflexivity].
  destruct (Service.response_ok status); simpl; [|reflexivity].
  destruct (PythonFaceDetectionResponse.success result); reflexivity.
Qed.

Lemma identifyFace_run (env : Env) (e : embedding) (w : World) :
  Service.identifyFace env e w
  = (identified env (faces w) e,
     mkWorld (modelsLoaded w) (faces w) (calls w ++ [RpcMatchFaces e (7 # 10) 1])).
Proof.
  unfold Service.identifyFace, identified, answer, Service.rpc_match_faces.
  unfold try_catch_return, bind, call, get_faces, ret; simpl.
  destruct (rpc_answers env); [|reflexivity].
  destruct (Db.match_faces _ _ (faces w) e _ 1) as [[|first rest]|]; reflexivity.
Qed.

Lemma addFace_run (env : Env) (d : FaceInsert.t) (w : World) :
  Service.addFace env d w
  = (fst (added env (faces w) d),
     mkWorld (modelsLoaded w) (snd (added env (faces w) d))
       (calls w ++ [InsertFaces d])).
Proof.
  unfold Service.addFace, added, Service.insert_faces.
  unfold try_catch_return, bind, call, get_faces, ret; simpl.
  destruct (insert_answers env); [|reflexivity].
  destruct (Db.insert (new_id env) (now env) d (faces w)) as [[row tbl']|]; reflexivity.
Qed.

Lemma bind_Return {A B} (c : Async A) (k : A -> Async B) (w w' : World) (a : A) :
  c w = (Return a, w') -> bind c k w = k a w'.
Proof. intros H. unfold bind. rewrite H. reflexivity. Qed.

Lemma bind_Throw {A B} (c : Async A) (k : A -> Async B) (w w' : World) (e : Thrown) :
  c w = (Throw e, w') -> bind c k w = (Throw e, w').
Proof. intros H. unfold bind. rewrite H. reflexivity. Qed.

Lemma await_run {A} (c : Total A) (w w' : World) (a : A) :
  c w = (a, w') -> await c w = (Return a, w').
Proof. intros H. unfold await. rewrite H. reflexivity. Qed.

Lemma initialized_loaded (w : World) : modelsLoaded (initialized w) = true.
Proof.
  unfold initialized. destruct (modelsLoaded w) eqn:E; [exact E|reflexivity].
Qed.

Lemma initialized_faces (w : World) : faces (initialized w) = faces w.
Proof. unfold initialized. destruct (modelsLoaded w); reflexivity. Qed.

(** The first two statements of the [try] block. *)
Lemma ensure_initialized (env : Env) (w : World) :
  initializes env w = true ->
  (if negb (modelsLoaded w) then Service.initialize env else ret tt) w
  = (Return tt, initialized w).
Proof.
  intros I. destruct (modelsLoaded w) eqn:L; simpl.
  - unfold initialized. rewrite L. reflexivity.
  - apply initialize_run. exact I.
Qed.

(** The service with a failing health check: the call ends in the
    [catch] clause. *)
Lemma recognizeFace_failed (env : Env) (img : jsstring)
    (n r : option jsstring) (w : World) :
  initializes env w = false ->
  Service.recognizeFace env img n r w
  = (Service.recognition_failed (failure_of_initialize (health env)),
     mkWorld false (faces w) (calls w ++ [FetchHealth])).
Proof.
  intros I. unfold Service.recognizeFace, try_catch_return, Service.recognize.
  rewrite (bind_Return _ _ _ _ _ (eq_refl : get_modelsLoaded w = (Return (modelsLoaded w), w))).
  assert (L : modelsLoaded w = false).
  { unfold initializes in I. apply orb_false_iff in I. tauto. }
  rewrite L. simpl negb. cbv iota.
  rewrite (bind_Throw _ _ _ _ _ (initialize_fails _ _ I)).
  reflexivity.
Qed.

(** Blank image data. *)
Lemma recognizeFace_blank (env : Env) (img : jsstring)
    (n r : option jsstring) (w : World) :
  initializes env w = true -> blank img = true ->
  Service.recognizeFace env img n r w = (Service.no_image_data, initialized w).
Proof.
  intros I B. unfold Service.recognizeFace, try_catch_return, Service.recognize.
  rewrite (bind_Return _ _ _ _ _ (eq_refl : get_modelsLoaded w = (Return (modelsLoaded w), w))).
  rewrite (bind_Return _ _ _ _ _ (ensure_initialized _ _ I)).
  rewrite validation_blank, B. reflexivity.
Qed.

(** Image data given, service initialised: the call is decided by the
    detections. *)
Lemma recognizeFace_detect (env : Env) (img : jsstring)
    (n r : option jsstring) (w : World) :
  initializes env w = true -> blank img = false ->
  Service.recognizeFace env img n r w
  = try_catch_return
      (match detections env with
       | [] => ret Service.no_faces
       | face :: _ => Service.resolve env face n r
       end)
      Service.recognition_failed (detected_world img w).
Proof.
  intros I B. unfold Service.recognizeFace, try_catch_return, Service.recognize.
  rewrite (bind_Return _ _ _ _ _ (eq_refl : get_modelsLoaded w = (Return (modelsLoaded w), w))).
  rewrite (bind_Return _ _ _ _ _ (ensure_initialized _ _ I)).
  rewrite validation_blank, B.
  rewrite (bind_Return _ _ _ _ _
             (await_run _ _ _ _ (detectFaces_run env (Buffer_from_base64 img)
                               (initialized w) (initialized_loaded w)))).
  rewrite initialized_faces. reflexivity.
Qed.

Lemma resolve_found (env : Env) (face : FaceDetection.t)
    (n r : option jsstring) (w : World) (p : MatchedFace.t) :
  identified env (faces w) (FaceDetection.embedding face) = Some p ->
  Service.resolve env face n r w
  = (Return (Service.found p), queried (FaceDetection.embedding face) w).
Proof.
  intros H. unfold Service.resolve.
  rewrite (bind_Return _ _ _ _ _ (await_run _ _ _ _ (identifyFace_run env _ w))).
  rewrite H. reflexivity.
Qed.

Lemma resolve_unmatched (env : Env) (face : FaceDetection.t)
    (n r : option jsstring) (w : World) :
  identified env (faces w) (FaceDetection.embedding face) = None ->
  truthy n && truthy r = false ->
  Service.resolve env face n r w
  = (Return (Service.unmatched face), queried (FaceDetection.embedding face) w).
Proof.
  intros H T. unfold Service.resolve.
  rewrite (bind_Return _ _ _ _ _ (await_run _ _ _ _ (identifyFace_run env _ w))).
  rewrite H.
  destruct n as [name|]; [|reflexivity].
  destruct r as [relationship|]; [|reflexivity].
  simpl in T. rewrite T. reflexivity.
Qed.

Lemma resolve_create (env : Env) (face : FaceDetection.t)
    (name relationship : jsstring) (w : World) :
  identified env (faces w) (FaceDetection.embedding face) = None ->
  falsy name = false -> falsy relationship = false ->
  Service.resolve env face (Some name) (Some relationship) w
  = let a := added env (faces w) (new_person env face name relationship) in
    (Return match fst a with
            | Some newFace => Service.added_new newFace
            | None => Service.unmatched face
            end,
     mkWorld (modelsLoaded w) (snd a)
       (calls w ++ [RpcMatchFaces (FaceDetection.embedding face) (7 # 10) 1;
                    InsertFaces (new_person env face name relationship)])).
Proof.
  intros H N R. unfold Service.resolve.
  rewrite (bind_Return _ _ _ _ _ (await_run _ _ _ _ (identifyFace_run env _ w))).
  rewrite H, N, R. change (negb false && negb false) with true. cbv iota.
  rewrite (bind_Return _ _ _ _ _ (await_run _ _ _ _ (addFace_run env _ _))).
  fold (new_person env face name relationship).
  cbv zeta. cbn [faces modelsLoaded calls].
  rewrite <- app_assoc. cbn [app].
  destruct (fst (added env (faces w) (new_person env face name relationship)));
    reflexivity.
Qed.

(** ** The nearest-record query *)

Lemma scored_In (env : Env) (tbl : Db.table) (q : embedding) (c : Db.Candidate) :
  In c (Db.scored (cosine_distance env) (reaches env) tbl q) <->
  exists r e, In r tbl /\ FaceRecord.face_embedding r = Some e
              /\ reaches env r = true
              /\ c = Db.mkCandidate r e (cosine_distance env e q).
Proof.
  induction tbl as [|a tbl IH]; simpl.
  - split; [tauto|]. intros (r & e & [] & _).
  - destruct (FaceRecord.face_embedding a) as [ea|] eqn:E.
    + destruct (reaches env a) eqn:V; simpl; rewrite IH; split.
      * intros [<-|(r & e & I & F & W & ->)].
        -- exists a, ea. auto.
        -- exists r, e. auto.
      * intros (r & e & [<-|I] & F & W & ->).
        -- left. rewrite E in F. injection F as <-. reflexivity.
        -- right. exists r, e. auto.
      * intros (r & e & I & F & W & ->). exists r, e. auto.
      * intros (r & e & [<-|I] & F & W & ->).
        -- congruence.
        -- exists r, e. auto.
    + rewrite IH; split.
      * intros (r & e & I & F & W & ->). exists r, e. auto.
      * intros (r & e & [<-|I] & F & W & ->).
        -- congruence.
        -- exists r, e. auto.
Qed.

(** The row of the result that comes from a record. *)
Lemma selected_row (env : Env) (r : FaceRecord.t) (e q : embedding) :
  Db.selected (Db.mkCandidate r e (cosine_distance env e q)) = matched_row env r e q.
Proof. reflexivity. Qed.

Lemma below_not_gt (env : Env) (e d : embedding) (t : Q) :
  similarity_below env e d t ->
  Float8.gt (similarity env e d) (Float8.of_Q t) = false.
Proof.
  unfold similarity_below, similarity_cmp, Float8.gt. intros ->. reflexivity.
Qed.

Lemma equal_not_gt (env : Env) (e d : embedding) (t : Q) :
  similarity_equal env e d t ->
  Float8.gt (similarity env e d) (Float8.of_Q t) = false.
Proof.
  unfold similarity_equal, similarity_cmp, Float8.gt. intros ->. reflexivity.
Qed.

Lemma above_gt (env : Env) (e d : embedding) (t : Q) :
  similarity_above env e d t <->
  Float8.gt (similarity env e d) (Float8.of_Q t) = true.
Proof.
  unfold similarity_above, similarity_cmp, Float8.gt.
  destruct (Float8.compare _ _); split; congruence.
Qed.






Lemma insert_sorted_In (x y : Db.Candidate) (l : list Db.Candidate) :
  In y (Db.insert_sorted x l) <-> y = x \/ In y l.
Proof.
  induction l as [|a l IH]; simpl.
  - intuition congruence.
  - destruct (Float8.lt (Db.distance a) (Db.distance x)); simpl.
    + rewrite IH. intuition congruence.
    + intuition congruence.
Qed.

Lemma order_by_distance_In (y : Db.Candidate) (l : list Db.Candidate) :
  In y (Db.order_by_distance l) <-> In y l.
Proof.
  induction l as [|a l IH]; simpl.
  - tauto.
  - rewrite insert_sorted_In, IH. intuition congruence.
Qed.

(** A row strictly closer than every other row comes first. *)
Lemma order_by_distance_head (x : Db.Candidate) (l : list Db.Candidate) :
  In x l ->
  (forall y, In y l ->
     y = x \/ Float8.lt (Db.distance x) (Db.distance y) = true) ->
  exists rest, Db.order_by_distance l = x :: rest.
Proof.
  induction l as [|a l IH]; simpl; [tauto|].
  intros I H.
  destruct (H a (or_introl eq_refl)) as [->|C].
  - (* the head of the list is the row itself *)
    destruct (Db.order_by_distance l) as [|y rest] eqn:O; simpl.
    + exists []. reflexivity.
    + assert (Iy : In y l).
      { apply order_by_distance_In. rewrite O. left. reflexivity. }
      destruct (H y (or_intror Iy)) as [->|Cy].
      * rewrite lt_irrefl. eexists. reflexivity.
      * rewrite (lt_asym _ _ Cy). eexists. reflexivity.
  - destruct I as [->|I].
    + rewrite lt_irrefl in C. discriminate.
    + destruct (IH I (fun y Iy => H y (or_intror Iy))) as [rest ->].
      simpl. rewrite C. eexists. reflexivity.
Qed.

Lemma FaceRecord_eq_dec (a b : FaceRecord.t) : {a = b} + {a <> b}.
Proof. repeat decide equality. Qed.

(** A record the query reads, above the threshold and strictly nearest
    to the descriptor among the records it reads, is the one the query
    returns. *)
Lemma answer_nearest (env : Env) (tbl : Db.table) (d : embedding) (t : Q)
    (r : FaceRecord.t) (e : embedding) :
  Db.dimensions_agree tbl d = true ->
  In r tbl -> FaceRecord.face_embedding r = Some e ->
  reaches env r = true ->
  similarity_above env e d t ->
  (forall r' e', In r' tbl -> r' <> r -> reaches env r' = true ->
                 FaceRecord.face_embedding r' = Some e' ->
                 strictly_nearer env e e' d) ->
  answer env tbl d t 1 = Some [matched_row env r e d].
Proof.
  intros D I E V A N. unfold answer, Db.match_faces. rewrite D.
  set (l := filter _ _).
  destruct (order_by_distance_head (Db.mkCandidate r e (cosine_distance env e d)) l)
    as [rest ->].
  - apply filter_In. split.
    + apply scored_In. exists r, e. auto.
    + apply above_gt. exact A.
  - intros y Iy. apply filter_In in Iy. destruct Iy as [Iy _].
    apply scored_In in Iy. destruct Iy as (r' & e' & I' & E' & V' & ->).
    destruct (FaceRecord_eq_dec r' r) as [->|Ne].
    + left. rewrite E in E'. injection E' as <-. reflexivity.
    + right. simpl. exact (N r' e' I' Ne V' E').
  - reflexivity.
Qed.

Lemma firstn_subset {A} (k : nat) (l : list A) (x : A) :
  In x (firstn k l) -> In x l.
Proof.
  intros H. rewrite <- (firstn_skipn k l). apply in_or_app. left. exact H.
Qed.

(** Every row the query returns comes from a record it read that passed
    its [WHERE] clause. *)
Lemma answer_selected (env : Env) (tbl : Db.table) (d : embedding) (t : Q)
    (k : nat) (rows : list MatchedFace.t) (m : MatchedFace.t) :
  answer env tbl d t k = Some rows -> In m rows ->
  exists r e,
    In r tbl /\ FaceRecord.face_embedding r = Some e /\ reaches env r = true
    /\ m = matched_row env r e d
    /\ Float8.gt (similarity env e d) (Float8.of_Q t) = true.
Proof.
  unfold answer, Db.match_faces. destruct (Db.dimensions_agree tbl d); [|discriminate].
  intros H I. injection H as <-.
  apply in_map_iff in I. destruct I as (c & <- & I).
  apply firstn_subset in I. apply (proj1 (order_by_distance_In _ _)) in I.
  apply filter_In in I. destruct I as [I G].
  apply scored_In in I. destruct I as (r & e & I & E & V & ->).
  exists r, e. repeat split; assumption.
Qed.

(** When a record the query reads passes the [WHERE] clause, the query
    returns a row. *)
Lemma answer_some (env : Env) (tbl : Db.table) (d : embedding) (t : Q) (k : nat)
    (r : FaceRecord.t) (e : embedding) :
  Db.dimensions_agree tbl d = true ->
  In r tbl -> FaceRecord.face_embedding r = Some e ->
  reaches env r = true ->
  similarity_above env e d t ->
  exists first rest, answer env tbl d t (S k) = Some (first :: rest).
Proof.
  intros D I E V A. unfold answer, Db.match_faces. rewrite D.
  set (l := filter _ _).
  assert (Il : In (Db.mkCandidate r e (cosine_distance env e d)) l).
  { apply filter_In. split.
    - apply scored_In. exists r, e. auto.
    - apply above_gt. exact A. }
  apply order_by_distance_In in Il.
  destruct (Db.order_by_distance l) as [|c rest]; [destruct Il|].
  simpl. eexists. eexists. reflexivity.
Qed.

(** The answer depends on the table, the descriptor, the distances and
    the rows read, and on nothing else of the call. *)
Lemma scored_ext (env1 env2 : Env) (tbl : Db.table) (d : embedding) :
  (forall e, cosine_distance env2 e d = cosine_distance env1 e d) ->
  (forall r, In r tbl -> reaches env2 r = reaches env1 r) ->
  Db.scored (cosine_distance env2) (reaches env2) tbl d
  = Db.scored (cosine_distance env1) (reaches env1) tbl d.
Proof.
  intros Hd Hr. induction tbl as [|a tbl IH]; simpl; [reflexivity|].
  rewrite IH by (intros r I; apply Hr; right; exact I).
  rewrite (Hr a (or_introl eq_refl)).
  destruct (FaceRecord.face_embedding a) as [e|]; [|reflexivity].
  rewrite Hd. reflexivity.
Qed.

Lemma identified_ext (env1 env2 : Env) (tbl : Db.table) (d : embedding) :
  rpc_answers env2 = rpc_answers env1 ->
  (forall e, cosine_distance env2 e d = cosine_distance env1 e d) ->
  (forall r, In r tbl -> reaches env2 r = reaches env1 r) ->
  identified env2 tbl d = identified env1 tbl d.
Proof.
  intros Q Hd Hr. unfold identified, answer, Db.match_faces.
  rewrite Q, (scored_ext env1 env2 tbl d Hd Hr). reflexivity.
Qed.

(** ** The paths of [recognizeFace] *)

Lemma recognizeFace_no_faces (env : Env) (img : jsstring)
    (n r : option jsstring) (w : World) :
  initializes env w = true -> blank img = false ->
  detections env = [] ->
  Service.recognizeFace env img n r w = (Service.no_faces, detected_world img w).
Proof.
  intros I B D. rewrite (recognizeFace_detect env img n r w I B), D. reflexivity.
Qed.

Lemma recognizeFace_found (env : Env) (img : jsstring)
    (n r : option jsstring) (w : World)
    (face : FaceDetection.t) (others : list FaceDetection.t) (p : MatchedFace.t) :
  initializes env w = true -> blank img = false ->
  detections env = face :: others ->
  identified env (faces w) (FaceDetection.embedding face) = Some p ->
  Service.recognizeFace env img n r w
  = (Service.found p,
     queried (FaceDetection.embedding face) (detected_world img w)).
Proof.
  intros I B D P. rewrite (recognizeFace_detect env img n r w I B), D.
  unfold try_catch_return.
  rewrite (resolve_found env face n r (detected_world img w) p P). reflexivity.
Qed.

Lemma recognizeFace_unmatched (env : Env) (img : jsstring)
    (n r : option jsstring) (w : World)
    (face : FaceDetection.t) (others : list FaceDetection.t) :
  initializes env w = true -> blank img = false ->
  detections env = face :: others ->
  identified env (faces w) (FaceDetection.embedding face) = None ->
  truthy n && truthy r = false ->
  Service.recognizeFace env img n r w
  = (Service.unmatched face,
     queried (FaceDetection.embedding face) (detected_world img w)).
Proof.
  intros I B D P T. rewrite (recognizeFace_detect env img n r w I B), D.
  unfold try_catch_return.
  rewrite (resolve_unmatched env face n r (detected_world img w) P T). reflexivity.
Qed.

Lemma recognizeFace_create (env : Env) (img : jsstring)
    (name relationship : jsstring) (w : World)
    (face : FaceDetection.t) (others : list FaceDetection.t) :
  initializes env w = true -> blank img = false ->
  detections env = face :: others ->
  identified env (faces w) (FaceDetection.embedding face) = None ->
  falsy name = false -> falsy relationship = false ->
  Service.recognizeFace env img (Some name) (Some relationship) w
  = (match fst (added env (faces w) (new_person env face name relationship)) with
     | Some newFace => Service.added_new newFace
     | None => Service.unmatched face
     end,
     inserted env face name relationship (detected_world img w)).
Proof.
  intros I B D P N R.
  rewrite (recognizeFace_detect env img (Some name) (Some relationship) w I B), D.
  unfold try_catch_return.
  rewrite (resolve_create env face name relationship (detected_world img w) P N R).
  reflexivity.
Qed.

Lemma recognizeFace_path (env : Env) (img : jsstring) (n r : option jsstring) (w : World) :
  Path env img n r w (Service.recognizeFace env img n r w).
Proof.
  destruct (initializes env w) eqn:I.
  2: { rewrite (recognizeFace_failed env img n r w I). apply PathFailed. exact I. }
  destruct (blank img) eqn:B.
  { rewrite (recognizeFace_blank env img n r w I B). apply PathBlank; assumption. }
  destruct (detections env) as [|face others] eqn:D.
  { rewrite (recognizeFace_no_faces env img n r w I B D). apply PathNoFaces; assumption. }
  destruct (identified env (faces w) (FaceDetection.embedding face)) as [p|] eqn:P.
  { rewrite (recognizeFace_found env img n r w face others p I B D P).
    eapply PathFound; eassumption. }
  destruct (truthy n && truthy r) eqn:T.
  2: { rewrite (recognizeFace_unmatched env img n r w face others I B D P T).
       eapply PathUnmatched; eassumption. }
  destruct n as [name|]; [|discriminate].
  destruct r as [relationship|]; [|simpl in T; rewrite andb_false_r in T; discriminate].
  simpl in T. apply andb_true_iff in T. destruct T as [N R].
  apply negb_true_iff in N. apply negb_true_iff in R.
  rewrite (recognizeFace_create env img name relationship w face others I B D P N R).
  eapply PathCreate; eauto.
Qed.

(** ** No face in the image *)

(** C3: when the detection service finds no face in the image,
    [recognizeFace] returns, without throwing, a result with
    [success: false] and the message "No faces detected in the image";
    the table is left as it was. *)
Theorem no_faces_detected_is_a_failure_result
    (env : Env) (img : jsstring) (n r : option jsstring) (w : World) :
  initializes env w = true -> blank img = false ->
  detected env = Some [] ->
  let result := fst (Service.recognizeFace env img n r w) in
  FaceRecognitionResult.success result = false
  /\ FaceRecognitionResult.message result = str "No faces detected in the image"
  /\ faces (snd (Service.recognizeFace env img n r w)) = faces w.
Proof.
  intros I B D.
  assert (E : detections env = []) by (unfold detections; rewrite D; reflexivity).
  rewrite (recognizeFace_no_faces env img n r w I B E).
  repeat split.
Qed.

Lemma no_faces_detected_is_a_failure_result_witness :
  let result := fst (Service.recognizeFace (Sample.env []) Sample.image None None
                       (Sample.world [Sample.ana])) in
  FaceRecognitionResult.success result = false
  /\ FaceRecognitionResult.message result = str "No faces detected in the image"
  /\ faces (snd (Service.recognizeFace (Sample.env []) Sample.image None None
                   (Sample.world [Sample.ana]))) = [Sample.ana].
Proof.
  apply (no_faces_detected_is_a_failure_result (Sample.env []) Sample.image
           None None (Sample.world [Sample.ana])); reflexivity.
Defined.

Lemma detections_first (env : Env) (pf : PyFace.t) (rest : list PyFace.t) :
  detected env = Some (pf :: rest) ->
  detections env
  = Service.to_FaceDetection pf :: map Service.to_FaceDetection rest.
Proof. intros D. unfold detections. rewrite D. reflexivity. Qed.

(** ** Below the threshold, nothing to register *)



(** ** Blank image data *)

(** C10, as stated, fails when the service object is not initialised
    and the health check does not answer: the check comes before the
    validation, and the call ends in the [catch] clause. *)
Lemma blank_image_counterexample :
  blank (str "   ") = true
  /\ Service.recognizeFace Sample.env_service_down (str "   ") None None
       (Sample.world [])
     = (FaceRecognitionResult.mk false None None None None
          (str "Cannot connect to Python face recognition service - is it running?")
          (Some (str "Python face recognition service could not be initialized: fetch failed")),
        mkWorld false [] [FetchHealth])
  /\ fst (Service.recognizeFace Sample.env_service_down (str "   ") None None
            (Sample.world []))
     <> Service.no_image_data.
Proof.
  split; [reflexivity|]. split; [reflexivity|]. vm_compute. discriminate.
Qed.

(** C10, amended: on a service object that is initialised already, or
    whose health check answers with success, blank image data gives the
    result "No image data provided" / "Empty image data"; nothing is
    asked of the detection service or of the store beyond that health
    check, and the table is unchanged. *)
Theorem blank_image_rejected
    (env : Env) (img : jsstring) (n r : option jsstring) (w : World) :
  initializes env w = true -> blank img = true ->
  let run := Service.recognizeFace env img n r w in
  fst run = FaceRecognitionResult.mk false None None None None
              (str "No image data provided") (Some (str "Empty image data"))
  /\ faces (snd run) = faces w
  /\ calls (snd run) = calls w ++ (if modelsLoaded w then [] else [FetchHealth]).
Proof.
  intros I B. rewrite (recognizeFace_blank env img n r w I B).
  split; [reflexivity|]. split; [apply initialized_faces|].
  unfold initialized. destruct (modelsLoaded w); simpl; [|reflexivity].
  rewrite app_nil_r. reflexivity.
Qed.

Lemma blank_image_rejected_witness :
  let run := Service.recognizeFace (Sample.env [Sample.face Sample.d1])
               (str "   ") (Some (str "Ana")) (Some (str "Daughter"))
               (Sample.world [Sample.eva]) in
  fst run = FaceRecognitionResult.mk false None None None None
              (str "No image data provided") (Some (str "Empty image data"))
  /\ faces (snd run) = [Sample.eva]
  /\ calls (snd run) = [FetchHealth].
Proof.
  apply (blank_image_rejected (Sample.env [Sample.face Sample.d1]) (str "   ")
           (Some (str "Ana")) (Some (str "Daughter")) (Sample.world [Sample.eva]));
    reflexivity.
Defined.

(** ** The datastore does not answer *)


(** What [addFace] yields and leaves: a row at the end of the table, or
    the table as it was. *)
Lemma added_cases (env : Env) (tbl : Db.table) (d : FaceInsert.t) :
  match fst (added env tbl d) with
  | Some row => snd (added env tbl d) = tbl ++ [row]
  | None => snd (added env tbl d) = tbl
  end.
Proof.
  unfold added. destruct (insert_answers env); [|reflexivity].
  destruct (Db.insert (new_id env) (now env) d tbl) as [[row tbl']|] eqn:E;
    [|reflexivity].
  cbn [fst snd]. unfold Db.insert in E.
  destruct (Db.varchar 255 (FaceInsert.name d)); [|discriminate].
  destruct (Db.varchar 255 (FaceInsert.relationship d)); [|discriminate].
  destruct (Db.varchar 50 _); [|discriminate].
  destruct (_ && _); [|discriminate].
  injection E as <- <-. reflexivity.
Qed.



(** ** The bound of the threshold *)

(** C4, as stated, fails: a stored record whose similarity to the
    descriptor the database computes as exactly 0.7 is not returned by
    the query, and the call ends unmatched. *)
Lemma threshold_inclusive_counterexample :
  let env := Sample.env [Sample.face Sample.d1] in
  similarity_equal env Sample.at_07 Sample.d1 (7 # 10)
  /\ answer env [Sample.ben] Sample.d1 (7 # 10) 1 = Some []
  /\ fst (Service.recognizeFace env Sample.image None None (Sample.world [Sample.ben]))
     = Service.unmatched (Service.to_FaceDetection (Sample.face Sample.d1)).
Proof.
  cbv zeta. split; [vm_compute; reflexivity|]. split; vm_compute; reflexivity.
Qed.

(** C4, amended: the bound is exclusive. A stored record whose
    similarity to the descriptor the database computes as exactly the
    threshold is never among the rows the nearest-record query returns;
    every row it returns has a similarity that compares strictly above
    the threshold, in the order of PostgreSQL on [float8], where a NaN
    is above every number. *)
Theorem threshold_is_exclusive
    (env : Env) (tbl : Db.table) (d : embedding) (t : Q) (k : nat)
    (rows : list MatchedFace.t) :
  answer env tbl d t k = Some rows ->
  (forall r e, In r tbl -> FaceRecord.face_embedding r = Some e ->
     similarity_equal env e d t -> ~ In (matched_row env r e d) rows)
  /\ (forall m, In m rows ->
        Float8.compare (MatchedFace.similarity m) (Float8.of_Q t) = Gt).
Proof.
  intros M. split.
  - intros r e I E S H.
    destruct (answer_selected env tbl d t k rows _ M H)
      as (r' & e' & _ & _ & _ & Eq & G).
    assert (Ee : e = e').
    { change e with (MatchedFace.face_embedding (matched_row env r e d)).
      rewrite Eq. reflexivity. }
    subst e'. rewrite (equal_not_gt env e d t S) in G. discriminate.
  - intros m H.
    destruct (answer_selected env tbl d t k rows _ M H)
      as (r' & e' & _ & _ & _ & -> & G).
    apply above_gt in G. exact G.
Qed.

Lemma threshold_is_exclusive_witness :
  let env := Sample.env [Sample.face Sample.d1] in
  let rows := [matched_row env Sample.ana Sample.at_08 Sample.d1] in
  (forall r e, In r [Sample.ana; Sample.ben] -> FaceRecord.face_embedding r = Some e ->
     similarity_equal env e Sample.d1 (7 # 10) ->
     ~ In (matched_row env r e Sample.d1) rows)
  /\ (forall m, In m rows ->
        Float8.compare (MatchedFace.similarity m) (Float8.of_Q (7 # 10)) = Gt).
Proof.
  apply (threshold_is_exclusive (Sample.env [Sample.face Sample.d1])
           [Sample.ana; Sample.ben] Sample.d1 (7 # 10) 1
           [matched_row (Sample.env [Sample.face Sample.d1])
              Sample.ana Sample.at_08 Sample.d1]).
  vm_compute. reflexivity.
Defined.

(** ** Several faces in one image *)

Lemma resolve_reporting (env : Env) (fs : list PyFace.t) (face : FaceDetection.t)
    (n r : option jsstring) :
  Service.resolve (reporting env fs) face n r = Service.resolve env face n r.
Proof. reflexivity. Qed.

(** The run does not depend on the faces after the first one. *)
Lemma recognizeFace_first_only (env : Env) (img : jsstring)
    (n r : option jsstring) (w : World) (pf : PyFace.t) (rest : list PyFace.t) :
  detected env = Some (pf :: rest) ->
  Service.recognizeFace env img n r w
  = Service.recognizeFace (reporting env [pf]) img n r w.
Proof.
  intros D.
  destruct (initializes env w) eqn:I.
  - destruct (blank img) eqn:B.
    + rewrite (recognizeFace_blank env img n r w I B).
      rewrite (recognizeFace_blank (reporting env [pf]) img n r w I B).
      reflexivity.
    + rewrite (recognizeFace_detect env img n r w I B).
      rewrite (recognizeFace_detect (reporting env [pf]) img n r w I B).
      rewrite (detections_first env pf rest D). reflexivity.
  - rewrite (recognizeFace_failed env img n r w I).
    rewrite (recognizeFace_failed (reporting env [pf]) img n r w I).
    reflexivity.
Qed.

(** The calls a run adds, and the rows it adds, are about the first
    face. *)
Lemma recognizeFace_calls (env : Env) (img : jsstring)
    (n r : option jsstring) (w : World) (pf : PyFace.t) (rest : list PyFace.t) :
  detected env = Some (pf :: rest) ->
  exists new,
    calls (snd (Service.recognizeFace env img n r w)) = calls w ++ new
    /\ Forall (carries (PyFace.encoding pf)) new.
Proof.
  intros D. pose proof (detections_first env pf rest D) as F.
  destruct (recognizeFace_path env img n r w)
    as [I | I B | I B E | face others p I B E P | face others I B E P T
        | face others name relationship I B E P -> -> N R]; cbn [snd].
  - exists [FetchHealth]. split; [reflexivity|]. repeat constructor.
  - exists (if modelsLoaded w then [] else [FetchHealth]). split.
    + unfold initialized. destruct (modelsLoaded w); simpl; [|reflexivity].
      symmetry. apply app_nil_r.
    + destruct (modelsLoaded w); repeat constructor.
  - exists ((if modelsLoaded w then [] else [FetchHealth])
            ++ [FetchDetect (Buffer_from_base64 img)]). split.
    + unfold detected_world, initialized.
      destruct (modelsLoaded w); simpl; rewrite <- ?app_assoc; reflexivity.
    + destruct (modelsLoaded w); repeat constructor.
  - rewrite F in E. injection E as <- _.
    exists ((if modelsLoaded w then [] else [FetchHealth])
            ++ [FetchDetect (Buffer_from_base64 img);
                RpcMatchFaces (PyFace.encoding pf) (7 # 10) 1]). split.
    + unfold queried, detected_world, initialized.
      destruct (modelsLoaded w); simpl; rewrite <- ?app_assoc; reflexivity.
    + destruct (modelsLoaded w); repeat constructor.
  - rewrite F in E. injection E as <- _.
    exists ((if modelsLoaded w then [] else [FetchHealth])
            ++ [FetchDetect (Buffer_from_base64 img);
                RpcMatchFaces (PyFace.encoding pf) (7 # 10) 1]). split.
    + unfold queried, detected_world, initialized.
      destruct (modelsLoaded w); simpl; rewrite <- ?app_assoc; reflexivity.
    + destruct (modelsLoaded w); repeat constructor.
  - rewrite F in E. injection E as <- _.
    exists ((if modelsLoaded w then [] else [FetchHealth])
            ++ [FetchDetect (Buffer_from_base64 img);
                RpcMatchFaces (PyFace.encoding pf) (7 # 10) 1;
                InsertFaces (new_person env (Service.to_FaceDetection pf)
                               name relationship)]). split.
    + unfold inserted, detected_world, initialized.
      destruct (modelsLoaded w); simpl; rewrite <- ?app_assoc; reflexivity.
    + destruct (modelsLoaded w); repeat constructor.
Qed.

(** C9: when the detection service reports one or more faces, only the
    first one is used. The result, the table and the calls made are
    those of an image in which the first face is alone, and every call
    to the datastore, query or insert, carries the descriptor of the
    first face. *)
Theorem only_the_first_face_is_resolved
    (env : Env) (img : jsstring) (n r : option jsstring) (w : World)
    (pf : PyFace.t) (rest : list PyFace.t) :
  detected env = Some (pf :: rest) ->
  Service.recognizeFace env img n r w
  = Service.recognizeFace (reporting env [pf]) img n r w
  /\ exists new,
       calls (snd (Service.recognizeFace env img n r w)) = calls w ++ new
       /\ Forall (carries (PyFace.encoding pf)) new.
Proof.
  intros D. split.
  - exact (recognizeFace_first_only env img n r w pf rest D).
  - exact (recognizeFace_calls env img n r w pf rest D).
Qed.

Lemma only_the_first_face_is_resolved_witness :
  Service.recognizeFace (Sample.env [Sample.face Sample.d1; Sample.face Sample.d2])
    Sample.image None None (Sample.world [Sample.ana])
  = Service.recognizeFace
      (reporting (Sample.env [Sample.face Sample.d1; Sample.face Sample.d2])
         [Sample.face Sample.d1])
      Sample.image None None (Sample.world [Sample.ana])
  /\ exists new,
       calls (snd (Service.recognizeFace
                     (Sample.env [Sample.face Sample.d1; Sample.face Sample.d2])
                     Sample.image None None (Sample.world [Sample.ana])))
       = calls (Sample.world [Sample.ana]) ++ new
       /\ Forall (carries (PyFace.encoding (Sample.face Sample.d1))) new.
Proof.
  apply (only_the_first_face_is_resolved
           (Sample.env [Sample.face Sample.d1; Sample.face Sample.d2])
           Sample.image None None (Sample.world [Sample.ana])
           (Sample.face Sample.d1) [Sample.face Sample.d2]).
  reflexivity.
Defined.

(** ** A record above the threshold *)

(** No response of the tool has an [is_new_person] member. *)
Lemma no_is_new_person (r : FaceRecognitionResult.t) :
  Json.member "is_new_person" (Json.stringify r) = None.
Proof.
  destruct r as [s p rel c col m e]. unfold Json.member, Json.stringify. simpl.
  destruct p, rel, c, col, e; reflexivity.
Qed.

Lemma identified_nearest (env : Env) (tbl : Db.table) (d : embedding)
    (r : FaceRecord.t) (e : embedding) :
  rpc_answers env = true ->
  Db.dimensions_agree tbl d = true ->
  In r tbl -> FaceRecord.face_embedding r = Some e ->
  reaches env r = true ->
  similarity_above env e d (7 # 10) ->
  (forall r' e', In r' tbl -> r' <> r -> reaches env r' = true ->
                 FaceRecord.face_embedding r' = Some e' ->
                 strictly_nearer env e e' d) ->
  identified env tbl d = Some (matched_row env r e d).
Proof.
  intros Q D I E V A N. unfold identified. rewrite Q.
  rewrite (answer_nearest env tbl d (7 # 10) r e D I E V A N). reflexivity.
Qed.

(** C1, amended: a descriptor resolves to a stored record when the
    database computes its similarity to the record as strictly above
    0.7, and its distance to the record as strictly less than its
    distance to every other record the query reads: the result has
    [success: true] and the record's name, relationship and colour, with
    the fixed confidence 0.8; the table is unchanged. The store answers
    the query, the plan of the query reads the record, and the stored
    vectors have the dimension of the descriptor. The response has no
    [is_new_person] member. *)
Theorem nearest_record_above_threshold_is_returned
    (env : Env) (img : jsstring) (n r : option jsstring) (w : World)
    (pf : PyFace.t) (rest : list PyFace.t) (rec : FaceRecord.t) (e : embedding) :
  initializes env w = true -> blank img = false ->
  detected env = Some (pf :: rest) ->
  rpc_answers env = true ->
  Db.dimensions_agree (faces w) (PyFace.encoding pf) = true ->
  In rec (faces w) -> FaceRecord.face_embedding rec = Some e ->
  reaches env rec = true ->
  similarity_above env e (PyFace.encoding pf) (7 # 10) ->
  (forall r' e', In r' (faces w) -> r' <> rec -> reaches env r' = true ->
                 FaceRecord.face_embedding r' = Some e' ->
                 strictly_nearer env e e' (PyFace.encoding pf)) ->
  let run := Service.recognizeFace env img n r w in
  FaceRecognitionResult.success (fst run) = true
  /\ FaceRecognitionResult.person (fst run) = Some (FaceRecord.name rec)
  /\ FaceRecognitionResult.relationship (fst run) = Some (FaceRecord.relationship rec)
  /\ FaceRecognitionResult.color (fst run) = Some (FaceRecord.color rec)
  /\ FaceRecognitionResult.confidence (fst run) = Some (8 # 10)
  /\ faces (snd run) = faces w
  /\ Json.member "is_new_person" (Json.stringify (fst run)) = None.
Proof.
  intros I B D Q G In_rec E V A N.
  rewrite (recognizeFace_found env img n r w _ _ _ I B
             (detections_first env pf rest D)
             (identified_nearest env (faces w) _ rec e Q G In_rec E V A N)).
  repeat split.
Qed.

Lemma nearest_record_above_threshold_is_returned_witness :
  let run := Service.recognizeFace (Sample.env [Sample.face Sample.d1])
               Sample.image None None (Sample.world [Sample.eva; Sample.ana]) in
  FaceRecognitionResult.success (fst run) = true
  /\ FaceRecognitionResult.person (fst run) = Some (str "Ana")
  /\ FaceRecognitionResult.relationship (fst run) = Some (str "Daughter")
  /\ FaceRecognitionResult.color (fst run) = Some (str "#4ECDC4")
  /\ FaceRecognitionResult.confidence (fst run) = Some (8 # 10)
  /\ faces (snd run) = [Sample.eva; Sample.ana]
  /\ Json.member "is_new_person" (Json.stringify (fst run)) = None.
Proof.
  apply (nearest_record_above_threshold_is_returned
           (Sample.env [Sample.face Sample.d1]) Sample.image None None
           (Sample.world [Sample.eva; Sample.ana])
           (Sample.face Sample.d1) [] Sample.ana Sample.at_08).
  - reflexivity.
  - reflexivity.
  - reflexivity.
  - reflexivity.
  - vm_compute. reflexivity.
  - right. left. reflexivity.
  - reflexivity.
  - reflexivity.
  - vm_compute. reflexivity.
  - intros r' e' [<-|[<-|[]]] Ne _ E.
    + injection E as <-. vm_compute. reflexivity.
    + exfalso. apply Ne. reflexivity.
Defined.

(** C1, as stated, fails in three ways. A record whose similarity the
    database computes as exactly 0.7, alone in the table, is not
    matched. Of two records at the same distance, above the threshold,
    neither has another record closer, and only one of them is
    returned. And the response of a match has no [is_new_person]
    member. *)
Lemma match_at_least_threshold_counterexample :
  let env := Sample.env [Sample.face Sample.d1] in
  (similarity_at_least env Sample.at_07 Sample.d1 (7 # 10)
   /\ FaceRecognitionResult.success
        (fst (Service.recognizeFace env Sample.image None None
                (Sample.world [Sample.ben]))) = false)
  /\ (similarity_at_least env Sample.at_08 Sample.d1 (7 # 10)
      /\ Float8.lt (cosine_distance env Sample.at_08 Sample.d1)
                   (cosine_distance env Sample.at_08 Sample.d1) = false
      /\ FaceRecognitionResult.person
           (fst (Service.recognizeFace env Sample.image None None
                   (Sample.world [Sample.ana; Sample.zoe])))
         <> Some (FaceRecord.name Sample.zoe))
  /\ (FaceRecognitionResult.success
        (fst (Service.recognizeFace env Sample.image None None
                (Sample.world [Sample.ana]))) = true
      /\ Json.member "is_new_person"
           (fst (handleFaceRecognition env (Sample.args None None)
                   (Sample.world [Sample.ana])))
         <> Some (Json.Boolean false)).
Proof.
  cbv zeta. split; [split|split].
  - right. vm_compute. reflexivity.
  - vm_compute. reflexivity.
  - split; [left; vm_compute; reflexivity|].
    split; [vm_compute; reflexivity|]. vm_compute. discriminate.
  - split; [vm_compute; reflexivity|]. vm_compute. discriminate.
Qed.

(** The database does not compute the cosine exactly. The cosine of
    [at_07] and [d3] is 0.7 like that of [at_07] and [d1]; the
    extension of the examples computes a similarity above 0.7 for [d3],
    and the record is matched. And a plan that scans the index can miss
    the nearest record: Ana is nearer than Ben, and Ben is returned. *)
Example rounding_and_index :
  similarity_above (Sample.env [Sample.face Sample.d3]) Sample.at_07 Sample.d3 (7 # 10)
  /\ FaceRecognitionResult.person
       (fst (Service.recognizeFace (Sample.env [Sample.face Sample.d3])
               Sample.image None None (Sample.world [Sample.ben])))
     = Some (str "Ben")
  /\ strictly_nearer (Sample.env_index_scan [Sample.face Sample.d3])
       Sample.at_08 Sample.at_07 Sample.d3
  /\ FaceRecognitionResult.person
       (fst (Service.recognizeFace (Sample.env_index_scan [Sample.face Sample.d3])
               Sample.image None None (Sample.world [Sample.ana; Sample.ben])))
     = Some (str "Ben").
Proof. repeat split; vm_compute; reflexivity. Qed.

(** ** Registering a new person *)

Lemma char_length_le_length (s : jsstring) :
  (Db.char_length s <= length s)%nat.
Proof.
  assert (H : forall k s, (length s <= k)%nat -> (Db.char_length s <= length s)%nat).
  { induction k as [|k IH]; intros [|h t] L; simpl in *; try lia.
    destruct t as [|l rest]; [lia|].
    destruct (Db.is_high_surrogate h && Db.is_low_surrogate l).
    - assert (Db.char_length rest <= length rest)%nat by (apply IH; simpl in L; lia).
      simpl. lia.
    - assert (Db.char_length (l :: rest) <= length (l :: rest))%nat
        by (apply IH; simpl in *; lia).
      simpl in *. lia. }
  apply (H (length s)). lia.
Qed.





(** What a successful insert tells. *)
Lemma insert_inv (i t : jsstring) (d : FaceInsert.t) (tbl tbl' : Db.table)
    (row : FaceRecord.t) :
  Db.insert i t d tbl = Some (row, tbl') ->
  tbl' = tbl ++ [row]
  /\ FaceRecord.id row = i
  /\ Db.varchar 255 (FaceInsert.name d) = Some (FaceRecord.name row)
  /\ Db.varchar 255 (FaceInsert.relationship d) = Some (FaceRecord.relationship row)
  /\ FaceRecord.face_embedding row = FaceInsert.face_embedding d.
Proof.
  unfold Db.insert.
  destruct (Db.varchar 255 (FaceInsert.name d)) as [nm|]; [|discriminate].
  destruct (Db.varchar 255 (FaceInsert.relationship d)) as [rel|]; [|discriminate].
  destruct (Db.varchar 50 _) as [col|]; [|discriminate].
  destruct (_ && _); [|discriminate].
  intros H. injection H as <- <-. repeat split.
Qed.

(** The colour and the user of an inserted row, and what its insert
    passed. *)
Lemma insert_inv_color (i t : jsstring) (d : FaceInsert.t) (tbl tbl' : Db.table)
    (row : FaceRecord.t) :
  Db.insert i t d tbl = Some (row, tbl') ->
  Db.varchar 50 (match FaceInsert.color d with
                 | Some c => c
                 | None => str "blue"
                 end) = Some (FaceRecord.color row)
  /\ FaceRecord.user_id row = FaceInsert.user_id d.
Proof.
  unfold Db.insert.
  destruct (Db.varchar 255 (FaceInsert.name d)); [|discriminate].
  destruct (Db.varchar 255 (FaceInsert.relationship d)); [|discriminate].
  destruct (Db.varchar 50 _); [|discriminate].
  destruct (_ && _); [|discriminate].
  intros H. injection H as <- _. split; reflexivity.
Qed.

(** The row [addFace] yields was inserted. *)
Lemma added_inserted (env : Env) (tbl : Db.table) (d : FaceInsert.t)
    (row : FaceRecord.t) :
  fst (added env tbl d) = Some row ->
  insert_answers env = true
  /\ Db.insert (new_id env) (now env) d tbl = Some (row, tbl ++ [row]).
Proof.
  unfold added. destruct (insert_answers env); [|discriminate].
  destruct (Db.insert (new_id env) (now env) d tbl) as [[row' tbl']|] eqn:E;
    [|discriminate].
  cbn [fst]. intros H. injection H as ->.
  destruct (insert_inv _ _ _ _ _ _ E) as (-> & _). split; reflexivity.
Qed.




(** ** Resolving twice *)

(** C8, as stated, fails: the first call resolves the descriptor to
    Ana; on the second call, with the same descriptor, the datastore
    does not answer the query, a name and a relationship are given, and
    the call registers a second record with the same descriptor and
    returns another identity. *)
Lemma idempotence_counterexample :
  let first := Service.recognizeFace (Sample.env [Sample.face Sample.d1])
                 Sample.image None None (Sample.world [Sample.ana]) in
  let second := Service.recognizeFace (Sample.env_query_down [Sample.face Sample.d1])
                  Sample.image (Some (str "Ann")) (Some (str "Niece")) (snd first) in
  FaceRecognitionResult.success (fst first) = true
  /\ FaceRecognitionResult.person (fst first) = Some (str "Ana")
  /\ faces (snd first) = [Sample.ana]
  /\ FaceRecognitionResult.success (fst second) = true
  /\ FaceRecognitionResult.person (fst second) = Some (str "Ann")
  /\ exists row,
       faces (snd second) = [Sample.ana; row]
       /\ FaceRecord.face_embedding row = Some Sample.d1.
Proof.
  cbv zeta. repeat (split; [vm_compute; reflexivity|]).
  eexists. split; vm_compute; reflexivity.
Qed.

(** C8, amended: a descriptor matches a stored record when the
    database computes its similarity to a record the query reads as
    strictly above 0.7. Resolving such a descriptor twice, the
    datastore answering both queries and evaluating them alike (the
    same distances to the descriptor, the same rows read), creates no
    record, and both calls return the same result: the name,
    relationship and colour of one stored record above the threshold,
    whatever name and relationship the calls are given. *)
Theorem resolving_a_match_is_idempotent
    (env1 env2 : Env) (img1 img2 : jsstring) (n1 r1 n2 r2 : option jsstring)
    (w : World) (pf1 pf2 : PyFace.t) (rest1 rest2 : list PyFace.t)
    (rec : FaceRecord.t) (e : embedding) :
  initializes env1 w = true -> blank img1 = false ->
  detected env1 = Some (pf1 :: rest1) ->
  rpc_answers env1 = true ->
  Db.dimensions_agree (faces w) (PyFace.encoding pf1) = true ->
  In rec (faces w) -> FaceRecord.face_embedding rec = Some e ->
  reaches env1 rec = true ->
  similarity_above env1 e (PyFace.encoding pf1) (7 # 10) ->
  blank img2 = false ->
  detected env2 = Some (pf2 :: rest2) ->
  PyFace.encoding pf2 = PyFace.encoding pf1 ->
  rpc_answers env2 = true ->
  (forall v, cosine_distance env2 v (PyFace.encoding pf1)
             = cosine_distance env1 v (PyFace.encoding pf1)) ->
  (forall r, In r (faces w) -> reaches env2 r = reaches env1 r) ->
  let first := Service.recognizeFace env1 img1 n1 r1 w in
  let second := Service.recognizeFace env2 img2 n2 r2 (snd first) in
  faces (snd first) = faces w
  /\ faces (snd second) = faces w
  /\ fst second = fst first
  /\ exists r' e',
       In r' (faces w) /\ FaceRecord.face_embedding r' = Some e'
       /\ similarity_above env1 e' (PyFace.encoding pf1) (7 # 10)
       /\ FaceRecognitionResult.success (fst first) = true
       /\ FaceRecognitionResult.person (fst first) = Some (FaceRecord.name r')
       /\ FaceRecognitionResult.relationship (fst first)
          = Some (FaceRecord.relationship r')
       /\ FaceRecognitionResult.color (fst first) = Some (FaceRecord.color r').
Proof.
  intros I1 B1 D1 Q1 G In_rec E V A B2 D2 Same Q2 Hd Hr. cbv zeta.
  pose proof (detections_first env1 pf1 rest1 D1) as F1.
  pose proof (detections_first env2 pf2 rest2 D2) as F2.
  destruct (answer_some env1 (faces w) (PyFace.encoding pf1) (7 # 10) 0 rec e
              G In_rec E V A) as (p & others & An).
  assert (P1 : identified env1 (faces w) (PyFace.encoding pf1) = Some p).
  { unfold identified. rewrite Q1, An. reflexivity. }
  rewrite (recognizeFace_found env1 img1 n1 r1 w _ _ p I1 B1 F1 P1).
  cbn [fst snd].
  set (w1 := queried _ _).
  assert (I2 : initializes env2 w1 = true) by reflexivity.
  assert (P2 : identified env2 (faces w1)
                 (FaceDetection.embedding (Service.to_FaceDetection pf2)) = Some p).
  { cbn [faces w1 queried detected_world Service.to_FaceDetection
         FaceDetection.embedding].
    rewrite Same, <- P1.
    apply identified_ext; [congruence|exact Hd|exact Hr]. }
  rewrite (recognizeFace_found env2 img2 n2 r2 w1 _ _ p I2 B2 F2 P2).
  cbn [fst snd].
  split; [reflexivity|]. split; [reflexivity|]. split; [reflexivity|].
  destruct (answer_selected env1 (faces w) (PyFace.encoding pf1) (7 # 10) 1
              (p :: others) p An (or_introl eq_refl))
    as (r' & e' & I' & E' & _ & -> & Gt).
  exists r', e'. split; [exact I'|]. split; [exact E'|].
  split; [apply above_gt; exact Gt|]. repeat split.
Qed.

Lemma resolving_a_match_is_idempotent_witness :
  let env := Sample.env [Sample.face Sample.d1] in
  let first := Service.recognizeFace env Sample.image None None
                 (Sample.world [Sample.ana]) in
  let second := Service.recognizeFace env Sample.image
                  (Some (str "Ann")) (Some (str "Niece")) (snd first) in
  faces (snd first) = [Sample.ana]
  /\ faces (snd second) = [Sample.ana]
  /\ fst second = fst first
  /\ exists r' e',
       In r' [Sample.ana] /\ FaceRecord.face_embedding r' = Some e'
       /\ similarity_above env e' Sample.d1 (7 # 10)
       /\ FaceRecognitionResult.success (fst first) = true
       /\ FaceRecognitionResult.person (fst first) = Some (FaceRecord.name r')
       /\ FaceRecognitionResult.relationship (fst first)
          = Some (FaceRecord.relationship r')
       /\ FaceRecognitionResult.color (fst first) = Some (FaceRecord.color r').
Proof.
  apply (resolving_a_match_is_idempotent
           (Sample.env [Sample.face Sample.d1]) (Sample.env [Sample.face Sample.d1])
           Sample.image Sample.image None None
           (Some (str "Ann")) (Some (str "Niece"))
           (Sample.world [Sample.ana])
           (Sample.face Sample.d1) (Sample.face Sample.d1) [] []
           Sample.ana Sample.at_08).
  - reflexivity.
  - reflexivity.
  - reflexivity.
  - reflexivity.
  - vm_compute. reflexivity.
  - left. reflexivity.
  - reflexivity.
  - reflexivity.
  - vm_compute. reflexivity.
  - reflexivity.
  - reflexivity.
  - reflexivity.
  - reflexivity.
  - reflexivity.
  - reflexivity.
Defined.

(** ** The same name twice *)

Lemma eqb_refl (s : jsstring) : Js.eqb s s = true.
Proof. unfold Js.eqb. destruct (list_eq_dec N.eq_dec s s); congruence. Qed.

Lemma primary_key_fresh (i : jsstring) (tbl : Db.table) (r : FaceRecord.t) :
  Db.primary_key i tbl = true -> In r tbl -> FaceRecord.id r <> i.
Proof.
  unfold Db.primary_key. intros K I E. apply negb_true_iff in K.
  assert (X : existsb (fun r => Js.eqb (FaceRecord.id r) i) tbl = true).
  { apply existsb_exists. exists r. split; [exact I|]. rewrite E. apply eqb_refl. }
  congruence.
Qed.

(** A successful insert passed the constraints of the keys. *)
Lemma insert_inv_keys (i t : jsstring) (d : FaceInsert.t) (tbl tbl' : Db.table)
    (row : FaceRecord.t) :
  Db.insert i t d tbl = Some (row, tbl') ->
  Db.primary_key i tbl = true
  /\ Db.unique_name_per_user (FaceRecord.name row) (FaceInsert.user_id d) tbl = true.
Proof.
  unfold Db.insert.
  destruct (Db.varchar 255 (FaceInsert.name d)) as [nm|]; [|discriminate].
  destruct (Db.varchar 255 (FaceInsert.relationship d)) as [rel|]; [|discriminate].
  destruct (Db.varchar 50 _) as [col|]; [|discriminate].
  destruct (Db.vector_fits _ && Db.text_fits _ && Db.primary_key i tbl
            && Db.unique_name_per_user nm (FaceInsert.user_id d) tbl) eqn:C;
    [|discriminate].
  intros H. injection H as <- _. cbn [FaceRecord.name].
  apply andb_true_iff in C. destruct C as [C U].
  apply andb_true_iff in C. destruct C as [_ K]. split; assumption.
Qed.




(** ** A scenario

    An empty table; Ana is registered with her descriptor, and the next
    call with the same descriptor and no name finds her. *)
Example ana_then_found :
  let env := Sample.env [Sample.face Sample.d1] in
  let first := Service.recognizeFace env Sample.image
                 (Some (str "Ana")) (Some (str "Daughter")) (Sample.world []) in
  let second := Service.recognizeFace env Sample.image None None (snd first) in
  fst first = Service.added_new Sample.ana_registered
  /\ faces (snd first) = [Sample.ana_registered]
  /\ FaceRecognitionResult.message (fst first) = str "Added new person: Ana (Daughter)"
  /\ FaceRecognitionResult.success (fst second) = true
  /\ FaceRecognitionResult.person (fst second) = Some (str "Ana")
  /\ FaceRecognitionResult.relationship (fst second) = Some (str "Daughter")
  /\ FaceRecognitionResult.message (fst second)
     = str "Found existing person: Ana (Daughter)"
  /\ faces (snd second) = [Sample.ana_registered].
Proof. vm_compute. repeat split. Qed.

(** * More of the code *)

(** ** The order of the rows [match_faces] returns *)

Lemma insert_sorted_sorted (x : Db.Candidate) (l : list Db.Candidate) :
  StronglySorted not_closer l -> StronglySorted not_closer (Db.insert_sorted x l).
Proof.
  induction l as [|y l IH]; intros S; simpl.
  - constructor; constructor.
  - inversion S as [|? ? Sl Fy]; subst.
    destruct (Float8.lt (Db.distance y) (Db.distance x)) eqn:C.
    + constructor; [apply IH; exact Sl|].
      apply Forall_forall. intros z Iz. apply insert_sorted_In in Iz.
      destruct Iz as [->|Iz].
      * unfold not_closer. apply lt_asym. exact C.
      * rewrite Forall_forall in Fy. apply Fy. exact Iz.
    + constructor; [exact S|].
      constructor; [exact C|].
      rewrite Forall_forall in Fy. apply Forall_forall. intros z Iz.
      unfold not_closer in *.
      apply lt_false_trans with (Db.distance y); [exact C|apply Fy; exact Iz].
Qed.

Lemma order_by_distance_sorted (l : list Db.Candidate) :
  StronglySorted not_closer (Db.order_by_distance l).
Proof.
  induction l as [|x l IH]; simpl; [constructor|].
  apply insert_sorted_sorted. exact IH.
Qed.

Lemma sorted_split {A} (R : A -> A -> Prop) (a b : list A) :
  StronglySorted R (a ++ b) ->
  StronglySorted R a /\ forall x y, In x a -> In y b -> R x y.
Proof.
  induction a as [|h a IH]; simpl; intros S.
  - split; [constructor|]. intros x y [].
  - inversion S as [|? ? Sab F]; subst.
    destruct (IH Sab) as [Sa Hab]. split.
    + constructor; [exact Sa|].
      rewrite Forall_forall in *. intros z Iz. apply F.
      apply in_or_app. left. exact Iz.
    + intros x y [<-|Ix] Iy.
      * rewrite Forall_forall in F. apply F. apply in_or_app. right. exact Iy.
      * apply Hab; assumption.
Qed.

(** The rows of an answer, with their distances. *)
Lemma answer_candidates (env : Env) (tbl : Db.table) (d : embedding) (t : Q)
    (k : nat) (rows : list MatchedFace.t) :
  answer env tbl d t k = Some rows ->
  exists found,
    rows = map Db.selected found
    /\ (length found <= k)%nat
    /\ StronglySorted not_closer found
    /\ (forall c, In c found ->
          exists r e,
            In r tbl /\ FaceRecord.face_embedding r = Some e
            /\ reaches env r = true
            /\ c = Db.mkCandidate r e (cosine_distance env e d)
            /\ similarity_above env e d t)
    /\ (forall r e x,
          In r tbl -> FaceRecord.face_embedding r = Some e ->
          reaches env r = true -> similarity_above env e d t ->
          In x found ->
          In (Db.mkCandidate r e (cosine_distance env e d)) found
          \/ Float8.lt (cosine_distance env e d) (Db.distance x) = false).
Proof.
  unfold answer, Db.match_faces.
  destruct (Db.dimensions_agree tbl d); [|discriminate].
  intros M. injection M as <-.
  set (l := Db.order_by_distance _).
  exists (firstn k l).
  assert (S : StronglySorted not_closer (firstn k l ++ skipn k l)).
  { rewrite firstn_skipn. apply order_by_distance_sorted. }
  destruct (sorted_split _ _ _ S) as [Sf Hfs].
  split; [reflexivity|]. split; [apply firstn_le_length|]. split; [exact Sf|]. split.
  - intros c I. apply firstn_subset in I.
    apply (proj1 (order_by_distance_In _ _)) in I.
    apply filter_In in I. destruct I as [I G].
    apply scored_In in I. destruct I as (r & e & I & E & V & ->).
    exists r, e. repeat split; try assumption. apply above_gt. exact G.
  - intros r e x I E V A Ix.
    assert (Il : In (Db.mkCandidate r e (cosine_distance env e d))
                   (firstn k l ++ skipn k l)).
    { rewrite firstn_skipn. apply order_by_distance_In. apply filter_In. split.
      - apply scored_In. exists r, e. auto.
      - apply above_gt. exact A. }
    apply in_app_or in Il. destruct Il as [Il|Il]; [left; exact Il|].
    right. exact (Hfs x _ Ix Il).
Qed.

(** X1: the rows [match_faces] returns are at most [match_count]; each
    comes from a row of the table that the plan of the query read and
    whose similarity, as the database computes it, compares strictly
    above the threshold; they are ordered by distance, the nearest
    first; a row that was read and is above the threshold and was left
    out is not strictly nearer to the query than any row returned; and
    when such a row exists and [match_count] is positive, at least one
    row is returned. *)
Theorem match_faces_returns_the_nearest
    (env : Env) (tbl : Db.table) (d : embedding) (t : Q) (k : nat)
    (rows : list MatchedFace.t) :
  answer env tbl d t k = Some rows ->
  exists found,
    rows = map Db.selected found
    /\ (length found <= k)%nat
    /\ StronglySorted not_closer found
    /\ (forall c, In c found ->
          exists r e,
            In r tbl /\ FaceRecord.face_embedding r = Some e
            /\ reaches env r = true
            /\ c = Db.mkCandidate r e (cosine_distance env e d)
            /\ similarity_above env e d t)
    /\ (forall r e x,
          In r tbl -> FaceRecord.face_embedding r = Some e ->
          reaches env r = true -> similarity_above env e d t ->
          In x found ->
          In (Db.mkCandidate r e (cosine_distance env e d)) found
          \/ Float8.lt (cosine_distance env e d) (Db.distance x) = false)
    /\ (forall r e,
          In r tbl -> FaceRecord.face_embedding r = Some e ->
          reaches env r = true -> similarity_above env e d t ->
          (0 < k)%nat -> found <> []).
Proof.
  intros M.
  destruct (answer_candidates env tbl d t k rows M) as (found & R & L & S & Sel & Top).
  exists found. repeat (split; [assumption|]).
  intros r e I E V A K F. subst found rows.
  destruct k as [|k]; [lia|].
  assert (D : Db.dimensions_agree tbl d = true).
  { unfold answer, Db.match_faces in M.
    destruct (Db.dimensions_agree tbl d); [reflexivity|discriminate]. }
  destruct (answer_some env tbl d t k r e D I E V A) as (first & rest & M').
  rewrite M in M'. discriminate.
Qed.

Lemma match_faces_returns_the_nearest_witness :
  let env := Sample.env [] in
  let tbl := [Sample.ben; Sample.eva; Sample.ana] in
  let d := Sample.d1 in
  exists found,
    [matched_row env Sample.ana Sample.at_08 d] = map Db.selected found
    /\ (length found <= 1)%nat
    /\ StronglySorted not_closer found
    /\ (forall c, In c found ->
          exists r e,
            In r tbl /\ FaceRecord.face_embedding r = Some e
            /\ reaches env r = true
            /\ c = Db.mkCandidate r e (cosine_distance env e d)
            /\ similarity_above env e d (1 # 2))
    /\ (forall r e x,
          In r tbl -> FaceRecord.face_embedding r = Some e ->
          reaches env r = true -> similarity_above env e d (1 # 2) ->
          In x found ->
          In (Db.mkCandidate r e (cosine_distance env e d)) found
          \/ Float8.lt (cosine_distance env e d) (Db.distance x) = false)
    /\ (forall r e,
          In r tbl -> FaceRecord.face_embedding r = Some e ->
          reaches env r = true -> similarity_above env e d (1 # 2) ->
          (0 < 1)%nat -> found <> []).
Proof.
  apply (match_faces_returns_the_nearest (Sample.env [])
           [Sample.ben; Sample.eva; Sample.ana] Sample.d1 (1 # 2) 1
           [matched_row (Sample.env []) Sample.ana Sample.at_08 Sample.d1]).
  vm_compute. reflexivity.
Defined.

(** ** [identifyFace], [detectFaces], [initialize] *)

(** X2: the record [identifyFace] returns comes from a record of the
    table that the query read and whose similarity to the descriptor
    the database computes as strictly above 0.7, and no record that was
    read and is above 0.7 is strictly nearer to the descriptor; the
    table is left as it was. *)
Theorem identifyFace_returns_a_nearest_record
    (env : Env) (e : embedding) (w : World) (p : MatchedFace.t) :
  fst (Service.identifyFace env e w) = Some p ->
  faces (snd (Service.identifyFace env e w)) = faces w
  /\ exists r v,
       In r (faces w) /\ FaceRecord.face_embedding r = Some v
       /\ reaches env r = true
       /\ p = matched_row env r v e
       /\ similarity_above env v e (7 # 10)
       /\ (forall r' v',
             In r' (faces w) -> FaceRecord.face_embedding r' = Some v' ->
             reaches env r' = true -> similarity_above env v' e (7 # 10) ->
             Float8.lt (cosine_distance env v' e) (cosine_distance env v e) = false).
Proof.
  rewrite identifyFace_run. cbn [fst snd faces]. unfold identified.
  destruct (rpc_answers env); [|discriminate].
  destruct (answer env (faces w) e (7 # 10) 1) as [rows|] eqn:M; [|discriminate].
  destruct rows as [|first rest]; [discriminate|].
  intros H. injection H as ->.
  destruct (answer_candidates _ _ _ _ _ _ M) as (found & R & L & _ & Sel & Top).
  destruct found as [|c found]; [discriminate|].
  destruct found as [|c' found]; [|simpl in L; lia].
  simpl in R. injection R as -> _.
  destruct (Sel c (or_introl eq_refl)) as (r & v & I & E & V & -> & A).
  split; [reflexivity|]. exists r, v. repeat (split; [assumption|]).
  split; [reflexivity|]. split; [exact A|].
  intros r' v' I' E' V' A'.
  destruct (Top r' v' _ I' E' V' A' (or_introl eq_refl)) as [[Ec|[]]|N].
  - injection Ec as _ <-. apply lt_irrefl.
  - exact N.
Qed.

Lemma identifyFace_returns_a_nearest_record_witness :
  let env := Sample.env [] in
  let e := Sample.d1 in
  let w := Sample.world [Sample.ben; Sample.eva; Sample.ana] in
  let p := matched_row env Sample.ana Sample.at_08 Sample.d1 in
  faces (snd (Service.identifyFace env e w)) = faces w
  /\ exists r v,
       In r (faces w) /\ FaceRecord.face_embedding r = Some v
       /\ reaches env r = true
       /\ p = matched_row env r v e
       /\ similarity_above env v e (7 # 10)
       /\ (forall r' v',
             In r' (faces w) -> FaceRecord.face_embedding r' = Some v' ->
             reaches env r' = true -> similarity_above env v' e (7 # 10) ->
             Float8.lt (cosine_distance env v' e) (cosine_distance env v e) = false).
Proof.
  apply (identifyFace_returns_a_nearest_record (Sample.env []) Sample.d1
           (Sample.world [Sample.ben; Sample.eva; Sample.ana])
           (matched_row (Sample.env []) Sample.ana Sample.at_08 Sample.d1)).
  vm_compute. reflexivity.
Defined.

(** X3: on a service that initialises, [detectFaces] returns one
    detection per face the detection service reports, in its order,
    with the [encoding] of each face as [embedding] and its confidence
    unchanged; the table is not touched. *)
Theorem detectFaces_keeps_the_faces_in_order
    (env : Env) (buffer : Buffer) (w : World) (fs : list PyFace.t) :
  initializes env w = true ->
  detected env = Some fs ->
  let found := fst (Service.detectFaces env buffer w) in
  length found = length fs
  /\ map FaceDetection.embedding found = map PyFace.encoding fs
  /\ map FaceDetection.confidence found = map PyFace.confidence fs
  /\ faces (snd (Service.detectFaces env buffer w)) = faces w.
Proof.
  intros I D.
  assert (R : Service.detectFaces env buffer w
              = (map Service.to_FaceDetection fs,
                 mkWorld true (faces w)
                   (calls (initialized w) ++ [FetchDetect buffer]))).
  { unfold Service.detectFaces, try_catch_return.
    rewrite (bind_Return _ _ _ _ _
               (eq_refl : get_modelsLoaded w = (Return (modelsLoaded w), w))).
    rewrite (bind_Return _ _ _ _ _ (ensure_initialized _ _ I)).
    unfold Service.fetch_detect, bind, call, ret, throw. cbn [faces calls modelsLoaded].
    unfold detected in D.
    destruct (detect env) as [e|status [body|]]; try discriminate.
    destruct (Service.response_ok status); [|discriminate].
    destruct (PythonFaceDetectionResponse.success body); [|discriminate].
    injection D as <-. cbn. rewrite initialized_faces, initialized_loaded.
    reflexivity. }
  rewrite R. cbn [fst snd faces]. rewrite length_map, !map_map. repeat split.
Qed.

Lemma detectFaces_keeps_the_faces_in_order_witness :
  let fs := [Sample.face Sample.d1; Sample.face Sample.d2] in
  let run := Service.detectFaces (Sample.env fs)
               (Buffer_from_base64 Sample.image) (Sample.world [Sample.ana]) in
  length (fst run) = length fs
  /\ map FaceDetection.embedding (fst run) = map PyFace.encoding fs
  /\ map FaceDetection.confidence (fst run) = map PyFace.confidence fs
  /\ faces (snd run) = faces (Sample.world [Sample.ana]).
Proof.
  apply (detectFaces_keeps_the_faces_in_order
           (Sample.env [Sample.face Sample.d1; Sample.face Sample.d2])
           (Buffer_from_base64 Sample.image) (Sample.world [Sample.ana])
           [Sample.face Sample.d1; Sample.face Sample.d2]); reflexivity.
Defined.

(** X4: when the service object is not initialised and the health
    check fails, [detectFaces] returns the empty list, as for an image
    without a face: the detection service is not asked, the flag stays
    unset and the table is not touched. *)
Theorem detectFaces_of_an_unreachable_service
    (env : Env) (buffer : Buffer) (w : World) :
  initializes env w = false ->
  Service.detectFaces env buffer w
  = ([], mkWorld false (faces w) (calls w ++ [FetchHealth])).
Proof.
  intros I.
  assert (L : modelsLoaded w = false).
  { unfold initializes in I. apply orb_false_iff in I. tauto. }
  unfold Service.detectFaces, try_catch_return.
  rewrite (bind_Return _ _ _ _ _
             (eq_refl : get_modelsLoaded w = (Return (modelsLoaded w), w))).
  rewrite L. change (negb false) with true. cbv iota.
  rewrite (bind_Throw _ _ _ _ _ (initialize_fails _ _ I)). reflexivity.
Qed.

Lemma detectFaces_of_an_unreachable_service_witness :
  Service.detectFaces Sample.env_service_down (Buffer_from_base64 Sample.image)
    (Sample.world [Sample.ana])
  = ([], mkWorld false [Sample.ana] [FetchHealth]).
Proof.
  apply (detectFaces_of_an_unreachable_service Sample.env_service_down
           (Buffer_from_base64 Sample.image) (Sample.world [Sample.ana])).
  reflexivity.
Defined.

(** X5: [initialize] is done once: after a call of it has returned,
    every later call returns at once, without a health check, whatever
    the detection service would answer. *)
Theorem initialize_is_done_once
    (env1 env2 : Env) (w w1 : World) :
  Service.initialize env1 w = (Return tt, w1) ->
  Service.initialize env2 w1 = (Return tt, w1).
Proof.
  intros H.
  assert (L : modelsLoaded w1 = true).
  { destruct (initializes env1 w) eqn:I.
    - rewrite (initialize_run _ _ I) in H. injection H as <-.
      apply initialized_loaded.
    - rewrite (initialize_fails _ _ I) in H. discriminate. }
  unfold Service.initialize.
  rewrite (bind_Return _ _ _ _ _
             (eq_refl : get_modelsLoaded w1 = (Return (modelsLoaded w1), w1))).
  rewrite L. reflexivity.
Qed.

Lemma initialize_is_done_once_witness :
  Service.initialize Sample.env_service_down
    (mkWorld true [] [FetchHealth])
  = (Return tt, mkWorld true [] [FetchHealth]).
Proof.
  apply (initialize_is_done_once (Sample.env []) Sample.env_service_down
           (Sample.world []) (mkWorld true [] [FetchHealth])).
  reflexivity.
Defined.

(** ** The constraints of the table are kept *)

Lemma eqb_eq (a b : jsstring) : Js.eqb a b = true <-> a = b.
Proof.
  unfold Js.eqb. destruct (list_eq_dec N.eq_dec a b); split; congruence.
Qed.

Lemma eqb_sym (a b : jsstring) : Js.eqb a b = Js.eqb b a.
Proof.
  unfold Js.eqb.
  destruct (list_eq_dec N.eq_dec a b), (list_eq_dec N.eq_dec b a); congruence.
Qed.

Lemma option_eqb_sym (a b : option jsstring) :
  Db.option_eqb a b = Db.option_eqb b a.
Proof. destruct a, b; simpl; try reflexivity. apply eqb_sym. Qed.

Lemma primary_key_app (i : jsstring) (tbl : Db.table) (r : FaceRecord.t) :
  Db.primary_key i (tbl ++ [r])
  = Db.primary_key i tbl && negb (Js.eqb (FaceRecord.id r) i).
Proof.
  unfold Db.primary_key. rewrite existsb_app. simpl.
  rewrite orb_false_r, negb_orb. reflexivity.
Qed.

Lemma unique_name_app (nm : jsstring) (u : option jsstring)
    (tbl : Db.table) (r : FaceRecord.t) :
  Db.unique_name_per_user nm u (tbl ++ [r])
  = Db.unique_name_per_user nm u tbl
    && negb (Js.eqb (FaceRecord.name r) nm && Db.option_eqb (FaceRecord.user_id r) u).
Proof.
  unfold Db.unique_name_per_user. rewrite existsb_app. simpl.
  rewrite orb_false_r, negb_orb. reflexivity.
Qed.

Lemma primary_key_cons (i : jsstring) (r : FaceRecord.t) (tbl : Db.table) :
  Db.primary_key i (r :: tbl)
  = negb (Js.eqb (FaceRecord.id r) i) && Db.primary_key i tbl.
Proof. unfold Db.primary_key. simpl. apply negb_orb. Qed.

Lemma unique_name_cons (nm : jsstring) (u : option jsstring)
    (r : FaceRecord.t) (tbl : Db.table) :
  Db.unique_name_per_user nm u (r :: tbl)
  = negb (Js.eqb (FaceRecord.name r) nm && Db.option_eqb (FaceRecord.user_id r) u)
    && Db.unique_name_per_user nm u tbl.
Proof. unfold Db.unique_name_per_user. simpl. apply negb_orb. Qed.

Lemma ids_unique_app (tbl : Db.table) (row : FaceRecord.t) :
  Sql.ids_unique (tbl ++ [row])
  = Sql.ids_unique tbl && Db.primary_key (FaceRecord.id row) tbl.
Proof.
  induction tbl as [|r rest IH]; [reflexivity|].
  cbn [app Sql.ids_unique].
  rewrite primary_key_app, IH, primary_key_cons.
  rewrite (eqb_sym (FaceRecord.id row) (FaceRecord.id r)).
  destruct (Db.primary_key (FaceRecord.id r) rest), (Sql.ids_unique rest),
    (Db.primary_key (FaceRecord.id row) rest),
    (Js.eqb (FaceRecord.id r) (FaceRecord.id row)); reflexivity.
Qed.

Lemma names_unique_app (tbl : Db.table) (row : FaceRecord.t) :
  Sql.names_unique (tbl ++ [row])
  = Sql.names_unique tbl
    && Db.unique_name_per_user (FaceRecord.name row) (FaceRecord.user_id row) tbl.
Proof.
  induction tbl as [|r rest IH]; [reflexivity|].
  cbn [app Sql.names_unique].
  rewrite unique_name_app, IH, unique_name_cons.
  rewrite (eqb_sym (FaceRecord.name row) (FaceRecord.name r)).
  rewrite (option_eqb_sym (FaceRecord.user_id row) (FaceRecord.user_id r)).
  destruct (Db.unique_name_per_user (FaceRecord.name r) (FaceRecord.user_id r) rest),
    (Sql.names_unique rest),
    (Db.unique_name_per_user (FaceRecord.name row) (FaceRecord.user_id row) rest),
    (Js.eqb (FaceRecord.name r) (FaceRecord.name row)),
    (Db.option_eqb (FaceRecord.user_id r) (FaceRecord.user_id row)); reflexivity.
Qed.

Lemma char_length_spaces (b : jsstring) :
  forallb (N.eqb 0x20) b = true -> Db.char_length b = length b.
Proof.
  induction b as [|h t IH]; [reflexivity|].
  intros H. cbn [forallb] in H. apply andb_true_iff in H. destruct H as [Hh Ht].
  apply N.eqb_eq in Hh. subst h.
  destruct t as [|l rest]; [reflexivity|].
  change (Db.char_length (32%N :: l :: rest)) with (S (Db.char_length (l :: rest))).
  rewrite (IH Ht). reflexivity.
Qed.

(** Characters are counted apart from the spaces at the end. *)
Lemma char_length_app_spaces (a b : jsstring) :
  forallb (N.eqb 0x20) b = true ->
  Db.char_length (a ++ b) = (Db.char_length a + length b)%nat.
Proof.
  intros B.
  assert (H : forall k a, (length a <= k)%nat ->
                Db.char_length (a ++ b) = (Db.char_length a + length b)%nat).
  { induction k as [|k IH]; intros [|h t] L; simpl in L; try lia.
    - simpl. apply char_length_spaces. exact B.
    - simpl. apply char_length_spaces. exact B.
    - destruct t as [|l rest].
      + simpl app. destruct b as [|s b'].
        * reflexivity.
        * cbn [forallb] in B. apply andb_true_iff in B. destruct B as [Bs B'].
          apply N.eqb_eq in Bs. subst s.
          change (Db.char_length (h :: 32%N :: b'))
            with (if Db.is_high_surrogate h && Db.is_low_surrogate 32
                  then S (Db.char_length b') else S (Db.char_length (32%N :: b'))).
          change (Db.is_low_surrogate 32) with false. rewrite andb_false_r.
          rewrite (char_length_spaces (32%N :: b')).
          -- simpl. reflexivity.
          -- cbn [forallb]. rewrite B'. reflexivity.
      + change (Db.char_length ((h :: l :: rest) ++ b))
          with (if Db.is_high_surrogate h && Db.is_low_surrogate l
                then S (Db.char_length (rest ++ b))
                else S (Db.char_length ((l :: rest) ++ b))).
        change (Db.char_length (h :: l :: rest))
          with (if Db.is_high_surrogate h && Db.is_low_surrogate l
                then S (Db.char_length rest)
                else S (Db.char_length (l :: rest))).
        destruct (Db.is_high_surrogate h && Db.is_low_surrogate l).
        * rewrite (IH rest) by (simpl in L; lia). reflexivity.
        * rewrite (IH (l :: rest)) by (simpl in L |- *; lia). reflexivity. }
  apply (H (length a)). lia.
Qed.

(** What a [VARCHAR(n)] column stores has at most [n] characters. *)
Lemma varchar_bound (n : nat) (s k : jsstring) :
  Db.varchar n s = Some k -> (Db.char_length k <= n)%nat.
Proof.
  unfold Db.varchar.
  set (excess := (Db.char_length s - n)%nat).
  destruct (Db.text s); [|discriminate]. cbn [andb].
  destruct (forallb _ _) eqn:F; [|discriminate].
  intros H. injection H as <-.
  pose proof (char_length_le_length s) as C.
  pose proof (char_length_app_spaces
                (firstn (length s - excess) s) (skipn (length s - excess) s) F) as A.
  rewrite firstn_skipn in A. rewrite length_skipn in A.
  unfold excess in *. lia.
Qed.

(** An insert the table accepts leaves it within its constraints. *)
Lemma insert_well_formed (i t : jsstring) (d : FaceInsert.t)
    (tbl tbl' : Db.table) (row : FaceRecord.t) :
  Sql.well_formed tbl = true ->
  Db.insert i t d tbl = Some (row, tbl') ->
  Sql.well_formed tbl' = true.
Proof.
  unfold Sql.well_formed, Db.insert. intros W.
  apply andb_true_iff in W. destruct W as [W F].
  apply andb_true_iff in W. destruct W as [I N].
  destruct (Db.varchar 255 (FaceInsert.name d)) as [nm|] eqn:Vn; [|discriminate].
  destruct (Db.varchar 255 (FaceInsert.relationship d)) as [rel|] eqn:Vr; [|discriminate].
  destruct (Db.varchar 50 _) as [col|] eqn:Vc; [|discriminate].
  destruct (Db.vector_fits (FaceInsert.face_embedding d)) eqn:Vf; [|discriminate].
  destruct (Db.text_fits (FaceInsert.image_url d)); [|discriminate].
  destruct (Db.primary_key i tbl) eqn:K; [|discriminate].
  destruct (Db.unique_name_per_user nm (FaceInsert.user_id d) tbl) eqn:U;
    [|discriminate].
  simpl. intros H. injection H as <- <-.
  rewrite ids_unique_app, names_unique_app, forallb_app.
  cbn [FaceRecord.id FaceRecord.name FaceRecord.user_id forallb].
  rewrite I, N, F, K, U. unfold Sql.row_fits.
  cbn [FaceRecord.name FaceRecord.relationship FaceRecord.color
       FaceRecord.face_embedding].
  rewrite Vf.
  rewrite (proj2 (Nat.leb_le _ _) (varchar_bound _ _ _ Vn)).
  rewrite (proj2 (Nat.leb_le _ _) (varchar_bound _ _ _ Vr)).
  rewrite (proj2 (Nat.leb_le _ _) (varchar_bound _ _ _ Vc)).
  reflexivity.
Qed.

(** X6: [addFace] adds one row or none. When it returns a record, the
    table is the old one followed by that record, whose id is the one
    the database generated; when it returns null the table is as it
    was. In both cases a table within the constraints of the schema
    (primary key, [unique_name_per_user], sizes of the columns) stays
    within them. *)
Theorem addFace_adds_one_row_or_none
    (env : Env) (d : FaceInsert.t) (w : World) :
  let run := Service.addFace env d w in
  match fst run with
  | Some row =>
      faces (snd run) = faces w ++ [row] /\ FaceRecord.id row = new_id env
  | None => faces (snd run) = faces w
  end
  /\ (Sql.well_formed (faces w) = true -> Sql.well_formed (faces (snd run)) = true).
Proof.
  cbv zeta. rewrite addFace_run. cbn [fst snd faces]. unfold added.
  destruct (insert_answers env); [|split; [reflexivity|tauto]].
  destruct (Db.insert (new_id env) (now env) d (faces w)) as [[row tbl']|] eqn:E;
    cbn [fst snd]; [|split; [reflexivity|tauto]].
  destruct (insert_inv _ _ _ _ _ _ E) as (T & Id & _). split.
  - split; assumption.
  - intros W. exact (insert_well_formed _ _ _ _ _ _ W E).
Qed.

(** X7: a call of [recognizeFace] never removes or changes a row: the
    table it leaves is the old one followed by at most one new row, and
    a table within the constraints of the schema stays within them. *)
Theorem recognizeFace_only_appends
    (env : Env) (img : jsstring) (n r : option jsstring) (w : World) :
  let run := Service.recognizeFace env img n r w in
  exists new,
    faces (snd run) = faces w ++ new
    /\ (length new <= 1)%nat
    /\ (Sql.well_formed (faces w) = true -> Sql.well_formed (faces (snd run)) = true).
Proof.
  cbv zeta.
  destruct (recognizeFace_path env img n r w)
    as [I | I B | I B E | face others p I B E P | face others I B E P T
        | face others name relationship I B E P -> -> N R]; cbn [snd].
  1-5: exists []; rewrite app_nil_r;
       try rewrite initialized_faces; cbn [faces queried detected_world];
       repeat split; auto.
  unfold inserted, added. cbn [faces detected_world].
  destruct (insert_answers env).
  2: { exists []. rewrite app_nil_r. cbn [snd]. repeat split; auto. }
  destruct (Db.insert (new_id env) (now env) _ (faces w)) as [[row tbl']|] eqn:Ins.
  2: { exists []. rewrite app_nil_r. cbn [snd]. repeat split; auto. }
  cbn [snd]. destruct (insert_inv _ _ _ _ _ _ Ins) as (T & _).
  exists [row]. split; [exact T|]. split; [simpl; lia|].
  intros W. exact (insert_well_formed _ _ _ _ _ _ W Ins).
Qed.

(** ** A registered person is found again *)

Lemma dimensions_agree_app (tbl : Db.table) (d : embedding) (row : FaceRecord.t) :
  Db.dimensions_agree tbl d = true ->
  FaceRecord.face_embedding row = Some d ->
  Db.dimensions_agree (tbl ++ [row]) d = true.
Proof.
  unfold Db.dimensions_agree. intros H E.
  apply andb_true_iff in H. destruct H as [H1 H2].
  rewrite H1, forallb_app, H2. simpl. rewrite E, Nat.eqb_refl. reflexivity.
Qed.

(** The record just inserted with the descriptor is the one the query
    returns, when the query reads it, the database computes the
    similarity of the descriptor to itself as above the threshold, and
    every older record is below it. *)
Lemma identified_after_insert (env : Env) (tbl : Db.table) (d : embedding)
    (row : FaceRecord.t) :
  rpc_answers env = true ->
  Db.dimensions_agree tbl d = true ->
  all_below env tbl d (7 # 10) ->
  FaceRecord.face_embedding row = Some d ->
  reaches env row = true ->
  similarity_above env d d (7 # 10) ->
  identified env (tbl ++ [row]) d = Some (matched_row env row d d).
Proof.
  intros Q G A E V S. unfold identified, answer, Db.match_faces.
  rewrite Q, (dimensions_agree_app tbl d row G E).
  assert (F : filter (fun c => Float8.gt (Db.similarity c) (Float8.of_Q (7 # 10)))
                (Db.scored (cosine_distance env) (reaches env) (tbl ++ [row]) d)
              = [Db.mkCandidate row d (cosine_distance env d d)]).
  { clear G. induction tbl as [|a tbl IH].
    - simpl. rewrite E, V. simpl.
      change (Db.similarity (Db.mkCandidate row d (cosine_distance env d d)))
        with (similarity env d d).
      rewrite (proj1 (above_gt env d d (7 # 10)) S). reflexivity.
    - assert (A' : all_below env tbl d (7 # 10)).
      { intros r e I Er. apply (A r e (or_intror I) Er). }
      cbn [app Db.scored].
      destruct (FaceRecord.face_embedding a) as [ea|] eqn:Ea; [|exact (IH A')].
      destruct (reaches env a); [|exact (IH A')].
      cbn [filter].
      change (Db.similarity (Db.mkCandidate a ea (cosine_distance env ea d)))
        with (similarity env ea d).
      rewrite (below_not_gt env ea d (7 # 10) (A a ea (or_introl eq_refl) Ea)).
      exact (IH A'). }
  rewrite F. reflexivity.
Qed.

(** X8: after a call has registered a person for a descriptor, a later
    call that detects the same descriptor finds that person: it returns
    the name, relationship and colour of the registration and adds
    nothing to the table, whatever name and relationship it is given.
    At the later call the store answers the query and reads the new
    record, the database computes the similarity of the descriptor to
    itself as above 0.7 and its similarity to every older record as
    below, and the older vectors have the dimension of the
    descriptor. *)
Theorem registered_person_is_found_again
    (env1 env2 : Env) (img1 img2 : jsstring) (name relationship : jsstring)
    (n2 r2 : option jsstring) (w : World)
    (pf1 pf2 : PyFace.t) (rest1 rest2 : list PyFace.t) (created : FaceRecord.t) :
  detected env1 = Some (pf1 :: rest1) ->
  fst (Service.recognizeFace env1 img1 (Some name) (Some relationship) w)
  = Service.added_new created ->
  faces (snd (Service.recognizeFace env1 img1 (Some name) (Some relationship) w))
  = faces w ++ [created] ->
  blank img2 = false ->
  detected env2 = Some (pf2 :: rest2) ->
  PyFace.encoding pf2 = PyFace.encoding pf1 ->
  rpc_answers env2 = true ->
  reaches env2 created = true ->
  similarity_above env2 (PyFace.encoding pf1) (PyFace.encoding pf1) (7 # 10) ->
  all_below env2 (faces w) (PyFace.encoding pf1) (7 # 10) ->
  Db.dimensions_agree (faces w) (PyFace.encoding pf1) = true ->
  let first := Service.recognizeFace env1 img1 (Some name) (Some relationship) w in
  let second := Service.recognizeFace env2 img2 n2 r2 (snd first) in
  FaceRecognitionResult.success (fst second) = true
  /\ FaceRecognitionResult.person (fst second) = FaceRecognitionResult.person (fst first)
  /\ FaceRecognitionResult.relationship (fst second)
     = FaceRecognitionResult.relationship (fst first)
  /\ FaceRecognitionResult.color (fst second) = FaceRecognitionResult.color (fst first)
  /\ faces (snd second) = faces (snd first).
Proof.
  intros D1 H T B2 D2 Same Q2 V S A G. cbv zeta.
  pose proof (detections_first env1 pf1 rest1 D1) as F1.
  pose proof (detections_first env2 pf2 rest2 D2) as F2.
  revert H T.
  destruct (recognizeFace_path env1 img1 (Some name) (Some relationship) w)
    as [I | I B | I B E | face others p' I B E P | face others I B E P T
        | face others name' relationship' I B E P En Er N R]; cbn [fst snd];
    try discriminate.
  injection En as <-. injection Er as <-.
  rewrite F1 in E. injection E as <- _.
  pose proof (added_cases env1 (faces w)
                (new_person env1 (Service.to_FaceDetection pf1) name relationship)) as C1.
  unfold inserted. cbn [faces detected_world].
  destruct (fst (added env1 (faces w) _)) as [row1|] eqn:Acc1; [|discriminate].
  rewrite C1. intros _ T. apply app_inj_tail in T. destruct T as [_ ->].
  destruct (added_inserted _ _ _ _ Acc1) as [_ Ins1].
  destruct (insert_inv _ _ _ _ _ _ Ins1) as (_ & _ & _ & _ & Em1).
  cbn [FaceInsert.face_embedding new_person Service.to_FaceDetection
       FaceDetection.embedding] in Em1.
  set (w1 := mkWorld _ _ _).
  assert (I2 : initializes env2 w1 = true) by reflexivity.
  assert (P2 : identified env2 (faces w1)
                 (FaceDetection.embedding (Service.to_FaceDetection pf2))
               = Some (matched_row env2 created (PyFace.encoding pf1)
                         (PyFace.encoding pf1))).
  { cbn [faces w1 Service.to_FaceDetection FaceDetection.embedding].
    rewrite Same.
    exact (identified_after_insert env2 (faces w) _ created Q2 G A Em1 V S). }
  rewrite (recognizeFace_found env2 img2 n2 r2 w1 _ _ _ I2 B2 F2 P2).
  repeat split.
Qed.

Lemma registered_person_is_found_again_witness :
  let first := Service.recognizeFace (Sample.env [Sample.face Sample.d1])
                 Sample.image (Some (str "Ana")) (Some (str "Daughter"))
                 (Sample.world [Sample.eva]) in
  let second := Service.recognizeFace (Sample.env_later [Sample.face Sample.d1])
                  Sample.image (Some (str "Zoe")) (Some (str "Friend"))
                  (snd first) in
  FaceRecognitionResult.success (fst second) = true
  /\ FaceRecognitionResult.person (fst second) = FaceRecognitionResult.person (fst first)
  /\ FaceRecognitionResult.relationship (fst second)
     = FaceRecognitionResult.relationship (fst first)
  /\ FaceRecognitionResult.color (fst second) = FaceRecognitionResult.color (fst first)
  /\ faces (snd second) = faces (snd first).
Proof.
  apply (registered_person_is_found_again
           (Sample.env [Sample.face Sample.d1])
           (Sample.env_later [Sample.face Sample.d1])
           Sample.image Sample.image (str "Ana") (str "Daughter")
           (Some (str "Zoe")) (Some (str "Friend")) (Sample.world [Sample.eva])
           (Sample.face Sample.d1) (Sample.face Sample.d1) [] []
           Sample.ana_registered).
  - reflexivity.
  - vm_compute. reflexivity.
  - vm_compute. reflexivity.
  - reflexivity.
  - reflexivity.
  - reflexivity.
  - reflexivity.
  - reflexivity.
  - vm_compute. reflexivity.
  - intros r e [<-|[]] E. injection E as <-. vm_compute. reflexivity.
  - vm_compute. reflexivity.
Defined.

(** ** What a call of [recognizeFace] does and never does *)

(** X9: without both a name and a relationship that are given and not
    empty, [recognizeFace] never writes: the table is unchanged and no
    insert is sent to the datastore, whatever the image, the detection
    service and the datastore do. *)
Theorem recognizeFace_without_candidate_never_inserts
    (env : Env) (img : jsstring) (n r : option jsstring) (w : World) :
  truthy n && truthy r = false ->
  let run := Service.recognizeFace env img n r w in
  faces (snd run) = faces w
  /\ exists new, calls (snd run) = calls w ++ new
                 /\ forall d, ~ In (InsertFaces d) new.
Proof.
  intros T. cbv zeta.
  destruct (recognizeFace_path env img n r w)
    as [I | I B | I B E | face others p I B E P | face others I B E P T'
        | face others name relationship I B E P -> -> N R]; cbn [snd].
  - split; [reflexivity|]. exists [FetchHealth]. split; [reflexivity|].
    intros d [H|[]]. discriminate.
  - split; [apply initialized_faces|].
    exists (if modelsLoaded w then [] else [FetchHealth]). split.
    + unfold initialized. destruct (modelsLoaded w); simpl; [|reflexivity].
      symmetry. apply app_nil_r.
    + intros d H. destruct (modelsLoaded w); [destruct H|].
      destruct H as [H|[]]. discriminate.
  - split; [reflexivity|].
    exists ((if modelsLoaded w then [] else [FetchHealth])
            ++ [FetchDetect (Buffer_from_base64 img)]). split.
    + unfold detected_world, initialized.
      destruct (modelsLoaded w); simpl; rewrite <- ?app_assoc; reflexivity.
    + intros d H. destruct (modelsLoaded w); simpl in H;
        repeat (destruct H as [H|H]; [discriminate|]); destruct H.
  - split; [reflexivity|].
    exists ((if modelsLoaded w then [] else [FetchHealth])
            ++ [FetchDetect (Buffer_from_base64 img);
                RpcMatchFaces (FaceDetection.embedding face) (7 # 10) 1]). split.
    + unfold queried, detected_world, initialized.
      destruct (modelsLoaded w); simpl; rewrite <- ?app_assoc; reflexivity.
    + intros d H. destruct (modelsLoaded w); simpl in H;
        repeat (destruct H as [H|H]; [discriminate|]); destruct H.
  - split; [reflexivity|].
    exists ((if modelsLoaded w then [] else [FetchHealth])
            ++ [FetchDetect (Buffer_from_base64 img);
                RpcMatchFaces (FaceDetection.embedding face) (7 # 10) 1]). split.
    + unfold queried, detected_world, initialized.
      destruct (modelsLoaded w); simpl; rewrite <- ?app_assoc; reflexivity.
    + intros d H. destruct (modelsLoaded w); simpl in H;
        repeat (destruct H as [H|H]; [discriminate|]); destruct H.
  - simpl in T. rewrite N, R in T. discriminate.
Qed.

Lemma recognizeFace_without_candidate_never_inserts_witness :
  let run := Service.recognizeFace (Sample.env [Sample.face Sample.d1])
               Sample.image (Some (str "Ana")) (Some [])
               (Sample.world [Sample.eva]) in
  faces (snd run) = faces (Sample.world [Sample.eva])
  /\ exists new, calls (snd run) = calls (Sample.world [Sample.eva]) ++ new
                 /\ forall d, ~ In (InsertFaces d) new.
Proof.
  apply (recognizeFace_without_candidate_never_inserts
           (Sample.env [Sample.face Sample.d1]) Sample.image
           (Some (str "Ana")) (Some []) (Sample.world [Sample.eva])).
  reflexivity.
Defined.

(** X10: a result with [success: true] always carries a person, a
    relationship, a colour and a confidence that is 0.8 (a record was
    found) or 1 (a person was added), and no [error]; the response of
    the tool has its [success] and [message] members in every case. *)
Theorem successful_result_is_complete
    (env : Env) (img : jsstring) (n r : option jsstring) (w : World) :
  let result := fst (Service.recognizeFace env img n r w) in
  Json.member "success" (Json.stringify result)
  = Some (Json.Boolean (FaceRecognitionResult.success result))
  /\ Json.member "message" (Json.stringify result)
     = Some (Json.String (FaceRecognitionResult.message result))
  /\ (FaceRecognitionResult.success result = true ->
      (exists person relationship color,
         FaceRecognitionResult.person result = Some person
         /\ FaceRecognitionResult.relationship result = Some relationship
         /\ FaceRecognitionResult.color result = Some color)
      /\ (FaceRecognitionResult.confidence result = Some (8 # 10)
          \/ FaceRecognitionResult.confidence result = Some 1)
      /\ FaceRecognitionResult.error result = None).
Proof.
  cbv zeta. split; [|split].
  - reflexivity.
  - destruct (fst (Service.recognizeFace env img n r w)) as [s p rel c col m e].
    unfold Json.member, Json.stringify. simpl.
    destruct p, rel, c, col; reflexivity.
  - destruct (recognizeFace_path env img n r w)
      as [I | I B | I B E | face others p I B E P | face others I B E P T
          | face others name relationship I B E P -> -> N R]; cbn [fst];
      try (intros H; discriminate H).
    + intros _. split; [eexists _, _, _; repeat split|]. split; [left|]; reflexivity.
    + destruct (fst (added env (faces w) _)) as [newFace|];
        [|intros H; discriminate H].
      intros _. split; [eexists _, _, _; repeat split|]. split; [right|]; reflexivity.
Qed.

(** The result and the table of a call do not depend on the calls made
    before. *)
Lemma recognizeFace_history (env : Env) (img : jsstring) (n r : option jsstring)
    (w : World) (log : list Call) :
  let w' := mkWorld (modelsLoaded w) (faces w) log in
  fst (Service.recognizeFace env img n r w') = fst (Service.recognizeFace env img n r w)
  /\ faces (snd (Service.recognizeFace env img n r w'))
     = faces (snd (Service.recognizeFace env img n r w))
  /\ modelsLoaded (snd (Service.recognizeFace env img n r w'))
     = modelsLoaded (snd (Service.recognizeFace env img n r w)).
Proof.
  cbv zeta. set (w' := mkWorld _ _ _).
  assert (Iw : initializes env w' = initializes env w) by reflexivity.
  destruct (recognizeFace_path env img n r w)
    as [I | I B | I B E | face others p I B E P | face others I B E P T
        | face others name relationship I B E P -> -> N R].
  - rewrite (recognizeFace_failed env img n r w' (eq_trans Iw I)). repeat split.
  - rewrite (recognizeFace_blank env img n r w' (eq_trans Iw I) B).
    cbn [fst snd]. rewrite !initialized_faces, !initialized_loaded. repeat split.
  - rewrite (recognizeFace_no_faces env img n r w' (eq_trans Iw I) B E). repeat split.
  - rewrite (recognizeFace_found env img n r w' _ _ p (eq_trans Iw I) B E P).
    repeat split.
  - rewrite (recognizeFace_unmatched env img n r w' _ _ (eq_trans Iw I) B E P T).
    repeat split.
  - rewrite (recognizeFace_create env img name relationship w' _ _
               (eq_trans Iw I) B E P N R).
    repeat split.
Qed.

(** X11: a call that ends on a failed health check does not spoil the
    service: it leaves the table and the flag as they were, and the next
    call gives the result, and leaves the table, that it would have
    given in place of the failed one. *)
Theorem failed_call_can_be_retried
    (env1 env2 : Env) (img1 img2 : jsstring) (n1 r1 n2 r2 : option jsstring)
    (w : World) :
  initializes env1 w = false ->
  let failed := Service.recognizeFace env1 img1 n1 r1 w in
  let retry := Service.recognizeFace env2 img2 n2 r2 (snd failed) in
  let direct := Service.recognizeFace env2 img2 n2 r2 w in
  FaceRecognitionResult.success (fst failed) = false
  /\ faces (snd failed) = faces w
  /\ modelsLoaded (snd failed) = false
  /\ fst retry = fst direct
  /\ faces (snd retry) = faces (snd direct).
Proof.
  intros I. cbv zeta.
  assert (L : modelsLoaded w = false).
  { unfold initializes in I. apply orb_false_iff in I. tauto. }
  rewrite (recognizeFace_failed env1 img1 n1 r1 w I). cbn [fst snd faces modelsLoaded].
  split; [reflexivity|]. split; [reflexivity|]. split; [reflexivity|].
  rewrite <- L.
  destruct (recognizeFace_history env2 img2 n2 r2 w (calls w ++ [FetchHealth]))
    as (H1 & H2 & _).
  split; assumption.
Qed.

Lemma failed_call_can_be_retried_witness :
  let failed := Service.recognizeFace Sample.env_service_down Sample.image
                  None None (Sample.world [Sample.ana]) in
  let retry := Service.recognizeFace (Sample.env [Sample.face Sample.d1])
                 Sample.image None None (snd failed) in
  let direct := Service.recognizeFace (Sample.env [Sample.face Sample.d1])
                  Sample.image None None (Sample.world [Sample.ana]) in
  FaceRecognitionResult.success (fst failed) = false
  /\ faces (snd failed) = faces (Sample.world [Sample.ana])
  /\ modelsLoaded (snd failed) = false
  /\ fst retry = fst direct
  /\ faces (snd retry) = faces (snd direct).
Proof.
  apply (failed_call_can_be_retried Sample.env_service_down
           (Sample.env [Sample.face Sample.d1]) Sample.image Sample.image
           None None None None (Sample.world [Sample.ana])).
  reflexivity.
Defined.

(** X12: the calls of one [recognizeFace], in order: a health check
    exactly when the service object is not initialised yet; then at most
    one request to the detection service, with the image data decoded
    as it was given; then at most one [match_faces] query, with
    threshold 0.7 and count 1; then at most one insert. No later call is
    made without the earlier ones. *)
Theorem recognizeFace_call_sequence
    (env : Env) (img : jsstring) (n r : option jsstring) (w : World) :
  exists rest,
    calls (snd (Service.recognizeFace env img n r w))
    = calls w ++ (if modelsLoaded w then [] else [FetchHealth]) ++ rest
    /\ (rest = []
        \/ rest = [FetchDetect (Buffer_from_base64 img)]
        \/ (exists e,
              rest = [FetchDetect (Buffer_from_base64 img);
                      RpcMatchFaces e (7 # 10) 1])
        \/ (exists e d,
              rest = [FetchDetect (Buffer_from_base64 img);
                      RpcMatchFaces e (7 # 10) 1; InsertFaces d])).
Proof.
  destruct (recognizeFace_path env img n r w)
    as [I | I B | I B E | face others p I B E P | face others I B E P T
        | face others name relationship I B E P -> -> N R]; cbn [snd].
  - exists []. split; [|left; reflexivity].
    assert (L : modelsLoaded w = false).
    { unfold initializes in I. apply orb_false_iff in I. tauto. }
    rewrite L. reflexivity.
  - exists []. split; [|left; reflexivity].
    unfold initialized. destruct (modelsLoaded w); simpl;
      rewrite ?app_nil_r; reflexivity.
  - exists [FetchDetect (Buffer_from_base64 img)].
    split; [|right; left; reflexivity].
    unfold detected_world, initialized.
    destruct (modelsLoaded w); simpl; rewrite <- ?app_assoc; reflexivity.
  - eexists. split; [|right; right; left; eexists; reflexivity].
    unfold queried, detected_world, initialized.
    destruct (modelsLoaded w); simpl; rewrite <- ?app_assoc; reflexivity.
  - eexists. split; [|right; right; left; eexists; reflexivity].
    unfold queried, detected_world, initialized.
    destruct (modelsLoaded w); simpl; rewrite <- ?app_assoc; reflexivity.
  - eexists. split; [|right; right; right; eexists _, _; reflexivity].
    unfold inserted, detected_world, initialized.
    destruct (modelsLoaded w); simpl; rewrite <- ?app_assoc; reflexivity.
Qed.

(** ** The prefix of a data URL *)

Lemma skip_lower_app (subtype rest : jsstring) (c : N) :
  forallb Maintenance.is_lower subtype = true ->
  Maintenance.is_lower c = false ->
  Maintenance.skip_lower (subtype ++ c :: rest) = c :: rest.
Proof.
  intros L C. induction subtype as [|a t IH]; simpl.
  - rewrite C. reflexivity.
  - simpl in L. apply andb_true_iff in L. destruct L as [La Lt].
    rewrite La. apply IH. exact Lt.
Qed.

(** X13: [processImage] takes the prefix off a data URL whose image
    type is written in lower case letters: what is decoded is the text
    after [;base64,]. *)
Theorem processImage_strips_the_data_url_prefix
    (subtype payload : jsstring) :
  subtype <> [] ->
  forallb Maintenance.is_lower subtype = true ->
  Maintenance.processImage
    (str "data:image/" ++ subtype ++ str ";base64," ++ payload)
  = Buffer_from_base64 payload.
Proof.
  intros NE L. unfold Maintenance.processImage, Maintenance.strip_data_url.
  f_equal.
  change (startsWith (str "data:image/")
            (str "data:image/" ++ subtype ++ str ";base64," ++ payload)) with true.
  cbv iota.
  change (skipn 11 (str "data:image/" ++ subtype ++ str ";base64," ++ payload))
    with (subtype ++ str ";base64," ++ payload).
  cbv zeta.
  change (str ";base64," ++ payload)
    with (59%N :: (skipn 1 (str ";base64,") ++ payload)).
  rewrite (skip_lower_app subtype _ 59%N L eq_refl).
  assert (Len : Nat.eqb (length (59%N :: skipn 1 (str ";base64,") ++ payload))
                  (length (subtype ++ 59%N :: skipn 1 (str ";base64,") ++ payload))
                = false).
  { apply Nat.eqb_neq. rewrite length_app. destruct subtype; [congruence|].
    simpl. lia. }
  rewrite Len. reflexivity.
Qed.

Lemma processImage_strips_the_data_url_prefix_witness :
  Maintenance.processImage
    (str "data:image/" ++ str "jpeg" ++ str ";base64," ++ Sample.image)
  = Buffer_from_base64 Sample.image.
Proof.
  apply (processImage_strips_the_data_url_prefix (str "jpeg") Sample.image).
  - discriminate.
  - reflexivity.
Defined.

(** X14: [processImage] leaves the text as it is unless it begins with
    [data:image/]; and in every case what it decodes is the end of the
    text it was given: it removes a prefix and changes nothing else. *)
Theorem processImage_only_removes_a_prefix (s : jsstring) :
  (startsWith (str "data:image/") s = false ->
   Maintenance.processImage s = Buffer_from_base64 s)
  /\ exists prefix rest,
       s = prefix ++ rest /\ Maintenance.processImage s = Buffer_from_base64 rest.
Proof.
  unfold Maintenance.processImage, Maintenance.strip_data_url. split.
  - intros H. rewrite H. reflexivity.
  - destruct (startsWith (str "data:image/") s); [|exists [], s; split; reflexivity].
    cbv zeta.
    assert (K : forall l, exists p, l = p ++ Maintenance.skip_lower l).
    { induction l as [|c t [p IH]]; [exists []; reflexivity|]. simpl.
      destruct (Maintenance.is_lower c).
      - exists (c :: p). simpl. f_equal. exact IH.
      - exists []. reflexivity. }
    destruct (_ && _); [|exists [], s; split; reflexivity].
    destruct (K (skipn 11 s)) as [p Hp].
    exists (firstn 11 s ++ p ++ firstn 8 (Maintenance.skip_lower (skipn 11 s))),
           (skipn 8 (Maintenance.skip_lower (skipn 11 s))).
    split; [|reflexivity].
    rewrite <- !app_assoc, firstn_skipn, <- Hp, firstn_skipn. reflexivity.
Qed.

(** ** [getAllFaces] *)

(** X15: [getAllFaces] without a user id, or with an empty one, applies
    no filter: when the datastore answers it returns the whole table,
    the rows of every user, and the empty list when it does not. *)
Theorem getAllFaces_without_user_id_returns_every_row
    (uuid_in : jsstring -> option jsstring) (answers : bool)
    (userId : option jsstring) (tbl : Db.table) :
  truthy userId = false ->
  Maintenance.getAllFaces uuid_in answers userId tbl
  = if answers then tbl else [].
Proof.
  intros T. unfold Maintenance.getAllFaces. rewrite T. reflexivity.
Qed.

Lemma getAllFaces_without_user_id_returns_every_row_witness :
  Maintenance.getAllFaces (fun s => Some s) true (Some [])
    [Sample.ana; Sample.ben]
  = [Sample.ana; Sample.ben].
Proof.
  apply (getAllFaces_without_user_id_returns_every_row (fun s => Some s) true
           (Some []) [Sample.ana; Sample.ben]).
  reflexivity.
Defined.

(** X16: with a user id that the database reads as the uuid [u],
    [getAllFaces] returns exactly the rows of the table whose [user_id]
    is [u]; rows without a user are never among them. *)
Theorem getAllFaces_returns_the_rows_of_the_user
    (uuid_in : jsstring -> option jsstring)
    (text u : jsstring) (tbl : Db.table) (r : FaceRecord.t) :
  text <> [] -> uuid_in text = Some u ->
  In r (Maintenance.getAllFaces uuid_in true (Some text) tbl)
  <-> In r tbl /\ FaceRecord.user_id r = Some u.
Proof.
  intros NE U. unfold Maintenance.getAllFaces.
  assert (T : truthy (Some text) = true) by (destruct text; [congruence|reflexivity]).
  rewrite T, U. unfold Sql.select_user. rewrite filter_In.
  split; intros [I H]; (split; [exact I|]).
  - destruct (FaceRecord.user_id r) as [v|]; [|discriminate].
    simpl in H. apply eqb_eq in H. congruence.
  - rewrite H. simpl. apply eqb_eq. reflexivity.
Qed.

Lemma getAllFaces_returns_the_rows_of_the_user_witness :
  let mine := FaceRecord.mk (str "id-1") (str "Ana") (str "Daughter") (str "blue")
                None None (str "t") (str "t") (Some (str "user-1")) in
  In mine (Maintenance.getAllFaces (fun s => Some s) true (Some (str "user-1"))
             [Sample.ana; mine])
  <-> In mine [Sample.ana; mine] /\ FaceRecord.user_id mine = Some (str "user-1").
Proof.
  apply (getAllFaces_returns_the_rows_of_the_user (fun s => Some s)
           (str "user-1") (str "user-1")).
  - discriminate.
  - reflexivity.
Defined.

(** ** [updateFace] and [update_face_info] *)

(** What [UPDATE] never changes in a row, and what the trigger sets. *)
Lemma assign_keeps (now : jsstring) (u : FaceUpdate.t) (r r' : FaceRecord.t) :
  Sql.assign now u r = Some r' ->
  FaceRecord.id r' = FaceRecord.id r
  /\ FaceRecord.user_id r' = FaceRecord.user_id r
  /\ FaceRecord.created_at r' = FaceRecord.created_at r
  /\ FaceRecord.updated_at r' = now.
Proof.
  unfold Sql.assign.
  destruct (Sql.set_varchar 255 (FaceUpdate.name u) (FaceRecord.name r));
    [|discriminate].
  destruct (Sql.set_varchar 255 (FaceUpdate.relationship u) (FaceRecord.relationship r));
    [|discriminate].
  destruct (Sql.set_varchar 50 (FaceUpdate.color u) (FaceRecord.color r));
    [|discriminate].
  destruct (_ && _); [|discriminate].
  intros H. injection H as <-. repeat split.
Qed.

(** The new versions come from the rows, one each, in order. *)
Lemma assign_all_inv (now : jsstring) (u : FaceUpdate.t)
    (rows updated : list FaceRecord.t) :
  Sql.assign_all now u rows = Some updated ->
  map FaceRecord.id updated = map FaceRecord.id rows
  /\ forall x', In x' updated ->
       exists x, In x rows /\ Sql.assign now u x = Some x'.
Proof.
  revert updated. induction rows as [|r rest IH]; intros updated H.
  - simpl in H. injection H as <-. split; [reflexivity|]. intros x' [].
  - simpl in H.
    destruct (Sql.assign now u r) as [r'|] eqn:A; [|discriminate].
    destruct (Sql.assign_all now u rest) as [rest'|]; [|discriminate].
    injection H as <-. destruct (IH rest' eq_refl) as [Hi Hx]. split.
    + simpl. rewrite Hi. destruct (assign_keeps _ _ _ _ A) as (-> & _).
      reflexivity.
    + intros x' [<-|I].
      * exists r. split; [left; reflexivity|exact A].
      * destruct (Hx x' I) as (x & Ix & Ax). exists x. split; [right|]; assumption.
Qed.

Lemma update_rows_inv (i now : jsstring) (u : FaceUpdate.t) (tbl : Db.table)
    (updated : list FaceRecord.t) (tbl' : Db.table) :
  Sql.update_rows i now u tbl = Some (updated, tbl') ->
  Sql.assign_all now u (filter (Sql.has_id i) tbl) = Some updated
  /\ tbl' = filter (fun r => negb (Sql.has_id i r)) tbl ++ updated.
Proof.
  unfold Sql.update_rows.
  destruct (Sql.assign_all now u (filter (Sql.has_id i) tbl)) as [ups|];
    [|discriminate].
  intros H. injection H as <- <-. split; reflexivity.
Qed.

Lemma update_rows_others (i now : jsstring) (u : FaceUpdate.t) (tbl : Db.table)
    (updated : list FaceRecord.t) (tbl' : Db.table) (x : FaceRecord.t) :
  Sql.update_rows i now u tbl = Some (updated, tbl') ->
  In x tbl -> Sql.has_id i x = false -> In x tbl'.
Proof.
  intros H I Tx. destruct (update_rows_inv _ _ _ _ _ _ H) as [_ ->].
  apply in_or_app. left. apply filter_In. split; [exact I|].
  rewrite Tx. reflexivity.
Qed.

Lemma update_rows_updated (i now : jsstring) (u : FaceUpdate.t) (tbl : Db.table)
    (updated : list FaceRecord.t) (tbl' : Db.table) (x' : FaceRecord.t) :
  Sql.update_rows i now u tbl = Some (updated, tbl') ->
  In x' updated ->
  In x' tbl'
  /\ exists x, In x tbl /\ Sql.has_id i x = true /\ Sql.assign now u x = Some x'.
Proof.
  intros H I. destruct (update_rows_inv _ _ _ _ _ _ H) as [A ->].
  split; [apply in_or_app; right; exact I|].
  destruct (proj2 (assign_all_inv _ _ _ _ A) x' I) as (x & Ix & Ax).
  apply filter_In in Ix. destruct Ix as [Ix Tx].
  exists x. repeat split; assumption.
Qed.

Lemma update_rows_in (i now : jsstring) (u : FaceUpdate.t) (tbl : Db.table)
    (updated : list FaceRecord.t) (tbl' : Db.table) (x' : FaceRecord.t) :
  Sql.update_rows i now u tbl = Some (updated, tbl') ->
  In x' tbl' ->
  In x' updated \/ (In x' tbl /\ Sql.has_id i x' = false).
Proof.
  intros H I. destruct (update_rows_inv _ _ _ _ _ _ H) as [_ ->].
  apply in_app_or in I. destruct I as [I|I]; [right|left; exact I].
  apply filter_In in I. destruct I as [I T]. split; [exact I|].
  apply negb_true_iff in T. exact T.
Qed.

(** No row has the id: the statement updates nothing. *)
Lemma update_rows_nobody (i now : jsstring) (u : FaceUpdate.t) (tbl : Db.table) :
  (forall r, In r tbl -> Sql.has_id i r = false) ->
  Sql.update_rows i now u tbl = Some ([], tbl).
Proof.
  intros H. unfold Sql.update_rows.
  assert (F : filter (Sql.has_id i) tbl = []).
  { induction tbl as [|r rest IH]; [reflexivity|]. simpl.
    rewrite (H r (or_introl eq_refl)). apply IH.
    intros x Ix. apply H. right. exact Ix. }
  assert (G : filter (fun r => negb (Sql.has_id i r)) tbl = tbl).
  { induction tbl as [|r rest IH]; [reflexivity|]. simpl.
    rewrite (H r (or_introl eq_refl)). simpl. f_equal. apply IH.
    - intros x Ix. apply H. right. exact Ix.
    - simpl in F. rewrite (H r (or_introl eq_refl)) in F. exact F. }
  rewrite F, G. simpl. rewrite app_nil_r. reflexivity.
Qed.

Lemma has_id_eq (i : jsstring) (r : FaceRecord.t) :
  Sql.has_id i r = true <-> FaceRecord.id r = i.
Proof. unfold Sql.has_id. apply eqb_eq. Qed.

(** The rows a condition selects and the rows it leaves make up the
    table. *)
Lemma filter_partition {A} (p : A -> bool) (l : list A) :
  Permutation (filter (fun x => negb (p x)) l ++ filter p l) l.
Proof.
  induction l as [|a l IH]; simpl; [constructor|].
  destruct (p a); simpl.
  - apply Permutation_sym. apply Permutation_cons_app.
    apply Permutation_sym. exact IH.
  - constructor. exact IH.
Qed.

(** An update keeps the ids of the table. *)
Lemma update_rows_ids (i now : jsstring) (u : FaceUpdate.t) (tbl : Db.table)
    (updated : list FaceRecord.t) (tbl' : Db.table) :
  Sql.update_rows i now u tbl = Some (updated, tbl') ->
  Permutation (map FaceRecord.id tbl') (map FaceRecord.id tbl).
Proof.
  intros H. destruct (update_rows_inv _ _ _ _ _ _ H) as [A ->].
  rewrite map_app, (proj1 (assign_all_inv _ _ _ _ A)), <- map_app.
  apply Permutation_map. apply filter_partition.
Qed.

Lemma primary_key_In (i : jsstring) (tbl : Db.table) :
  Db.primary_key i tbl = true <-> ~ In i (map FaceRecord.id tbl).
Proof.
  unfold Db.primary_key. rewrite negb_true_iff. split.
  - intros E I. apply in_map_iff in I. destruct I as (r & <- & I).
    assert (X : existsb (fun x => Js.eqb (FaceRecord.id x) (FaceRecord.id r)) tbl = true).
    { apply existsb_exists. exists r. split; [exact I|apply eqb_refl]. }
    congruence.
  - intros N. destruct (existsb _ tbl) eqn:E; [|reflexivity].
    apply existsb_exists in E. destruct E as (r & I & T). apply eqb_eq in T.
    exfalso. apply N. rewrite <- T. apply in_map. exact I.
Qed.

Lemma ids_unique_NoDup (tbl : Db.table) :
  Sql.ids_unique tbl = true <-> NoDup (map FaceRecord.id tbl).
Proof.
  induction tbl as [|r rest IH]; simpl.
  - split; [constructor|reflexivity].
  - rewrite andb_true_iff, primary_key_In, IH. split.
    + intros [N D]. constructor; assumption.
    + intros D. inversion D; subst. split; assumption.
Qed.

(** What [UPDATE] sets in a row, and what it keeps. *)
Lemma assign_fields (now : jsstring) (u : FaceUpdate.t) (r r' : FaceRecord.t) :
  Sql.assign now u r = Some r' ->
  Sql.set_varchar 255 (FaceUpdate.name u) (FaceRecord.name r)
  = Some (FaceRecord.name r')
  /\ Sql.set_varchar 255 (FaceUpdate.relationship u) (FaceRecord.relationship r)
     = Some (FaceRecord.relationship r')
  /\ Sql.set_varchar 50 (FaceUpdate.color u) (FaceRecord.color r)
     = Some (FaceRecord.color r')
  /\ Db.vector_fits (FaceUpdate.face_embedding u) = true
  /\ FaceRecord.face_embedding r'
     = match FaceUpdate.face_embedding u with
       | Some e => Some e
       | None => FaceRecord.face_embedding r
       end.
Proof.
  unfold Sql.assign.
  destruct (Sql.set_varchar 255 (FaceUpdate.name u) (FaceRecord.name r));
    [|discriminate].
  destruct (Sql.set_varchar 255 (FaceUpdate.relationship u) (FaceRecord.relationship r));
    [|discriminate].
  destruct (Sql.set_varchar 50 (FaceUpdate.color u) (FaceRecord.color r));
    [|discriminate].
  destruct (Db.vector_fits (FaceUpdate.face_embedding u)); [|discriminate].
  destruct (Db.text_fits (FaceUpdate.image_url u)); [|discriminate].
  intros H. injection H as <-. repeat split.
Qed.

Lemma set_varchar_bound (n : nat) (new : option jsstring) (old k : jsstring) :
  (Db.char_length old <= n)%nat ->
  Sql.set_varchar n new old = Some k -> (Db.char_length k <= n)%nat.
Proof.
  intros O. destruct new as [s|]; simpl.
  - apply varchar_bound.
  - intros H. injection H as <-. exact O.
Qed.

Lemma assign_fits (now : jsstring) (u : FaceUpdate.t) (r r' : FaceRecord.t) :
  Sql.row_fits r = true -> Sql.assign now u r = Some r' -> Sql.row_fits r' = true.
Proof.
  unfold Sql.row_fits. intros F A.
  apply andb_true_iff in F. destruct F as [F Fe].
  apply andb_true_iff in F. destruct F as [F Fc].
  apply andb_true_iff in F. destruct F as [Fn Fr].
  apply Nat.leb_le in Fn, Fr, Fc.
  destruct (assign_fields _ _ _ _ A) as (Vn & Vr & Vc & Ve & E).
  rewrite (proj2 (Nat.leb_le _ _) (set_varchar_bound _ _ _ _ Fn Vn)).
  rewrite (proj2 (Nat.leb_le _ _) (set_varchar_bound _ _ _ _ Fr Vr)).
  rewrite (proj2 (Nat.leb_le _ _) (set_varchar_bound _ _ _ _ Fc Vc)).
  rewrite E. destruct (FaceUpdate.face_embedding u); [exact Ve|exact Fe].
Qed.

(** An update the table accepts leaves it within its constraints. *)
Lemma update_well_formed (i now : jsstring) (u : FaceUpdate.t) (tbl tbl' : Db.table)
    (updated : list FaceRecord.t) :
  Sql.well_formed tbl = true ->
  Sql.update i now u tbl = Some (updated, tbl') ->
  Sql.well_formed tbl' = true.
Proof.
  unfold Sql.well_formed, Sql.update. intros W.
  apply andb_true_iff in W. destruct W as [W F].
  apply andb_true_iff in W. destruct W as [I N].
  destruct (Sql.update_rows i now u tbl) as [[ups t']|] eqn:R; [|discriminate].
  destruct (Sql.names_unique t') eqn:U; [|discriminate].
  intros H. injection H as <- <-.
  assert (I' : Sql.ids_unique t' = true).
  { apply ids_unique_NoDup.
    apply (Permutation_NoDup (Permutation_sym (update_rows_ids _ _ _ _ _ _ R))).
    apply ids_unique_NoDup. exact I. }
  rewrite I', U. simpl.
  apply forallb_forall. intros x Ix.
  rewrite forallb_forall in F.
  destruct (update_rows_in _ _ _ _ _ _ _ R Ix) as [Iu|[It _]].
  - destruct (update_rows_updated _ _ _ _ _ _ _ R Iu) as (_ & old & Io & _ & A).
    exact (assign_fits _ _ _ _ (F old Io) A).
  - exact (F x It).
Qed.

(** X18: when [updateFace] returns a record, exactly the row with that
    id was changed: the table has the same ids as before, every row
    with another id is still there as it was, and the record returned,
    which is in the table, is the old row with the given columns set,
    its [created_at] and [user_id] kept and its [updated_at] set to the
    time of the update. Nothing is said of the order in which the rows
    are read afterwards. A table within the constraints of the schema
    stays within them. *)
Theorem updateFace_changes_the_row_with_the_id
    (uuid_in : jsstring -> option jsstring) (answers : bool)
    (now id : jsstring) (updates : FaceUpdate.t) (tbl : Db.table)
    (row : FaceRecord.t) :
  fst (Maintenance.updateFace uuid_in answers now id updates tbl) = Some row ->
  let tbl' := snd (Maintenance.updateFace uuid_in answers now id updates tbl) in
  exists i old,
    uuid_in id = Some i
    /\ In old tbl /\ FaceRecord.id old = i
    /\ Sql.assign now updates old = Some row
    /\ In row tbl'
    /\ Permutation (map FaceRecord.id tbl') (map FaceRecord.id tbl)
    /\ (forall r, In r tbl -> FaceRecord.id r <> i -> In r tbl')
    /\ (forall r, In r tbl' -> r = row \/ (In r tbl /\ FaceRecord.id r <> i))
    /\ FaceRecord.id row = i
    /\ FaceRecord.created_at row = FaceRecord.created_at old
    /\ FaceRecord.user_id row = FaceRecord.user_id old
    /\ FaceRecord.updated_at row = now
    /\ (Sql.well_formed tbl = true -> Sql.well_formed tbl' = true).
Proof.
  unfold Maintenance.updateFace, Maintenance.update_faces.
  destruct answers; [|discriminate].
  destruct (uuid_in id) as [i|]; [|discriminate].
  destruct (Sql.no_column updates); [discriminate|].
  destruct (Sql.update i now updates tbl) as [[[|one [|second rest]] tbl1]|] eqn:U;
    try discriminate.
  cbn [fst snd]. intros H. injection H as ->. cbv zeta.
  pose proof U as U'. unfold Sql.update in U'.
  destruct (Sql.update_rows i now updates tbl) as [[ups t']|] eqn:R; [|discriminate].
  destruct (Sql.names_unique t'); [|discriminate].
  injection U' as -> ->.
  destruct (update_rows_updated _ _ _ _ _ _ row R (or_introl eq_refl))
    as (Irow & old & Io & To & A).
  pose proof (update_rows_ids _ _ _ _ _ _ R) as Hi.
  destruct (assign_keeps _ _ _ _ A) as (Kid & Ku & Kc & Kn).
  apply has_id_eq in To.
  exists i, old. repeat split; try assumption.
  - intros r Ir Ne. apply (update_rows_others _ _ _ _ _ _ r R Ir).
    destruct (Sql.has_id i r) eqn:T; [|reflexivity].
    apply has_id_eq in T. contradiction.
  - intros r Ir.
    destruct (update_rows_in _ _ _ _ _ _ _ R Ir) as [[<-|[]]|[It T]];
      [left; reflexivity|right].
    split; [exact It|]. intros E. apply has_id_eq in E. congruence.
  - congruence.
  - intros W. exact (update_well_formed _ _ _ _ _ _ W U).
Qed.

Lemma updateFace_changes_the_row_with_the_id_witness :
  let updates := FaceUpdate.mk (Some (str "Anna")) None None None None in
  let now := str "2025-09-14T08:00:00Z" in
  let row := FaceRecord.mk (str "id-ana") (str "Anna") (str "Daughter")
               (str "#4ECDC4") (Some Sample.at_08) None
               (str "2025-09-13T10:00:00Z") now None in
  let tbl' := snd (Maintenance.updateFace (fun s => Some s) true now (str "id-ana")
                     updates [Sample.ana; Sample.ben]) in
  exists i old,
    Some (str "id-ana") = Some i
    /\ In old [Sample.ana; Sample.ben] /\ FaceRecord.id old = i
    /\ Sql.assign now updates old = Some row
    /\ In row tbl'
    /\ Permutation (map FaceRecord.id tbl') (map FaceRecord.id [Sample.ana; Sample.ben])
    /\ (forall r, In r [Sample.ana; Sample.ben] -> FaceRecord.id r <> i -> In r tbl')
    /\ (forall r, In r tbl' ->
          r = row \/ (In r [Sample.ana; Sample.ben] /\ FaceRecord.id r <> i))
    /\ FaceRecord.id row = i
    /\ FaceRecord.created_at row = FaceRecord.created_at old
    /\ FaceRecord.user_id row = FaceRecord.user_id old
    /\ FaceRecord.updated_at row = now
    /\ (Sql.well_formed [Sample.ana; Sample.ben] = true -> Sql.well_formed tbl' = true).
Proof.
  apply (updateFace_changes_the_row_with_the_id (fun s => Some s) true
           (str "2025-09-14T08:00:00Z") (str "id-ana")
           (FaceUpdate.mk (Some (str "Anna")) None None None None)
           [Sample.ana; Sample.ben]).
  vm_compute. reflexivity.
Defined.

(** X19: [update_face_info] keeps the column of every NULL argument.
    Each row it returns has the id asked for and the time of the update
    as [updated_at], and comes from a row of the table with that id
    whose name, relationship and colour it still has wherever the
    argument was NULL. When no row has the id, nothing is returned and
    the table is unchanged. *)
Theorem update_face_info_keeps_the_columns_not_given
    (now face_id : jsstring) (new_name new_relationship new_color : option jsstring)
    (new_embedding : option embedding) (new_image_url : option jsstring)
    (tbl tbl' : Db.table) (rows : list UpdatedFace.t) :
  Sql.update_face_info now face_id new_name new_relationship new_color
    new_embedding new_image_url tbl = Some (rows, tbl') ->
  (forall out, In out rows ->
     UpdatedFace.id out = face_id
     /\ UpdatedFace.updated_at out = now
     /\ exists old, In old tbl /\ FaceRecord.id old = face_id
          /\ (new_name = None -> UpdatedFace.name out = FaceRecord.name old)
          /\ (new_relationship = None ->
              UpdatedFace.relationship out = FaceRecord.relationship old)
          /\ (new_color = None -> UpdatedFace.color out = FaceRecord.color old))
  /\ ((forall r, In r tbl -> FaceRecord.id r <> face_id) -> rows = [] /\ tbl' = tbl).
Proof.
  unfold Sql.update_face_info, Sql.update.
  set (u := FaceUpdate.mk _ _ _ _ _).
  destruct (Sql.update_rows face_id now u tbl) as [[ups t']|] eqn:R; [|discriminate].
  destruct (Sql.names_unique t'); [|discriminate].
  intros H. injection H as <- <-. split.
  - intros out Io. apply in_map_iff in Io. destruct Io as (r' & <- & Ir').
    apply filter_In in Ir'. destruct Ir' as [Ir' T'].
    cbn [UpdatedFace.id UpdatedFace.updated_at UpdatedFace.name
         UpdatedFace.relationship UpdatedFace.color].
    destruct (update_rows_in _ _ _ _ _ _ _ R Ir') as [Iu|[_ F]]; [|congruence].
    destruct (update_rows_updated _ _ _ _ _ _ _ R Iu) as (_ & old & Iold & To & A).
    destruct (assign_keeps _ _ _ _ A) as (Kid & _ & _ & Kn).
    destruct (assign_fields _ _ _ _ A) as (Vn & Vr & Vc & _).
    apply has_id_eq in To. split; [congruence|]. split; [exact Kn|].
    exists old. split; [exact Iold|]. split; [exact To|].
    unfold u in Vn, Vr, Vc.
    cbn [FaceUpdate.name FaceUpdate.relationship FaceUpdate.color] in Vn, Vr, Vc.
    repeat split; intros ->; simpl in *; congruence.
  - intros Nobody.
    rewrite update_rows_nobody in R.
    + injection R as <- <-. split; [|reflexivity].
      destruct (filter (Sql.has_id face_id) tbl) as [|x l] eqn:F; [reflexivity|].
      assert (Ix : In x (filter (Sql.has_id face_id) tbl)) by (rewrite F; left; reflexivity).
      apply filter_In in Ix. destruct Ix as [Ix Tx]. apply has_id_eq in Tx.
      exfalso. exact (Nobody x Ix Tx).
    + intros r Ir. destruct (Sql.has_id face_id r) eqn:T; [|reflexivity].
      apply has_id_eq in T. exfalso. exact (Nobody r Ir T).
Qed.

Lemma update_face_info_keeps_the_columns_not_given_witness :
  let now := str "2025-09-14T08:00:00Z" in
  let touched := FaceRecord.mk (str "id-ana") (str "Ana") (str "Mother")
                   (str "#4ECDC4") (Some Sample.at_08) None
                   (str "2025-09-13T10:00:00Z") now None in
  let rows := [UpdatedFace.mk (str "id-ana") (str "Ana") (str "Mother")
                 (str "#4ECDC4") now] in
  (forall out, In out rows ->
     UpdatedFace.id out = str "id-ana"
     /\ UpdatedFace.updated_at out = now
     /\ exists old, In old [Sample.ana; Sample.ben] /\ FaceRecord.id old = str "id-ana"
          /\ (@None jsstring = None -> UpdatedFace.name out = FaceRecord.name old)
          /\ (Some (str "Mother") = None ->
              UpdatedFace.relationship out = FaceRecord.relationship old)
          /\ (@None jsstring = None -> UpdatedFace.color out = FaceRecord.color old))
  /\ ((forall r, In r [Sample.ana; Sample.ben] -> FaceRecord.id r <> str "id-ana") ->
      rows = [] /\ [Sample.ben; touched] = [Sample.ana; Sample.ben]).
Proof.
  apply (update_face_info_keeps_the_columns_not_given
           (str "2025-09-14T08:00:00Z") (str "id-ana")
           None (Some (str "Mother")) None None None
           [Sample.ana; Sample.ben]).
  vm_compute. reflexivity.
Defined.

(** ** Insert and delete *)

(** X20: a row inserted and then deleted by the id the insert returned
    leaves the table as it was before the insert. *)
Theorem insert_then_delete_restores_the_table
    (new_id now : jsstring) (d : FaceInsert.t) (tbl tbl' : Db.table)
    (row : FaceRecord.t) :
  Db.insert new_id now d tbl = Some (row, tbl') ->
  Sql.delete (FaceRecord.id row) tbl' = tbl.
Proof.
  intros H. destruct (insert_inv_keys _ _ _ _ _ _ H) as [K _].
  destruct (insert_inv _ _ _ _ _ _ H) as (-> & Id & _).
  unfold Sql.delete. rewrite filter_app. cbn [filter].
  rewrite (proj2 (has_id_eq (FaceRecord.id row) row) eq_refl). cbn [negb].
  rewrite app_nil_r, Id.
  assert (F : forall l, (forall r, In r l -> FaceRecord.id r <> new_id) ->
                filter (fun r => negb (Sql.has_id new_id r)) l = l).
  { induction l as [|x l IH]; intros Hl; [reflexivity|]. simpl.
    destruct (Sql.has_id new_id x) eqn:T.
    - apply has_id_eq in T. exfalso. exact (Hl x (or_introl eq_refl) T).
    - simpl. f_equal. apply IH. intros r Ir. apply Hl. right. exact Ir. }
  apply F. intros r Ir. exact (primary_key_fresh new_id tbl r K Ir).
Qed.

Lemma insert_then_delete_restores_the_table_witness :
  Sql.delete (FaceRecord.id Sample.ana_registered)
    [Sample.eva; Sample.ana_registered]
  = [Sample.eva].
Proof.
  apply (insert_then_delete_restores_the_table (str "id-new")
           (str "2025-09-13T12:00:00Z")
           (FaceInsert.mk (str "Ana") (str "Daughter") (Some (str "#FFB6C1"))
              (Some Sample.d1) None None)
           [Sample.eva] [Sample.eva; Sample.ana_registered] Sample.ana_registered).
  vm_compute. reflexivity.
Defined.

(** X21: [unique_name_per_user]: once a row is stored for a user, an
    insert of the same name for the same user is refused, whatever else
    it carries; the name is compared as it is stored. *)
Theorem same_name_for_the_same_user_is_refused
    (id1 now1 id2 now2 user : jsstring) (d1 d2 : FaceInsert.t)
    (tbl tbl1 : Db.table) (row1 : FaceRecord.t) :
  Db.insert id1 now1 d1 tbl = Some (row1, tbl1) ->
  FaceInsert.user_id d1 = Some user ->
  FaceInsert.user_id d2 = Some user ->
  Db.varchar 255 (FaceInsert.name d2) = Some (FaceRecord.name row1) ->
  Db.insert id2 now2 d2 tbl1 = None.
Proof.
  intros H U1 U2 V.
  assert (Urow : FaceRecord.user_id row1 = Some user).
  { unfold Db.insert in H.
    destruct (Db.varchar 255 (FaceInsert.name d1)); [|discriminate].
    destruct (Db.varchar 255 (FaceInsert.relationship d1)); [|discriminate].
    destruct (Db.varchar 50 _); [|discriminate].
    destruct (_ && _); [|discriminate].
    injection H as <- _. exact U1. }
  destruct (insert_inv _ _ _ _ _ _ H) as (-> & _).
  unfold Db.insert. rewrite V.
  destruct (Db.varchar 255 (FaceInsert.relationship d2)); [|reflexivity].
  destruct (Db.varchar 50 _); [|reflexivity].
  rewrite unique_name_app, U2, Urow.
  cbn [Db.option_eqb]. rewrite !eqb_refl. simpl.
  rewrite !andb_false_r. reflexivity.
Qed.

Lemma same_name_for_the_same_user_is_refused_witness :
  Db.insert (str "id-2") (str "t2")
    (FaceInsert.mk (str "Ana") (str "Daughter") None None None (Some (str "user-1")))
    [FaceRecord.mk (str "id-1") (str "Ana") (str "Daughter") (str "blue")
       None None (str "t1") (str "t1") (Some (str "user-1"))]
  = None.
Proof.
  apply (same_name_for_the_same_user_is_refused (str "id-1") (str "t1")
           (str "id-2") (str "t2") (str "user-1")
           (FaceInsert.mk (str "Ana") (str "Daughter") None None None
              (Some (str "user-1")))
           (FaceInsert.mk (str "Ana") (str "Daughter") None None None
              (Some (str "user-1")))
           []
           [FaceRecord.mk (str "id-1") (str "Ana") (str "Daughter") (str "blue")
              None None (str "t1") (str "t1") (Some (str "user-1"))]
           (FaceRecord.mk (str "id-1") (str "Ana") (str "Daughter") (str "blue")
              None None (str "t1") (str "t1") (Some (str "user-1"))));
    reflexivity.
Defined.

(** ** The hash of the demo service *)

Lemma ToInt32_range (z : Z) : (- 2 ^ 31 <= Simple.ToInt32 z < 2 ^ 31)%Z.
Proof.
  unfold Simple.ToInt32.
  pose proof (Z.mod_pos_bound (z + 2 ^ 31) (2 ^ 32) eq_refl). lia.
Qed.

(** Numbers that differ by a multiple of 2^32 have the same int32. *)
Lemma ToInt32_congr (a b k : Z) :
  (a = b + k * 2 ^ 32)%Z -> Simple.ToInt32 a = Simple.ToInt32 b.
Proof.
  intros ->. unfold Simple.ToInt32.
  replace (b + k * 2 ^ 32 + 2 ^ 31)%Z with (b + 2 ^ 31 + k * 2 ^ 32)%Z by lia.
  rewrite Z_mod_plus_full. reflexivity.
Qed.

Lemma ToInt32_shift (z : Z) : exists k, (Simple.ToInt32 z = z + k * 2 ^ 32)%Z.
Proof.
  exists (- ((z + 2 ^ 31) / 2 ^ 32))%Z. unfold Simple.ToInt32.
  rewrite (Z.mod_eq (z + 2 ^ 31) (2 ^ 32)) by discriminate. lia.
Qed.

(** One turn of the loop multiplies by 31 and adds the byte, in int32. *)
Lemma step_congr (hash x byte k : Z) :
  (hash = x + k * 2 ^ 32)%Z ->
  Simple.step hash byte = Simple.ToInt32 (31 * x + byte).
Proof.
  intros H. unfold Simple.step.
  change (Simple.ToInt32 4294967295) with (-1)%Z. rewrite Z.land_m1_r.
  rewrite Z.shiftl_mul_pow2 by lia.
  destruct (ToInt32_shift hash) as [k1 H1].
  destruct (ToInt32_shift (Simple.ToInt32 hash * 2 ^ 5)) as [k2 H2].
  apply (ToInt32_congr _ _ (31 * k + 32 * k1 + k2)%Z).
  rewrite H2, H1, H. lia.
Qed.

Lemma fold_step_poly (bytes : list Z) (hash x : Z) :
  hash = Simple.ToInt32 x ->
  fold_left Simple.step bytes hash = Simple.ToInt32 (Simple.poly31 x bytes).
Proof.
  revert hash x. induction bytes as [|b rest IH]; intros hash x H; simpl.
  - exact H.
  - apply IH. destruct (ToInt32_shift x) as [k Hk].
    apply (step_congr hash x b k). congruence.
Qed.

(** X22: [simpleHash] is the polynomial in 31 over the first 1000 bytes
    of the buffer, reduced to a signed 32-bit integer and taken in
    absolute value; it lies between 0 and 2^31, both included. *)
Theorem simpleHash_is_a_polynomial_hash (buffer : list Z) :
  Simple.simpleHash buffer
  = Z.abs (Simple.ToInt32 (Simple.poly31 0 (firstn 1000 buffer)))
  /\ (0 <= Simple.simpleHash buffer <= 2 ^ 31)%Z.
Proof.
  unfold Simple.simpleHash.
  rewrite (fold_step_poly (firstn 1000 buffer) 0%Z 0%Z eq_refl).
  split; [reflexivity|].
  pose proof (ToInt32_range (Simple.poly31 0 (firstn 1000 buffer))). lia.
Qed.

(** X23: only the first 1000 bytes count: two buffers that begin with
    the same 1000 bytes have the same hash. *)
Theorem simpleHash_reads_the_first_1000_bytes (head tail1 tail2 : list Z) :
  length head = 1000%nat ->
  Simple.simpleHash (head ++ tail1) = Simple.simpleHash (head ++ tail2).
Proof.
  intros L. unfold Simple.simpleHash.
  rewrite !firstn_app, L, Nat.sub_diag. reflexivity.
Qed.

Lemma simpleHash_reads_the_first_1000_bytes_witness :
  Simple.simpleHash (repeat 255%Z 1000 ++ [1; 2; 3]%Z)
  = Simple.simpleHash (repeat 255%Z 1000 ++ []).
Proof.
  apply (simpleHash_reads_the_first_1000_bytes (repeat 255%Z 1000)).
  reflexivity.
Defined.

Example simpleHash_empty : Simple.simpleHash [] = 0%Z.
Proof. reflexivity. Qed.

Example simpleHash_abc : Simple.simpleHash [97; 98; 99]%Z = 96354%Z.
Proof. reflexivity. Qed.

(** ** The handler with operations *)

(** [detectFaces], in both cases of the health check. *)
Lemma detectFaces_cases (env : Env) (buffer : Buffer) (w : World) :
  exists found w',
    Service.detectFaces env buffer w = (found, w')
    /\ faces w' = faces w
    /\ found = (if initializes env w then detections env else []).
Proof.
  destruct (initializes env w) eqn:I.
  - exists (detections env),
           (mkWorld true (faces w) (calls (initialized w) ++ [FetchDetect buffer])).
    split; [|split; reflexivity].
    unfold Service.detectFaces, try_catch_return.
    rewrite (bind_Return _ _ _ _ _
               (eq_refl : get_modelsLoaded w = (Return (modelsLoaded w), w))).
    rewrite (bind_Return _ _ _ _ _ (ensure_initialized _ _ I)).
    pose proof (detectFaces_run env buffer (initialized w) (initialized_loaded w)) as R.
    unfold Service.detectFaces, try_catch_return in R.
    rewrite (bind_Return _ _ _ _ _
               (eq_refl : get_modelsLoaded (initialized w)
                          = (Return (modelsLoaded (initialized w)), initialized w))) in R.
    rewrite initialized_loaded in R. change (negb true) with false in R. cbv iota in R.
    rewrite (bind_Return _ _ _ _ _
               (eq_refl : ret tt (initialized w) = (Return tt, initialized w))) in R.
    rewrite initialized_faces in R. exact R.
  - exists [], (mkWorld false (faces w) (calls w ++ [FetchHealth])).
    split; [|split; reflexivity].
    assert (L : modelsLoaded w = false).
    { unfold initializes in I. apply orb_false_iff in I. tauto. }
    unfold Service.detectFaces, try_catch_return.
    rewrite (bind_Return _ _ _ _ _
               (eq_refl : get_modelsLoaded w = (Return (modelsLoaded w), w))).
    rewrite L. change (negb false) with true. cbv iota.
    rewrite (bind_Throw _ _ _ _ _ (initialize_fails _ _ I)). reflexivity.
Qed.

(** Without a name and a relationship the table is left alone. *)
Lemma recognizeFace_no_candidate_faces (env : Env) (img : jsstring) (w : World) :
  faces (snd (Service.recognizeFace env img None None w)) = faces w.
Proof.
  destruct (recognizeFace_path env img None None w)
    as [I | I B | I B E | face others p I B E P | face others I B E P T
        | face others name relationship I B E P En Er N R]; cbn [snd];
    try reflexivity.
  - apply initialized_faces.
  - discriminate.
Qed.

(** X24: the operation [add_face] without a name or without a
    relationship, missing or empty, is refused before anything is done:
    the reply says that both are required, no call leaves the process
    and the table is unchanged. *)
Theorem add_face_requires_name_and_relationship
    (uuid_in : jsstring -> option jsstring) (select_answers : bool)
    (env : Env) (args : OperationArgs.t) (w : World) :
  OperationArgs.operation args = str "add_face" ->
  truthy (OperationArgs.name args) && truthy (OperationArgs.relationship args) = false ->
  Operations.handleFaceRecognition uuid_in select_answers env args w
  = (Operations.Refused
       (str "Name and relationship are required for add_face operation"), w).
Proof.
  intros O T. unfold Operations.handleFaceRecognition, try_catch_return.
  cbv zeta. rewrite O.
  change (Js.eqb (str "add_face") (str "identify")) with false.
  change (Js.eqb (str "add_face") (str "add_face")) with true. cbv iota.
  destruct (OperationArgs.name args) as [name|]; [|reflexivity].
  destruct (OperationArgs.relationship args) as [relationship|]; [|reflexivity].
  simpl in T. rewrite <- negb_orb in T. apply negb_false_iff in T.
  rewrite T. reflexivity.
Qed.

Lemma add_face_requires_name_and_relationship_witness :
  Operations.handleFaceRecognition (fun s => Some s) true
    (Sample.env [Sample.face Sample.d1])
    (OperationArgs.mk Sample.image (str "add_face") (Some (str "Ana")) (Some []) None)
    (Sample.world [Sample.eva])
  = (Operations.Refused
       (str "Name and relationship are required for add_face operation"),
     Sample.world [Sample.eva]).
Proof.
  apply (add_face_requires_name_and_relationship (fun s => Some s) true
           (Sample.env [Sample.face Sample.d1])
           (OperationArgs.mk Sample.image (str "add_face") (Some (str "Ana"))
              (Some []) None)
           (Sample.world [Sample.eva])); reflexivity.
Defined.

(** X25: the operation [add_face] adds at most one row. When the reply
    reports success, the table is the old one followed by one row: the
    row has the id, name, relationship and colour of the reply, no user,
    and the descriptor of the first face detected in the image; its
    colour is ['blue'] when no colour, or an empty one, was given. With
    any other reply the table is unchanged. *)
Theorem add_face_adds_the_first_detected_face
    (uuid_in : jsstring -> option jsstring) (select_answers : bool)
    (env : Env) (args : OperationArgs.t) (w : World) :
  OperationArgs.operation args = str "add_face" ->
  let run := Operations.handleFaceRecognition uuid_in select_answers env args w in
  match fst run with
  | Operations.AddedFace _ person relationship color id =>
      exists first others row,
        fst (Service.detectFaces env
               (Maintenance.processImage (OperationArgs.image_data args)) w)
        = first :: others
        /\ faces (snd run) = faces w ++ [row]
        /\ FaceRecord.id row = id
        /\ FaceRecord.name row = person
        /\ FaceRecord.relationship row = relationship
        /\ FaceRecord.color row = color
        /\ FaceRecord.user_id row = None
        /\ FaceRecord.face_embedding row = Some (FaceDetection.embedding first)
        /\ (truthy (OperationArgs.color args) = false -> color = str "blue")
  | _ => faces (snd run) = faces w
  end.
Proof.
  intros O. unfold Operations.handleFaceRecognition, try_catch_return.
  cbv zeta. rewrite O.
  change (Js.eqb (str "add_face") (str "identify")) with false.
  change (Js.eqb (str "add_face") (str "add_face")) with true. cbv iota.
  destruct (OperationArgs.name args) as [name|]; [|reflexivity].
  destruct (OperationArgs.relationship args) as [relationship|]; [|reflexivity].
  destruct (falsy name || falsy relationship); [reflexivity|].
  unfold Operations.add_face. cbv zeta.
  destruct (detectFaces_cases env
              (Maintenance.processImage (OperationArgs.image_data args)) w)
    as (found & w1 & D & F1 & _).
  rewrite (bind_Return _ _ _ _ _ (await_run _ _ _ _ D)). rewrite D. cbn [fst].
  destruct found as [|first others]; [exact F1|].
  rewrite (bind_Return _ _ _ _ _ (await_run _ _ _ _ (addFace_run env _ w1))).
  unfold added. rewrite F1.
  destruct (insert_answers env); [|exact eq_refl].
  destruct (Db.insert (new_id env) (now env) _ (faces w)) as [[row tbl']|] eqn:Ins;
    [|exact eq_refl].
  cbn [fst snd faces].
  destruct (insert_inv _ _ _ _ _ _ Ins) as (T & _ & _ & _ & Em).
  destruct (insert_inv_color _ _ _ _ _ _ Ins) as (Vc & Us).
  cbn [FaceInsert.color FaceInsert.user_id FaceInsert.face_embedding] in Vc, Us, Em.
  exists first, others, row. repeat split; try assumption.
  intros Tc.
  assert (B : Operations.or_blue (OperationArgs.color args) = str "blue").
  { unfold Operations.or_blue. destruct (OperationArgs.color args) as [c|]; [|reflexivity].
    simpl in Tc. apply negb_false_iff in Tc. rewrite Tc. reflexivity. }
  rewrite B in Vc. change (Db.varchar 50 (str "blue")) with (Some (str "blue")) in Vc.
  congruence.
Qed.

Lemma add_face_adds_the_first_detected_face_witness :
  let run := Operations.handleFaceRecognition (fun s => Some s) true
               (Sample.env [Sample.face Sample.d1; Sample.face Sample.d2])
               (OperationArgs.mk Sample.image (str "add_face") (Some (str "Ana"))
                  (Some (str "Daughter")) None)
               (Sample.world [Sample.eva]) in
  fst run = Operations.AddedFace
              (str "Successfully added Ana (Daughter) to the database")
              (str "Ana") (str "Daughter") (str "blue") (str "id-new")
  /\ match fst run with
     | Operations.AddedFace _ person relationship color id =>
         exists first others row,
           fst (Service.detectFaces
                  (Sample.env [Sample.face Sample.d1; Sample.face Sample.d2])
                  (Maintenance.processImage Sample.image) (Sample.world [Sample.eva]))
           = first :: others
           /\ faces (snd run) = [Sample.eva] ++ [row]
           /\ FaceRecord.id row = id
           /\ FaceRecord.name row = person
           /\ FaceRecord.relationship row = relationship
           /\ FaceRecord.color row = color
           /\ FaceRecord.user_id row = None
           /\ FaceRecord.face_embedding row = Some (FaceDetection.embedding first)
           /\ (truthy (@None jsstring) = false -> color = str "blue")
     | _ => faces (snd run) = [Sample.eva]
     end.
Proof.
  split; [vm_compute; reflexivity|].
  apply (add_face_adds_the_first_detected_face (fun s => Some s) true
           (Sample.env [Sample.face Sample.d1; Sample.face Sample.d2])
           (OperationArgs.mk Sample.image (str "add_face") (Some (str "Ana"))
              (Some (str "Daughter")) None)
           (Sample.world [Sample.eva])).
  reflexivity.
Defined.

(** X26: the operation [list_faces] reads and changes nothing: the reply
    holds the id, name, relationship, colour and creation time of every
    row of the table, in table order, and its message counts them. When
    the datastore does not answer, the reply is the same successful one
    with no face and the count 0. *)
Theorem list_faces_lists_every_row
    (uuid_in : jsstring -> option jsstring) (select_answers : bool)
    (env : Env) (args : OperationArgs.t) (w : World) :
  OperationArgs.operation args = str "list_faces" ->
  let rows := if select_answers then faces w else [] in
  Operations.handleFaceRecognition uuid_in select_answers env args w
  = (Operations.FaceList
       (str "Found " ++ of_N (N.of_nat (length rows)) ++ str " known faces")
       (map Operations.summary rows), w).
Proof.
  intros O. unfold Operations.handleFaceRecognition, try_catch_return.
  cbv zeta. rewrite O.
  change (Js.eqb (str "list_faces") (str "identify")) with false.
  change (Js.eqb (str "list_faces") (str "add_face")) with false.
  change (Js.eqb (str "list_faces") (str "list_faces")) with true. cbv iota.
  unfold Operations.getAllFaces, Maintenance.getAllFaces.
  destruct select_answers; reflexivity.
Qed.

Lemma list_faces_lists_every_row_witness :
  Operations.handleFaceRecognition (fun s => Some s) true
    (Sample.env [])
    (OperationArgs.mk [] (str "list_faces") None None None)
    (Sample.world [Sample.eva; Sample.ana])
  = (Operations.FaceList (str "Found 2 known faces")
       (map Operations.summary [Sample.eva; Sample.ana]),
     Sample.world [Sample.eva; Sample.ana]).
Proof.
  apply (list_faces_lists_every_row (fun s => Some s) true (Sample.env [])
           (OperationArgs.mk [] (str "list_faces") None None None)
           (Sample.world [Sample.eva; Sample.ana])).
  reflexivity.
Defined.

(** X27: only the operation [add_face] writes: with any other operation,
    known or not, the table after the call is the table before it. *)
Theorem only_add_face_writes
    (uuid_in : jsstring -> option jsstring) (select_answers : bool)
    (env : Env) (args : OperationArgs.t) (w : World) :
  OperationArgs.operation args <> str "add_face" ->
  faces (snd (Operations.handleFaceRecognition uuid_in select_answers env args w))
  = faces w.
Proof.
  intros O. unfold Operations.handleFaceRecognition, try_catch_return. cbv zeta.
  destruct (Js.eqb (OperationArgs.operation args) (str "identify")).
  - pose proof (recognizeFace_no_candidate_faces env (OperationArgs.image_data args) w)
      as F.
    destruct (Service.recognizeFace env (OperationArgs.image_data args) None None w)
      as [r w1] eqn:R.
    rewrite (bind_Return _ _ _ _ _ (await_run _ _ _ _ R)). exact F.
  - destruct (Js.eqb (OperationArgs.operation args) (str "add_face")) eqn:E.
    + apply eqb_eq in E. contradiction.
    + destruct (Js.eqb (OperationArgs.operation args) (str "list_faces")); reflexivity.
Qed.

Lemma only_add_face_writes_witness :
  faces (snd (Operations.handleFaceRecognition (fun s => Some s) true
                (Sample.env [Sample.face Sample.d1])
                (OperationArgs.mk Sample.image (str "identify") (Some (str "Ana"))
                   (Some (str "Daughter")) None)
                (Sample.world [Sample.eva])))
  = [Sample.eva].
Proof.
  apply (only_add_face_writes (fun s => Some s) true
           (Sample.env [Sample.face Sample.d1])
           (OperationArgs.mk Sample.image (str "identify") (Some (str "Ana"))
              (Some (str "Daughter")) None)
           (Sample.world [Sample.eva])).
  vm_compute. discriminate.
Defined.
